(** * Data quality checks: a shallow embedding of [data_quality.py]

    The development follows the layout of the Python module.  First come
    the Python and pandas primitives the checker relies on (text
    predicates, regular expressions, numeric conversion, data frames),
    then the four evaluators of [DataQualityChecker], the aggregator
    [run_all_checks] and the summary builder, and finally the properties
    of the natural-language specification, followed by further
    properties of the code. *)

From Stdlib Require Import ZArith QArith Qminmax Lqa Ascii String.
From stdpp Require Import base tactics option list gmap strings fin_maps pretty.

Set Warnings "-clear-no-such-hyp".

Local Open Scope string_scope.
Local Open Scope Z_scope.
Local Open Scope list_scope.

(** ** Cell values

    A cell of the data frame is either missing, a text, an integer of
    any size, a finite float or an infinite float.  The missing value is
    [NaN], which is what pandas gives a blank cell of a sheet; [None],
    booleans and dates are not cells of this model.  A finite float
    carries its exact value together with the text Python's [str] prints
    for it (the shortest round-trip decimal), which the checks on text
    columns read.  Texts are ASCII.  Arithmetic on floats is exact: the
    rounding of binary64 is modelled only where [float] reads a decimal
    text or converts an integer. *)

Record float64 := Float64 { fl_val : Q; fl_repr : string }.

Inductive value :=
| VNull
| VStr (s : string)
| VInt (z : Z)
| VFloat (f : float64)
| VInf (neg : bool).

(** [pd.notna] *)
Definition notna (v : value) : bool :=
  match v with VNull => false | _ => true end.

(** [isnull] *)
Definition isnull (v : value) : bool := negb (notna v).

(** The number a finite numeric cell stands for. *)
Definition num_of (v : value) : option Q :=
  match v with
  | VInt z => Some (inject_Z z)
  | VFloat f => Some (fl_val f)
  | _ => None
  end.

(** Equality of cells as pandas groups them: all missing values fall in
    one group, numbers are compared by value, texts by content. *)
Definition value_eqb (a b : value) : bool :=
  match a, b with
  | VNull, VNull => true
  | VStr s, VStr t => bool_decide (s = t)
  | VInf n, VInf m => bool_decide (n = m)
  | VNull, _ | _, VNull | VStr _, _ | _, VStr _ | VInf _, _ | _, VInf _ => false
  | _, _ =>
      match num_of a, num_of b with
      | Some x, Some y => Qeq_bool x y
      | _, _ => false
      end
  end.

(** ** Text primitives (ASCII) *)

Module Text.

Definition code (c : ascii) : N := N_of_ascii c.

Definition between (lo hi : N) (c : ascii) : bool :=
  ((lo <=? code c) && (code c <=? hi))%N.

Definition is_upper : ascii -> bool := between 65 90.
Definition is_lower : ascii -> bool := between 97 122.
Definition is_digit : ascii -> bool := between 48 57.

(** [str.isspace] on one character: TAB..CR, FS..US and the blank. *)
Definition is_space (c : ascii) : bool :=
  between 9 13 c || between 28 32 c.

Definition upper_char (c : ascii) : ascii :=
  if is_lower c then ascii_of_N (code c - 32) else c.

(** [str.upper] *)
Fixpoint upper (s : string) : string :=
  match s with
  | "" => ""
  | String c s' => String (upper_char c) (upper s')
  end.

Fixpoint existsb_char (p : ascii -> bool) (s : string) : bool :=
  match s with
  | "" => false
  | String c s' => p c || existsb_char p s'
  end.

(** [str.isupper]: no lower-case character and at least one cased one. *)
Definition isupper (s : string) : bool :=
  negb (existsb_char is_lower s) && existsb_char is_upper s.

(** [str.istitle], the loop of CPython's [unicode_istitle]. *)
Fixpoint istitle_go (s : string) (previous_is_cased cased : bool) : bool :=
  match s with
  | "" => cased
  | String c s' =>
      if is_upper c then
        if previous_is_cased then false else istitle_go s' true true
      else if is_lower c then
        if previous_is_cased then istitle_go s' true true else false
      else istitle_go s' false cased
  end.

Definition istitle (s : string) : bool := istitle_go s false false.

(** [str.startswith] *)
Fixpoint startswith (p s : string) : bool :=
  match p, s with
  | "", _ => true
  | String a p', String b s' => bool_decide (a = b) && startswith p' s'
  | String _ _, "" => false
  end.

End Text.

(** ** Regular expressions

    The patterns of the checker use character classes, concatenation,
    alternation and repetition only, so [re.match] finds a match exactly
    when some prefix of the subject belongs to the language of the
    pattern.  Membership is decided with derivatives. *)

Module Re.

Inductive regex :=
| Void
| Eps
| Cls (p : ascii -> bool)
| Cat (r1 r2 : regex)
| Alt (r1 r2 : regex)
| Star (r : regex).

Fixpoint nullable (r : regex) : bool :=
  match r with
  | Void => false
  | Eps => true
  | Cls _ => false
  | Cat r1 r2 => nullable r1 && nullable r2
  | Alt r1 r2 => nullable r1 || nullable r2
  | Star _ => true
  end.

Fixpoint deriv (c : ascii) (r : regex) : regex :=
  match r with
  | Void => Void
  | Eps => Void
  | Cls p => if p c then Eps else Void
  | Cat r1 r2 =>
      if nullable r1 then Alt (Cat (deriv c r1) r2) (deriv c r2)
      else Cat (deriv c r1) r2
  | Alt r1 r2 => Alt (deriv c r1) (deriv c r2)
  | Star r1 => Cat (deriv c r1) (Star r1)
  end.

(** The whole subject is in the language. *)
Fixpoint full (r : regex) (s : string) : bool :=
  match s with
  | "" => nullable r
  | String c s' => full (deriv c r) s'
  end.

(** Some prefix of the subject is in the language: [re.match(r, s)]
    for a pattern without a final [$]. *)
Fixpoint prefix (r : regex) (s : string) : bool :=
  nullable r ||
  match s with
  | "" => false
  | String c s' => prefix (deriv c r) s'
  end.

(** [re.match(r + '$', s)]: [$] holds at the end of the subject and
    just before a line feed that ends it. *)
Fixpoint to_end (r : regex) (s : string) : bool :=
  match s with
  | "" => nullable r
  | String c s' =>
      (nullable r && bool_decide (c = "010"%char) && bool_decide (s' = ""))
      || to_end (deriv c r) s'
  end.

Definition chr (a : ascii) : regex := Cls (fun c => bool_decide (c = a)).

(** A literal word. *)
Fixpoint lit (w : string) : regex :=
  match w with
  | "" => Eps
  | String a w' => Cat (chr a) (lit w')
  end.

Definition plus (r : regex) : regex := Cat r (Star r).
Definition opt (r : regex) : regex := Alt r Eps.

Fixpoint alts (rs : list regex) : regex :=
  match rs with
  | [] => Void
  | r :: rs' => Alt r (alts rs')
  end.

Definition upper_letter : regex := Cls Text.is_upper.
Definition digit : regex := Cls Text.is_digit.
Definition space : regex := Cls Text.is_space.
(** [.] matches anything but a line feed. *)
Definition dot : regex := Cls (fun c => negb (bool_decide (c = "010"%char))).

End Re.

(** ** Numeric conversion: Python's [int], [float] and [str] *)

Module Num.

(** The white space [int] and [float] skip at both ends of an ASCII
    text ([Py_ISSPACE]): TAB..CR and the blank.  It is narrower than
    [str.isspace], which also holds of FS..US. *)
Definition is_blank (c : ascii) : bool :=
  Text.between 9 13 c || bool_decide (c = " "%char).

Fixpoint lstrip (s : string) : string :=
  match s with
  | String c s' => if is_blank c then lstrip s' else s
  | "" => ""
  end.

Fixpoint rstrip (s : string) : string :=
  match s with
  | "" => ""
  | String c s' =>
      match rstrip s' with
      | "" => if is_blank c then "" else String c ""
      | t => String c t
      end
  end.

Definition strip (s : string) : string := rstrip (lstrip s).

Definition digit_val (c : ascii) : N := (Text.code c - 48)%N.

(** After a digit: the rest of [digit (["_"] digit)*].  Returns the
    number read, how many digits it has, and the unread text. *)
Fixpoint digits_tail (s : string) (acc : N) (cnt : nat) : N * nat * string :=
  match s with
  | String c s' =>
      if Text.is_digit c then
        digits_tail s' (acc * 10 + digit_val c)%N (S cnt)
      else if bool_decide (c = "_"%char) then
        match s' with
        | String d s'' =>
            if Text.is_digit d then
              digits_tail s'' (acc * 10 + digit_val d)%N (S cnt)
            else (acc, cnt, s)
        | "" => (acc, cnt, s)
        end
      else (acc, cnt, s)
  | "" => (acc, cnt, s)
  end.

Definition digitpart (s : string) : option (N * nat * string) :=
  match s with
  | String c s' =>
      if Text.is_digit c then Some (digits_tail s' (digit_val c) 1%nat)
      else None
  | "" => None
  end.

Definition sign (s : string) : bool * string :=
  match s with
  | String "-" s' => (true, s')
  | String "+" s' => (false, s')
  | _ => (false, s)
  end.

Definition signed (neg : bool) (n : Z) : Z := if neg then - n else n.

(** [int(s)] for a text, base ten; [None] stands for [ValueError]. *)
Definition int_of_text (s : string) : option Z :=
  let '(neg, u) := sign (strip s) in
  match digitpart u with
  | Some (n, _, "") => Some (signed neg (Z.of_N n))
  | _ => None
  end.

(** What [float(s)] denotes before rounding to binary64. *)
Inductive parsed_float :=
| PNaN
| PInf (neg : bool)
| PDec (q : Q).

Definition exponent (s : string) : option Z :=
  match s with
  | "" => Some 0
  | String c s' =>
      if bool_decide (c = "e"%char) || bool_decide (c = "E"%char) then
        let '(neg, u) := sign s' in
        match digitpart u with
        | Some (n, _, "") => Some (signed neg (Z.of_N n))
        | _ => None
        end
      else None
  end.

Definition decimal (neg : bool) (m : N) (frac_digits : nat) (e : Z) : parsed_float :=
  PDec (inject_Z (signed neg (Z.of_N m)) * Qpower 10 (e - Z.of_nat frac_digits)).

(** [pointfloat] or [exponentfloat] or a bare [digitpart]. *)
Definition float_number (neg : bool) (s : string) : option parsed_float :=
  match digitpart s with
  | Some (m, _, String "." rest) =>
      match digitpart rest with
      | Some (f, k, rest') =>
          e ← exponent rest';
          Some (decimal neg (m * 10 ^ N.of_nat k + f)%N k e)
      | None => e ← exponent rest; Some (decimal neg m 0 e)
      end
  | Some (m, _, rest) => e ← exponent rest; Some (decimal neg m 0 e)
  | None =>
      match s with
      | String "." rest =>
          match digitpart rest with
          | Some (f, k, rest') => e ← exponent rest'; Some (decimal neg f k e)
          | None => None
          end
      | _ => None
      end
  end.

Definition lower_char (c : ascii) : ascii :=
  if Text.is_upper c then ascii_of_N (Text.code c + 32) else c.

Fixpoint lower (s : string) : string :=
  match s with
  | "" => ""
  | String c s' => String (lower_char c) (lower s')
  end.

(** [float(s)] for a text; [None] stands for [ValueError]. *)
Definition float_of_text (s : string) : option parsed_float :=
  let '(neg, u) := sign (strip s) in
  let w := lower u in
  if bool_decide (w = "inf") || bool_decide (w = "infinity") then Some (PInf neg)
  else if bool_decide (w = "nan") then Some PNaN
  else float_number neg u.

Definition Qltb (x y : Q) : bool := negb (Qle_bool y x).

(** [x < 0 or x > 1e15] for the float nearest to the decimal [q].
    Rounding is to nearest, ties to even: the result is negative only
    below minus half the smallest subnormal, and exceeds [1e15] (whose
    successor is [1e15 + 1/8]) only above the midpoint of the two. *)
Definition rounded_out_of_range (q : Q) : bool :=
  Qltb q (- Qpower 2 (-1075))%Q || Qltb (inject_Z (10 ^ 15) + (1 # 16))%Q q.

(** [x < 0 or x > 1e15] for a number that already is a float. *)
Definition out_of_range (q : Q) : bool :=
  Qltb q 0 || Qltb (inject_Z (10 ^ 15)) q.

End Num.

(** [int(v)] raises [OverflowError] on an infinite float, and [float(v)]
    raises it on an integer that rounds (to nearest, ties to even)
    beyond the largest float, [2^1024 - 2^971]: from [2^1024 - 2^970]
    on.  The checks catch [ValueError] and [TypeError] only, so this
    exception leaves [check_validity]. *)
Definition int_overflows (v : value) : bool :=
  match v with VInf _ => true | _ => false end.

Definition float_overflows (v : value) : bool :=
  match v with
  | VInt z => 2 ^ 1024 - 2 ^ 970 <=? Z.abs z
  | _ => false
  end.

(** [int(v)] on a cell; [None] stands for the exception: [ValueError] or
    [TypeError], which the year check catches, and on an infinite float
    the [OverflowError] of [int_overflows].  A finite float is truncated
    towards zero. *)
Definition py_int (v : value) : option Z :=
  match v with
  | VNull => None
  | VStr s => Num.int_of_text s
  | VInt z => Some z
  | VFloat f => Some (Z.quot (Qnum (fl_val f)) (Z.pos (Qden (fl_val f))))
  | VInf _ => None
  end.

(** [float(v)] followed by the test [revenue < 0 or revenue > 1e15];
    [None] stands for [ValueError] or [TypeError].  The integers of
    [float_overflows] apart, [float] rounds an integer to a float on the
    same side of 0 and of [1e15]. *)
Definition py_float_out_of_range (v : value) : option bool :=
  match v with
  | VNull => Some false
  | VStr s =>
      match Num.float_of_text s with
      | Some Num.PNaN => Some false
      | Some (Num.PInf _) => Some true
      | Some (Num.PDec q) => Some (Num.rounded_out_of_range q)
      | None => None
      end
  | VInt z => Some (Num.out_of_range (inject_Z z))
  | VFloat f => Some (Num.out_of_range (fl_val f))
  | VInf _ => Some true
  end.

(** [str(v)] on a cell. *)
Definition py_str (v : value) : string :=
  match v with
  | VNull => "nan"
  | VStr s => s
  | VInt z => pretty z
  | VFloat f => fl_repr f
  | VInf neg => if neg then "-inf" else "inf"
  end.

(** ** The patterns of the checker *)

Module Pattern.
Import Re.

Definition company_tail (c : ascii) : bool :=
  Text.is_upper c || Text.is_space c ||
  bool_decide (c ∈ ["&"; "."; "-"; "("; ")"; ","]%char).

(** [^[A-Z][A-Z\s&\.\-\(\),]*$] *)
Definition company : regex := Cat upper_letter (Star (Cls company_tail)).

(** [^[A-Z]{3}$] *)
Definition currency : regex := Cat upper_letter (Cat upper_letter upper_letter).

Definition months : list string :=
  ["Jan"; "Feb"; "Mar"; "Apr"; "May"; "Jun";
   "Jul"; "Aug"; "Sep"; "Oct"; "Nov"; "Dec"].

(** [^\d{1,2}-(Jan|Feb|Mar|Apr|May|Jun|Jul|Aug|Sep|Oct|Nov|Dec)$] *)
Definition fiscal_period : regex :=
  Cat digit (Cat (opt digit) (Cat (chr "-") (alts (lit <$> months)))).

(** [^\d{4}\s*-\s*.+] *)
Definition industry : regex :=
  Cat digit (Cat digit (Cat digit (Cat digit
    (Cat (Star space) (Cat (chr "-") (Cat (Star space) (plus dot))))))).

End Pattern.

(** ** Data frames

    A data frame is an ordered list of column names and an ordered
    sequence of records; a record maps column names to cells, and a name
    it does not bind reads as missing. *)

Abbreviation record := (gmap string value).

Record DataFrame := mkDataFrame {
  columns : list string;
  rows : list record
}.

(** [row[c]] *)
Definition cell (r : record) (c : string) : value := default VNull (r !! c).

(** [c in df.columns] *)
Definition has_column (df : DataFrame) (c : string) : bool :=
  bool_decide (c ∈ columns df).

(** [df[name] = vals]: an existing column is overwritten where it
    stands, a new one is appended after the last column.  The values are
    given one per record. *)
Definition set_column (name : string) (vals : list value) (df : DataFrame) : DataFrame :=
  {| columns := if has_column df name then columns df else columns df ++ [name];
     rows := zip_with (λ r v, <[name := v]> r) (rows df) vals |}.

(** [df[name]] as a list of cells. *)
Definition column (name : string) (df : DataFrame) : list value :=
  (λ r, cell r name) <$> rows df.

(** [mask.astype(int)] *)
Definition int_of_bool (b : bool) : Z := if b then 1 else 0.

(** [df[cols].isnull().any(axis=1)] *)
Definition any_null (cols : list string) (df : DataFrame) : list bool :=
  (λ r, existsb (λ c, isnull (cell r c)) cols) <$> rows df.

(** [mask.sum()] *)
Definition count_true (mask : list bool) : Z :=
  Z.of_nat (length (filter (λ b, b = true) mask)).

(** The key of a record under a list of columns, and equality of keys. *)
Definition key_of (cols : list string) (r : record) : list value :=
  cell r <$> cols.

Fixpoint key_eqb (k1 k2 : list value) : bool :=
  match k1, k2 with
  | [], [] => true
  | a :: k1', b :: k2' => value_eqb a b && key_eqb k1' k2'
  | _, _ => false
  end.

(** The marks of [keep=False]: a record is marked when its key occurs
    more than once among the records (itself included). *)
Definition key_repeated (cols : list string) (df : DataFrame) : list bool :=
  (λ r, bool_decide
          (1 < length (filter (λ r', key_eqb (key_of cols r) (key_of cols r') = true)
                              (rows df)))%nat)
    <$> rows df.

(** [df.empty]: no record or no column. *)
Definition is_empty (df : DataFrame) : bool :=
  bool_decide (rows df = []) || bool_decide (columns df = []).

(** [df[name] = series] aligns the series with the records: a record
    the series has no entry for gets a missing value. *)
Definition reindex (df : DataFrame) (series : list value) : list value :=
  (λ i, default VNull (series !! i)) <$> seq 0 (length (rows df)).

(** [max] of the numeric cells of one row, missing cells skipped
    ([DataFrame.max(axis=1)]); a text cell cannot be compared with a
    number, which pandas reports as a [TypeError] ([None] here). *)
Definition max_cell (a b : value) : option value :=
  match a, b with
  | VStr _, _ | _, VStr _ => None
  | VNull, _ => Some b
  | _, VNull => Some a
  | VInf false, _ | _, VInf false => Some (VInf false)
  | VInf true, v | v, VInf true => Some v
  | _, _ =>
      match num_of a, num_of b with
      | Some x, Some y => Some (if Qle_bool x y then b else a)
      | _, _ => None
      end
  end.

Fixpoint row_max (vs : list value) : option value :=
  match vs with
  | [] => Some VNull
  | v :: vs' => m ← row_max vs'; max_cell v m
  end.

(** ** The checker: state, exceptions and the four evaluators *)

(** A Python float as the summary stores it. *)
Inductive pyfloat :=
| Fin (q : Q)
| NaN
| Inf (neg : bool).

(** [numpy.int64 / int]: division by zero yields [nan] or an infinity. *)
Definition np_divide (n d : Z) : pyfloat :=
  if Z.eqb d 0 then
    if Z.eqb n 0 then NaN else Inf (Z.ltb n 0)
  else Fin (inject_Z n / inject_Z d).

Definition fmul (x : pyfloat) (k : Q) : pyfloat :=
  match x with
  | Fin q => Fin (q * k)
  | other => other
  end.

(** What each evaluator says it looked at. *)
Inductive description :=
| MissingValuesIn (cols : list string)
| InconsistentFormatting
| InvalidData
| DuplicatesOn (cols : list string).

Record measure := mkMeasure {
  total_issues : Z;
  percentage : pyfloat;
  descr : description
}.

Inductive pyerror := ZeroDivisionError | TypeError | ValueError | OverflowError.

(** The attribute [self.quality_issues]. *)
Abbreviation issues := (gmap string measure).

Inductive outcome (A : Type) :=
| Raise (e : pyerror)
| Return (a : A) (s : issues).
Arguments Raise {A} e.
Arguments Return {A} a s.

(** A method of the checker: it reads and updates [self.quality_issues]
    and either returns or raises. *)
Definition method (A : Type) : Type := issues → outcome A.

Definition ret {A} (a : A) : method A := λ s, Return a s.
Definition raise {A} (e : pyerror) : method A := λ _, Raise e.
Definition bind {A B} (m : method A) (k : A → method B) : method B :=
  λ s, match m s with
       | Raise e => Raise e
       | Return a s' => k a s'
       end.
Definition record_issue (dim : string) (m : measure) : method unit :=
  λ s, Return () (<[dim := m]> s).

#[global] Instance method_ret : MRet method := @ret.
#[global] Instance method_bind : MBind method := λ A B k m, bind m k.

(** [int / int] in Python. *)
Definition py_divide (n d : Z) : method Q :=
  if Z.eqb d 0 then raise ZeroDivisionError else ret (inject_Z n / inject_Z d)%Q.

(** [df.duplicated(subset=cols, keep=False)] for columns [cols] of the
    frame.  An empty frame gives the empty series; on any other frame an
    empty [cols] makes pandas raise [ValueError] (it unpacks the
    factorised key columns, of which there are none). *)
Definition duplicated (cols : list string) (df : DataFrame) : method (list bool) :=
  if is_empty df then mret []
  else if bool_decide (cols = []) then raise ValueError
  else mret (key_repeated cols df).

Definition critical_columns : list string :=
  ["timevalue"; "providerkey"; "companynameofficial";
   "fiscalperiodend"; "operationstatustype"; "ipostatustype";
   "geonameen"; "industrycode"; "REVENUE"; "unit_REVENUE"].

Definition key_columns : list string :=
  ["providerkey"; "timevalue"; "fiscalperiodend"].

(** The columns [check_completeness] inspects. *)
Definition completeness_columns (df : DataFrame) : list string :=
  let existing_critical := filter (λ c, c ∈ columns df) critical_columns in
  match existing_critical with
  | [] => take (Nat.min 4 (length (columns df))) (columns df)
  | _ => existing_critical
  end.

(** The count [missing_mask.sum()] is a numpy integer, so the percentage
    is computed by numpy's division. *)
Definition check_completeness (df : DataFrame) : method DataFrame :=
  let existing_critical := completeness_columns df in
  let missing_mask := any_null existing_critical df in
  let df' := set_column "flag_completeness" (VInt ∘ int_of_bool <$> missing_mask) df in
  let issues_count := count_true missing_mask in
  record_issue "completeness"
    {| total_issues := issues_count;
       percentage := fmul (np_divide issues_count (Z.of_nat (length (rows df')))) 100;
       descr := MissingValuesIn existing_critical |};;
  mret df'.

(** The body of the loop of [check_consistency]: each block receives the
    flag as the blocks before it left it. *)
Section consistency_row.
Context (df : DataFrame) (row : record).

Definition company_block (flag : Z) : Z :=
  if has_column df "companynameofficial" && notna (cell row "companynameofficial") then
    let company_name := py_str (cell row "companynameofficial") in
    if negb (Text.isupper company_name || Text.istitle company_name) then
      if negb (Re.to_end Pattern.company company_name) then 1 else flag
    else flag
  else flag.

Definition status_block (flag : Z) : Z :=
  if has_column df "operationstatustype" && notna (cell row "operationstatustype") then
    let status := Text.upper (py_str (cell row "operationstatustype")) in
    if bool_decide (status ∉ ["ACTIVE"; "INACTIVE"; "DORMANT"; "LIQUIDATION"])
    then 1 else flag
  else flag.

Definition ipo_block (flag : Z) : Z :=
  if has_column df "ipostatustype" && notna (cell row "ipostatustype") then
    let ipo_status := Text.upper (py_str (cell row "ipostatustype")) in
    if bool_decide (ipo_status ∉ ["PUBLIC"; "PRIVATE"; "SUBSIDIARY"])
    then 1 else flag
  else flag.

Definition currency_block (flag : Z) : Z :=
  if has_column df "unit_REVENUE" && notna (cell row "unit_REVENUE") then
    let currency := Text.upper (py_str (cell row "unit_REVENUE")) in
    if negb (Re.to_end Pattern.currency currency) then 1 else flag
  else flag.

Definition consistency_row : Z :=
  currency_block (ipo_block (status_block (company_block 0))).
End consistency_row.

(** [sum(flags)] *)
Definition sum_flags (flags : list Z) : Z := foldr Z.add 0 flags.

(** The count is a Python [int] here, so the percentage is computed by
    Python's own division, which raises on a frame without records. *)
Definition check_consistency (df : DataFrame) : method DataFrame :=
  let consistency_flags := consistency_row df <$> rows df in
  let df' := set_column "flag_consistency" (VInt <$> consistency_flags) df in
  let issues_count := sum_flags consistency_flags in
  ratio ← py_divide issues_count (Z.of_nat (length (rows df')));
  record_issue "consistency"
    {| total_issues := issues_count;
       percentage := Fin (ratio * 100);
       descr := InconsistentFormatting |};;
  mret df'.

(** The body of the loop of [check_validity].  A conversion that raises
    [OverflowError] is not caught by [except (ValueError, TypeError)]:
    [year_raises] and [revenue_raises] tell when the body raises it, and
    the blocks give the flag of a record for which it does not. *)
Section validity_row.
Context (df : DataFrame) (row : record).

Definition year_raises : bool :=
  has_column df "timevalue" && notna (cell row "timevalue") &&
  int_overflows (cell row "timevalue").

Definition revenue_raises : bool :=
  has_column df "REVENUE" && notna (cell row "REVENUE") &&
  float_overflows (cell row "REVENUE").

Definition validity_raises : bool := year_raises || revenue_raises.

Definition year_block (flag : Z) : Z :=
  if has_column df "timevalue" && notna (cell row "timevalue") then
    match py_int (cell row "timevalue") with
    | Some year => if negb ((1900 <=? year) && (year <=? 2030)) then 1 else flag
    | None => 1
    end
  else flag.

Definition revenue_block (flag : Z) : Z :=
  if has_column df "REVENUE" && notna (cell row "REVENUE") then
    match py_float_out_of_range (cell row "REVENUE") with
    | Some out => if out then 1 else flag
    | None => 1
    end
  else flag.

Definition fiscal_block (flag : Z) : Z :=
  if has_column df "fiscalperiodend" && notna (cell row "fiscalperiodend") then
    let fiscal_date := py_str (cell row "fiscalperiodend") in
    if negb (Re.to_end Pattern.fiscal_period fiscal_date) then 1 else flag
  else flag.

Definition industry_block (flag : Z) : Z :=
  if has_column df "industrycode" && notna (cell row "industrycode") then
    let industry := py_str (cell row "industrycode") in
    if negb (Re.prefix Pattern.industry industry) then 1 else flag
  else flag.

Definition validity_row : Z :=
  industry_block (fiscal_block (revenue_block (year_block 0))).
End validity_row.

Definition check_validity (df : DataFrame) : method DataFrame :=
  if existsb (validity_raises df) (rows df) then raise OverflowError else
  let validity_flags := validity_row df <$> rows df in
  let df' := set_column "flag_validity" (VInt <$> validity_flags) df in
  let issues_count := sum_flags validity_flags in
  ratio ← py_divide issues_count (Z.of_nat (length (rows df')));
  record_issue "validity"
    {| total_issues := issues_count;
       percentage := Fin (ratio * 100);
       descr := InvalidData |};;
  mret df'.

Definition is_flag_column (c : string) : bool := Text.startswith "flag_" c.

(** The columns [check_uniqueness] compares. *)
Definition uniqueness_columns (df : DataFrame) : list string :=
  let existing_key_columns := filter (λ c, c ∈ columns df) key_columns in
  match existing_key_columns with
  | [] => filter (λ c, is_flag_column c = false) (columns df)
  | _ => existing_key_columns
  end.

Definition check_uniqueness (df : DataFrame) : method DataFrame :=
  let existing_key_columns := uniqueness_columns df in
  duplicate_mask ← duplicated existing_key_columns df;
  let df' := set_column "flag_uniqueness"
               (reindex df (VInt ∘ int_of_bool <$> duplicate_mask)) df in
  let issues_count := count_true duplicate_mask in
  record_issue "uniqueness"
    {| total_issues := issues_count;
       percentage := fmul (np_divide issues_count (Z.of_nat (length (rows df')))) 100;
       descr := DuplicatesOn existing_key_columns |};;
  mret df'.

(** The four evaluators in the order [run_all_checks] calls them. *)
Definition run_evaluators (df : DataFrame) : method DataFrame :=
  df ← check_completeness df;
  df ← check_consistency df;
  df ← check_validity df;
  check_uniqueness df.

(** [df[flag_columns].max(axis=1)] *)
Definition flag_max (df : DataFrame) : option (list value) :=
  let flag_columns := filter (λ c, is_flag_column c = true) (columns df) in
  mapM (λ r, row_max (cell r <$> flag_columns)) (rows df).

Definition run_all_checks (df : DataFrame) : method DataFrame :=
  df ← run_evaluators df;
  match flag_max df with
  | Some overall => mret (set_column "flag_overall" overall df)
  | None => raise TypeError
  end.

(** ** The summary *)

Record summary := mkSummary {
  total_records : Z;
  quality_measures : issues;
  overall_quality_score : Q;
  dataset_columns : list string
}.

(** [max(0, x)] *)
Definition max0 (x : Q) : Q := if Num.Qltb 0 x then x else 0%Q.

(** [sum(measure.get('total_issues', 0) for measure in ...values())] *)
Definition sum_total_issues (s : issues) : Z :=
  map_fold (λ _ m acc, total_issues m + acc) 0 s.

Definition generate_quality_summary (df : DataFrame) : method summary :=
  λ s,
    let total_issues := sum_total_issues s in
    let total_possible_issues := Z.of_nat (length (rows df)) * Z.of_nat (size s) in
    let score :=
      if 0 <? total_possible_issues
      then max0 (100 - (inject_Z total_issues / inject_Z total_possible_issues * 100))%Q
      else 0%Q in
    Return {| total_records := Z.of_nat (length (rows df));
              quality_measures := s;
              overall_quality_score := score;
              dataset_columns := columns df |} s.

(** ** Vocabulary of the properties *)

(** The flag the completeness and uniqueness evaluators give a record. *)
Definition completeness_row (df : DataFrame) (r : record) : Z :=
  int_of_bool (existsb (λ c, isnull (cell r c)) (completeness_columns df)).

Definition uniqueness_row (df : DataFrame) (r : record) : Z :=
  int_of_bool (bool_decide
    (1 < length (filter (λ r', key_eqb (key_of (uniqueness_columns df) r)
                                       (key_of (uniqueness_columns df) r') = true)
                        (rows df)))%nat).

(** A frame after a column computed record by record has been assigned. *)
Definition with_flag (name : string) (f : record → Z) (df : DataFrame) : DataFrame :=
  {| columns := if has_column df name then columns df else columns df ++ [name];
     rows := (λ r, <[name := VInt (f r)]> r) <$> rows df |}.

(** The same for a column of cells of any kind. *)
Definition with_column (name : string) (g : record → value) (df : DataFrame) : DataFrame :=
  {| columns := if has_column df name then columns df else columns df ++ [name];
     rows := (λ r, <[name := g r]> r) <$> rows df |}.

(** The frame after each of the four evaluators of one run. *)
Definition after_completeness (df : DataFrame) : DataFrame :=
  with_flag "flag_completeness" (completeness_row df) df.
Definition after_consistency (df : DataFrame) : DataFrame :=
  let df1 := after_completeness df in
  with_flag "flag_consistency" (consistency_row df1) df1.
Definition after_validity (df : DataFrame) : DataFrame :=
  let df2 := after_consistency df in
  with_flag "flag_validity" (validity_row df2) df2.
Definition after_uniqueness (df : DataFrame) : DataFrame :=
  let df3 := after_validity df in
  with_flag "flag_uniqueness" (uniqueness_row df3) df3.

(** One record after the four evaluators of one run. *)
Definition annotate1 (df : DataFrame) (r : record) : record :=
  <["flag_completeness" := VInt (completeness_row df r)]> r.
Definition annotate2 (df : DataFrame) (r : record) : record :=
  let r1 := annotate1 df r in
  <["flag_consistency" := VInt (consistency_row (after_completeness df) r1)]> r1.
Definition annotate3 (df : DataFrame) (r : record) : record :=
  let r2 := annotate2 df r in
  <["flag_validity" := VInt (validity_row (after_consistency df) r2)]> r2.
Definition annotate_row (df : DataFrame) (r : record) : record :=
  let r3 := annotate3 df r in
  <["flag_uniqueness" := VInt (uniqueness_row (after_validity df) r3)]> r3.
(** The frames the four evaluators go through without raising: there is
    a record, no record makes the validity checks overflow, and the
    uniqueness check finds a column to compare. *)
Definition evaluators_pass (df : DataFrame) : Prop :=
  rows df ≠ [] ∧
  existsb (validity_raises (after_consistency df)) (rows (after_consistency df)) = false ∧
  uniqueness_columns (after_validity df) ≠ [].

(** The columns [run_all_checks] takes the maximum over. *)
Definition flag_columns_of (df : DataFrame) : list string :=
  filter (λ c, is_flag_column c = true) (columns (after_uniqueness df)).

(** The four entries one run leaves in [self.quality_issues]. *)
Definition four_measures (mc mk mv mu : measure) (s : issues) : issues :=
  <["uniqueness" := mu]> (<["validity" := mv]>
    (<["consistency" := mk]> (<["completeness" := mc]> s))).

Definition dimensions : list string :=
  ["completeness"; "consistency"; "validity"; "uniqueness"].

Definition dimension_flags : list string :=
  ["flag_completeness"; "flag_consistency"; "flag_validity"; "flag_uniqueness"].

(** Two records, or two frames, that agree on every column other than
    the four dimension flags. *)
Definition same_raw_cells (r r' : record) : Prop :=
  ∀ c, c ∉ dimension_flags → cell r c = cell r' c.
Definition same_raw_columns (df df' : DataFrame) : Prop :=
  ∀ c, c ∉ dimension_flags → has_column df c = has_column df' c.

(** Two records carry the same key under [cols]. *)
Definition same_key (cols : list string) (r1 r2 : record) : Prop :=
  ∀ c, c ∈ cols → value_eqb (cell r1 c) (cell r2 c) = true.



(** A cell holding 0 or 1. *)
Definition is_bit (v : value) : Prop := v = VInt 0 ∨ v = VInt 1.




(** The evaluators with the column each one writes. *)
Definition evaluators : list ((DataFrame → method DataFrame) * string) :=
  [(check_completeness, "flag_completeness");
   (check_consistency, "flag_consistency");
   (check_validity, "flag_validity");
   (check_uniqueness, "flag_uniqueness")].

(** "Every column the frame had is unchanged and the flag column is
    appended at the end", for one call. *)
Definition appends_only (flag : string) (df df' : DataFrame) : Prop :=
  columns df' = (columns df ++ [flag])%list ∧
  ∀ c, c ∈ columns df → column c df' = column c df.

(** *** What [int] reads

    The texts [int] converts, in the words of the language reference: an
    optional sign and decimal digits, where single underscores may stand
    between digits, with white space allowed at both ends. *)

(** TAB, LF, VT, FF, CR and the blank. *)
Definition blank_chars : list ascii :=
  ["009"; "010"; "011"; "012"; "013"; " "]%char.

Inductive blank_text : string → Prop :=
| blank_nil : blank_text ""
| blank_cons (c : ascii) (s : string) :
    c ∈ blank_chars → blank_text s → blank_text (String c s).

(** The character of the digit [k]. *)
Definition digit_char (k : N) : ascii := ascii_of_N (48 + k).

(** [decimal_text s n]: [s] is a digit followed by digits, each possibly
    after one underscore, and denotes [n] in base ten. *)
Inductive decimal_text : string → N → Prop :=
| decimal_one (k : N) :
    (k < 10)%N → decimal_text (String (digit_char k) "") k
| decimal_next (s : string) (n k : N) :
    decimal_text s n → (k < 10)%N →
    decimal_text (s +:+ String (digit_char k) "") (n * 10 + k)
| decimal_underscore (s : string) (n k : N) :
    decimal_text s n → (k < 10)%N →
    decimal_text (s +:+ String "_" (String (digit_char k) "")) (n * 10 + k).

Inductive int_text : string → Z → Prop :=
| int_unsigned (ws1 body ws2 : string) (n : N) :
    blank_text ws1 → decimal_text body n → blank_text ws2 →
    int_text (ws1 +:+ body +:+ ws2) (Z.of_N n)
| int_plus (ws1 body ws2 : string) (n : N) :
    blank_text ws1 → decimal_text body n → blank_text ws2 →
    int_text (ws1 +:+ "+" +:+ body +:+ ws2) (Z.of_N n)
| int_minus (ws1 body ws2 : string) (n : N) :
    blank_text ws1 → decimal_text body n → blank_text ws2 →
    int_text (ws1 +:+ "-" +:+ body +:+ ws2) (- Z.of_N n).

(** [z] is [q] without its fraction: the integer next to [q] on the
    side of 0. *)
Definition truncated (q : Q) (z : Z) : Prop :=
  ((0 <= q)%Q → (inject_Z z <= q)%Q ∧ (q < inject_Z z + 1)%Q) ∧
  ((q <= 0)%Q → (inject_Z z - 1 < q)%Q ∧ (q <= inject_Z z)%Q).

(** [int(v)] converts the cell [v] to [z]: an integer is itself, a
    finite float loses its fraction, a text is read as above; a missing
    value and an infinity convert to nothing. *)
Inductive reads_as_integer : value → Z → Prop :=
| reads_int (z : Z) : reads_as_integer (VInt z) z
| reads_float (f : float64) (z : Z) :
    truncated (fl_val f) z → reads_as_integer (VFloat f) z
| reads_text (t : string) (z : Z) : int_text t z → reads_as_integer (VStr t) z.

(** The year of a cell does not parse as an integer, or parses to an
    integer outside 1900..2030. *)
Definition year_invalid (v : value) : Prop :=
  (∀ y, ¬ reads_as_integer v y) ∨ ∃ y, reads_as_integer v y ∧ (y < 1900 ∨ 2030 < y).

(** A record on which the conversions of [check_validity] overflow: its
    year is an infinite float, or its revenue is an integer beyond the
    largest float. *)
Definition overflows (df : DataFrame) (r : record) : Prop :=
  ("timevalue" ∈ columns df ∧ ∃ neg, cell r "timevalue" = VInf neg) ∨
  ("REVENUE" ∈ columns df ∧
   ∃ z, cell r "REVENUE" = VInt z ∧ 2 ^ 1024 - 2 ^ 970 ≤ Z.abs z).



(** Sample frames used to exercise the statements. *)
Definition record_of (l : list (string * value)) : record := list_to_map l.

(** One record with a lower-case currency code. *)
Definition lowercase_frame : DataFrame :=
  {| columns := ["unit_REVENUE"];
     rows := [record_of [("unit_REVENUE", VStr "usd")]] |}.

(** A clean record that still carries the [flag_overall] of an earlier
    run. *)
Definition stale_overall_frame : DataFrame :=
  {| columns := ["timevalue"; "flag_overall"];
     rows := [record_of [("timevalue", VInt 2019); ("flag_overall", VInt 1)]] |}.

(** A data set without critical columns whose [flag_completeness]
    column has not been filled in yet. *)
Definition blank_flag_frame : DataFrame :=
  {| columns := ["note"; "flag_completeness"];
     rows := [record_of [("note", VStr "x"); ("flag_completeness", VNull)]] |}.

(** A clean record with a column of the user's own named [flag_...]. *)
Definition priority_frame : DataFrame :=
  {| columns := ["timevalue"; "flag_priority"];
     rows := [record_of [("timevalue", VInt 2019); ("flag_priority", VInt 3)]] |}.

(** Two records alike, in a data set whose only column is a flag. *)
Definition flags_only_frame : DataFrame :=
  {| columns := ["flag_x"];
     rows := [record_of [("flag_x", VInt 0)]; record_of [("flag_x", VInt 0)]] |}.

(** One record with nothing but a year. *)
Definition year_frame (v : value) : DataFrame :=
  {| columns := ["timevalue"]; rows := [record_of [("timevalue", v)]] |}.

(** Three records, the first and the last alike. *)
Definition sample : DataFrame :=
  {| columns := ["timevalue"; "providerkey"; "unit_REVENUE"; "REVENUE"];
     rows := [record_of [("timevalue", VInt 2019); ("providerkey", VInt 1);
                         ("unit_REVENUE", VStr "USD");
                         ("REVENUE", VFloat (Float64 (3 # 2) "1.5"))];
              record_of [("timevalue", VInt 1850); ("providerkey", VInt 1);
                         ("unit_REVENUE", VStr "USD")];
              record_of [("timevalue", VInt 2019); ("providerkey", VInt 1);
                         ("unit_REVENUE", VStr "USD");
                         ("REVENUE", VFloat (Float64 (3 # 2) "1.5"))]] |}.

Definition outcome_frame (o : outcome DataFrame) : DataFrame :=
  match o with Return df _ => df | Raise _ => {| columns := []; rows := [] |} end.
Definition outcome_issues {A} (o : outcome A) : issues :=
  match o with Return _ s => s | Raise _ => ∅ end.

Definition sample_checked : DataFrame := outcome_frame (run_all_checks sample ∅).
Definition sample_issues : issues := outcome_issues (run_all_checks sample ∅).
Definition sample_checked_row : record := default ∅ (rows sample_checked !! 1%nat).

(** A frame that kept the [flag_completeness] column of an earlier run
    in the middle of its columns. *)
Definition stale_frame : DataFrame :=
  {| columns := ["timevalue"; "flag_completeness"; "REVENUE"];
     rows := [record_of [("timevalue", VInt 2019); ("flag_completeness", VInt 1);
                         ("REVENUE", VInt 5)]] |}.

(** ** Vocabulary of the further properties *)

Definition is_flagged (v : value) : bool :=
  match v with VInt 1 => true | _ => false end.

Definition count_flagged (flag : string) (df : DataFrame) : Z :=
  count_true (is_flagged <$> column flag df).

Definition dimension_table : list (string * string) :=
  [("completeness", "flag_completeness"); ("consistency", "flag_consistency");
   ("validity", "flag_validity"); ("uniqueness", "flag_uniqueness")].

Definition completeness_measure (df : DataFrame) : measure :=
  {| total_issues := count_true (any_null (completeness_columns df) df);
     percentage :=
       fmul (np_divide (count_true (any_null (completeness_columns df) df))
                       (Z.of_nat (length (rows df)))) 100;
     descr := MissingValuesIn (completeness_columns df) |}.

Definition consistency_measure (df : DataFrame) : measure :=
  {| total_issues := sum_flags (consistency_row df <$> rows df);
     percentage :=
       Fin (inject_Z (sum_flags (consistency_row df <$> rows df))
            / inject_Z (Z.of_nat (length (rows df))) * 100);
     descr := InconsistentFormatting |}.

Definition validity_measure (df : DataFrame) : measure :=
  {| total_issues := sum_flags (validity_row df <$> rows df);
     percentage :=
       Fin (inject_Z (sum_flags (validity_row df <$> rows df))
            / inject_Z (Z.of_nat (length (rows df))) * 100);
     descr := InvalidData |}.

Definition uniqueness_measure (df : DataFrame) : measure :=
  {| total_issues := count_true (key_repeated (uniqueness_columns df) df);
     percentage :=
       fmul (np_divide (count_true (key_repeated (uniqueness_columns df) df))
                       (Z.of_nat (length (rows df)))) 100;
     descr := DuplicatesOn (uniqueness_columns df) |}.

Definition run_measures (df : DataFrame) (s : issues) : issues :=
  four_measures (completeness_measure df)
                (consistency_measure (after_completeness df))
                (validity_measure (after_consistency df))
                (uniqueness_measure (after_validity df)) s.

Definition consistency_inputs : list string :=
  ["companynameofficial"; "operationstatustype"; "ipostatustype"; "unit_REVENUE"].
Definition validity_inputs : list string :=
  ["timevalue"; "REVENUE"; "fiscalperiodend"; "industrycode"].

(** The cell is not there to be checked: no such column, or no value. *)
Definition unavailable (df : DataFrame) (r : record) (c : string) : Prop :=
  c ∉ columns df ∨ cell r c = VNull.

Definition written_flags : list string := dimension_flags ++ ["flag_overall"].


(** The issues of one run, all dimensions together. *)
Definition run_total (df : DataFrame) : Z :=
  total_issues (completeness_measure df)
  + total_issues (consistency_measure (after_completeness df))
  + total_issues (validity_measure (after_consistency df))
  + total_issues (uniqueness_measure (after_validity df)).

(** The language of a pattern. *)
Inductive matches : Re.regex → string → Prop :=
| matches_eps : matches Re.Eps ""
| matches_cls p c : p c = true → matches (Re.Cls p) (String c "")
| matches_cat r1 r2 s1 s2 :
    matches r1 s1 → matches r2 s2 → matches (Re.Cat r1 r2) (s1 +:+ s2)
| matches_alt_l r1 r2 s : matches r1 s → matches (Re.Alt r1 r2) s
| matches_alt_r r1 r2 s : matches r2 s → matches (Re.Alt r1 r2) s
| matches_star_nil r : matches (Re.Star r) ""
| matches_star_cons r s1 s2 :
    matches r s1 → matches (Re.Star r) s2 → matches (Re.Star r) (s1 +:+ s2).

(** One or two decimal digits. *)
Definition day_digits (d : string) : Prop :=
  ∃ a, Text.is_digit a = true ∧
       (d = String a "" ∨ ∃ b, Text.is_digit b = true ∧ d = String a (String b "")).

(** The texts the fiscal-period pattern accepts: a day of one or two
    digits, a hyphen, a month abbreviation, and possibly one closing
    line feed. *)
Definition fiscal_text (t : string) : Prop :=
  ∃ day month, day_digits day ∧ month ∈ Pattern.months ∧
    (t = day +:+ "-" +:+ month ∨ t = day +:+ "-" +:+ month +:+ String "010" "").

Definition not_space (c : ascii) : bool := negb (Text.is_space c).
Definition not_line_feed (c : ascii) : bool := negb (bool_decide (c = "010"%char)).

(** The texts the industry-code pattern accepts: four digits, any
    white space, a hyphen, and a rest in which some character is not a
    line feed. *)
Definition industry_text (t : string) : Prop :=
  ∃ a b c d ws rest,
    Text.is_digit a = true ∧ Text.is_digit b = true ∧
    Text.is_digit c = true ∧ Text.is_digit d = true ∧
    Text.existsb_char not_space ws = false ∧
    Text.existsb_char not_line_feed rest = true ∧
    t = String a (String b (String c (String d ""))) +:+ ws +:+ "-" +:+ rest.

(** * Properties *)

(** ** The primitives on sample inputs *)

Example int_of_text_ex :
  Num.int_of_text " 2019 " = Some 2019 ∧ Num.int_of_text "1_850" = Some 1850 ∧
  Num.int_of_text "-7" = Some (-7) ∧ Num.int_of_text "20.5" = None ∧
  Num.int_of_text "" = None ∧ Num.int_of_text "1__0" = None.
Proof. vm_compute. done. Qed.

Example float_of_text_ex :
  py_float_out_of_range (VStr "-5") = Some true ∧
  py_float_out_of_range (VStr "1000000") = Some false ∧
  py_float_out_of_range (VStr "1e15") = Some false ∧
  py_float_out_of_range (VStr "1.5e15") = Some true ∧
  py_float_out_of_range (VStr ".5") = Some false ∧
  py_float_out_of_range (VStr "5.") = Some false ∧
  py_float_out_of_range (VStr "-Infinity") = Some true ∧
  py_float_out_of_range (VStr "NaN") = Some false ∧
  py_float_out_of_range (VStr "12abc") = None ∧
  py_float_out_of_range (VStr "-1e-400") = Some false.
Proof. vm_compute. done. Qed.

Example pattern_ex :
  Re.to_end Pattern.company "ACME CORP" = true ∧
  Re.to_end Pattern.company "acme corp!" = false ∧
  Re.to_end Pattern.currency "USD" = true ∧
  Re.to_end Pattern.currency "USDX" = false ∧
  Re.to_end Pattern.fiscal_period "30-Jun" = true ∧
  Re.to_end Pattern.fiscal_period "June 30" = false ∧
  Re.to_end Pattern.fiscal_period "130-Jun" = false ∧
  Re.prefix Pattern.industry "7010 - Description" = true ∧
  Re.prefix Pattern.industry "7010-x and more" = true ∧
  Re.prefix Pattern.industry "701 - Description" = false ∧
  Re.prefix Pattern.industry "7010 -" = false.
Proof. vm_compute. done. Qed.

Example py_str_ex : py_str (VInt (-42)) = "-42" ∧ py_str (VInt 2019) = "2019".
Proof. vm_compute. done. Qed.

(** The consistency checks of the specification on single cells. *)
Example consistency_examples :
  consistency_row {| columns := ["companynameofficial"]; rows := [] |}
    (record_of [("companynameofficial", VStr "ACME CORP")]) = 0 ∧
  consistency_row {| columns := ["companynameofficial"]; rows := [] |}
    (record_of [("companynameofficial", VStr "Acme Corp")]) = 0 ∧
  consistency_row {| columns := ["companynameofficial"]; rows := [] |}
    (record_of [("companynameofficial", VStr "acme corp!")]) = 1 ∧
  consistency_row {| columns := ["operationstatustype"]; rows := [] |}
    (record_of [("operationstatustype", VStr "Active")]) = 0 ∧
  consistency_row {| columns := ["operationstatustype"]; rows := [] |}
    (record_of [("operationstatustype", VStr "Closed")]) = 1 ∧
  consistency_row {| columns := ["operationstatustype"]; rows := [] |}
    (record_of [("operationstatustype", VNull)]) = 0.
Proof. vm_compute. done. Qed.

Section frame_lemmas.
Implicit Types (df : DataFrame) (r : record) (name c : string).

Lemma zip_with_fmap_same {A B C} (h : A → B → C) (g : A → B) (l : list A) :
  zip_with h l (g <$> l) = (λ a, h a (g a)) <$> l.
Proof. induction l as [|a l IH]; csimpl; [done | by f_equal]. Qed.

Lemma set_column_fmap name (g : record → value) df :
  set_column name (g <$> rows df) df =
  {| columns := if has_column df name then columns df else columns df ++ [name];
     rows := (λ r, <[name := g r]> r) <$> rows df |}.
Proof. unfold set_column. f_equal. apply zip_with_fmap_same. Qed.

Lemma set_column_with_flag name (f : record → Z) df :
  set_column name (VInt <$> (f <$> rows df)) df = with_flag name f df.
Proof. rewrite <- list_fmap_compose. apply set_column_fmap. Qed.

Lemma rows_with_flag name f df :
  rows (with_flag name f df) = (λ r, <[name := VInt (f r)]> r) <$> rows df.
Proof. done. Qed.

Lemma length_with_flag name f df :
  length (rows (with_flag name f df)) = length (rows df).
Proof. simpl. apply length_fmap. Qed.

Lemma cell_insert_eq r name v : cell (<[name := v]> r) name = v.
Proof. unfold cell. by rewrite lookup_insert_eq. Qed.

Lemma cell_insert_ne r name c v : name ≠ c → cell (<[name := v]> r) c = cell r c.
Proof. intros. unfold cell. by rewrite lookup_insert_ne. Qed.

Lemma elem_of_columns_with_flag name f df c :
  c ∈ columns (with_flag name f df) ↔ c ∈ columns df ∨ c = name.
Proof.
  simpl. unfold has_column. case_bool_decide as Hin.
  - split; [by left | intros [?| ->]; done].
  - rewrite elem_of_app, list_elem_of_singleton. done.
Qed.

Lemma has_column_with_flag name f df c :
  c ≠ name → has_column (with_flag name f df) c = has_column df c.
Proof.
  intros Hne. unfold has_column. apply bool_decide_ext.
  rewrite elem_of_columns_with_flag. split; [intros [?| ->]; done | by left].
Qed.
End frame_lemmas.

(** ** What each evaluator returns *)

Section evaluator_equations.
Implicit Types (df : DataFrame) (s : issues).

Lemma check_completeness_eq df s :
  check_completeness df s =
  Return (with_flag "flag_completeness" (completeness_row df) df)
         (<["completeness" :=
             {| total_issues := count_true (any_null (completeness_columns df) df);
                percentage :=
                  fmul (np_divide (count_true (any_null (completeness_columns df) df))
                                  (Z.of_nat (length (rows df)))) 100;
                descr := MissingValuesIn (completeness_columns df) |}]> s).
Proof.
  unfold check_completeness, any_null.
  rewrite <- list_fmap_compose, set_column_fmap.
  unfold mbind, method_bind, bind, record_issue, mret, method_ret, ret. simpl.
  rewrite length_fmap. done.
Qed.

Lemma py_divide_nonzero n d s :
  d ≠ 0 → py_divide n d s = Return (inject_Z n / inject_Z d)%Q s.
Proof. intros Hd. unfold py_divide. by destruct (Z.eqb_spec d 0). Qed.

Lemma rows_nonempty_length df : rows df ≠ [] → Z.of_nat (length (rows df)) ≠ 0.
Proof. destruct (rows df); [done | simpl; lia]. Qed.

Lemma check_consistency_eq df s :
  rows df ≠ [] →
  check_consistency df s =
  Return (with_flag "flag_consistency" (consistency_row df) df)
         (<["consistency" :=
             {| total_issues := sum_flags (consistency_row df <$> rows df);
                percentage :=
                  Fin (inject_Z (sum_flags (consistency_row df <$> rows df))
                       / inject_Z (Z.of_nat (length (rows df))) * 100);
                descr := InconsistentFormatting |}]> s).
Proof.
  intros Hne. unfold check_consistency.
  rewrite set_column_with_flag, length_with_flag.
  unfold mbind, method_bind, bind.
  rewrite py_divide_nonzero by by apply rows_nonempty_length.
  done.
Qed.

Lemma check_consistency_empty df s :
  rows df = [] → check_consistency df s = Raise ZeroDivisionError.
Proof.
  intros He. unfold check_consistency.
  rewrite set_column_with_flag, length_with_flag, He.
  done.
Qed.

Lemma check_validity_eq df s :
  rows df ≠ [] →
  existsb (validity_raises df) (rows df) = false →
  check_validity df s =
  Return (with_flag "flag_validity" (validity_row df) df)
         (<["validity" :=
             {| total_issues := sum_flags (validity_row df <$> rows df);
                percentage :=
                  Fin (inject_Z (sum_flags (validity_row df <$> rows df))
                       / inject_Z (Z.of_nat (length (rows df))) * 100);
                descr := InvalidData |}]> s).
Proof.
  intros Hne Hok. unfold check_validity. rewrite Hok.
  rewrite set_column_with_flag, length_with_flag.
  unfold mbind, method_bind, bind.
  rewrite py_divide_nonzero by by apply rows_nonempty_length.
  done.
Qed.

Lemma check_validity_empty df s :
  rows df = [] → check_validity df s = Raise ZeroDivisionError.
Proof.
  intros He. unfold check_validity.
  rewrite set_column_with_flag, length_with_flag, He.
  done.
Qed.

Lemma check_validity_overflow df s :
  existsb (validity_raises df) (rows df) = true →
  check_validity df s = Raise OverflowError.
Proof. intros Hbad. unfold check_validity. by rewrite Hbad. Qed.

(** [check_validity] returns on the frames with a record on which no
    record raises, and on no other. *)
Lemma check_validity_returns df s df' s' :
  check_validity df s = Return df' s' →
  rows df ≠ [] ∧ existsb (validity_raises df) (rows df) = false.
Proof.
  intros Hret.
  destruct (existsb (validity_raises df) (rows df)) eqn:Hbad.
  { by rewrite check_validity_overflow in Hret. }
  destruct (decide (rows df = [])) as [He|Hne]; [|done].
  by rewrite check_validity_empty in Hret.
Qed.

Lemma reindex_full df (vals : list value) :
  length vals = length (rows df) → reindex df vals = vals.
Proof.
  unfold reindex. intros <-. induction vals as [|v vals IH]; [done|].
  cbn [length seq]. rewrite <- fmap_S_seq, fmap_cons, <- list_fmap_compose.
  simpl. f_equal. exact IH.
Qed.

Lemma uniqueness_columns_no_columns df : columns df = [] → uniqueness_columns df = [].
Proof.
  intros He. unfold uniqueness_columns, key_columns. rewrite He.
  rewrite !filter_cons, !decide_False by apply not_elem_of_nil. done.
Qed.

Lemma check_uniqueness_eq df s :
  rows df = [] ∨ uniqueness_columns df ≠ [] →
  check_uniqueness df s =
  Return (with_flag "flag_uniqueness" (uniqueness_row df) df)
         (<["uniqueness" :=
             {| total_issues := count_true (key_repeated (uniqueness_columns df) df);
                percentage :=
                  fmul (np_divide (count_true (key_repeated (uniqueness_columns df) df))
                                  (Z.of_nat (length (rows df)))) 100;
                descr := DuplicatesOn (uniqueness_columns df) |}]> s).
Proof.
  intros Hok. unfold check_uniqueness, duplicated, is_empty.
  destruct (decide (rows df = [])) as [He|Hne].
  - rewrite (bool_decide_eq_true_2 _ He). cbn [orb].
    unfold mbind, method_bind, bind, record_issue, mret, method_ret, ret.
    unfold key_repeated, with_flag, set_column, reindex. rewrite He. done.
  - destruct Hok as [?|Hcols]; [done|].
    assert (columns df ≠ []) as Hc.
    { intros He. by apply Hcols, uniqueness_columns_no_columns. }
    rewrite (bool_decide_eq_false_2 _ Hne), (bool_decide_eq_false_2 _ Hc),
      (bool_decide_eq_false_2 _ Hcols). cbn [orb].
    unfold mbind, method_bind, bind, record_issue, mret, method_ret, ret.
    rewrite reindex_full by (unfold key_repeated; by rewrite !length_fmap).
    unfold key_repeated.
    rewrite <- list_fmap_compose, set_column_fmap. simpl.
    rewrite length_fmap. done.
Qed.

(** With records and columns but nothing to compare, pandas raises. *)
Lemma check_uniqueness_no_key df s :
  rows df ≠ [] → columns df ≠ [] → uniqueness_columns df = [] →
  check_uniqueness df s = Raise ValueError.
Proof.
  intros Hne Hc Hcols. unfold check_uniqueness, duplicated, is_empty.
  rewrite (bool_decide_eq_false_2 _ Hne), (bool_decide_eq_false_2 _ Hc), Hcols.
  done.
Qed.

(** A frame with records and no column at all gets a column of missing
    values and no issue. *)
Lemma check_uniqueness_no_columns df s :
  columns df = [] →
  check_uniqueness df s =
  Return (set_column "flag_uniqueness" ((λ _, VNull) <$> rows df) df)
         (<["uniqueness" :=
             {| total_issues := 0;
                percentage := fmul (np_divide 0 (Z.of_nat (length (rows df)))) 100;
                descr := DuplicatesOn [] |}]> s).
Proof.
  intros Hc. unfold check_uniqueness, duplicated, is_empty.
  rewrite (bool_decide_eq_true_2 _ Hc), orb_true_r.
  rewrite uniqueness_columns_no_columns by done.
  unfold mbind, method_bind, bind, record_issue, mret, method_ret, ret.
  assert (reindex df (VInt ∘ int_of_bool <$> []) = (λ _, VNull) <$> rows df) as ->.
  { unfold reindex. generalize 0%nat. induction (rows df) as [|r l IH]; intros k; [done|].
    cbn [length seq]. rewrite !fmap_cons. f_equal. apply IH. }
  simpl. by rewrite length_zip_with_l_eq by by rewrite length_fmap.
Qed.

Lemma check_uniqueness_returns df s df' s' :
  check_uniqueness df s = Return df' s' →
  rows df = [] ∨ columns df = [] ∨ uniqueness_columns df ≠ [].
Proof.
  intros Hret.
  destruct (decide (rows df = [])) as [?|Hne]; [by left|].
  destruct (decide (columns df = [])) as [?|Hc]; [by right; left|].
  destruct (decide (uniqueness_columns df = [])) as [He|?]; [|by right; right].
  by rewrite check_uniqueness_no_key in Hret.
Qed.
End evaluator_equations.

(** ** Flags are bits, and counts are bounded by the number of records *)

Section bits.
Implicit Types (df : DataFrame) (r : record).

Lemma int_of_bool_bit b : int_of_bool b = 0 ∨ int_of_bool b = 1.
Proof. destruct b; auto. Qed.

Lemma completeness_row_bit df r : completeness_row df r = 0 ∨ completeness_row df r = 1.
Proof. apply int_of_bool_bit. Qed.

Lemma uniqueness_row_bit df r : uniqueness_row df r = 0 ∨ uniqueness_row df r = 1.
Proof. apply int_of_bool_bit. Qed.

Ltac block_bit :=
  repeat match goal with
         | |- context [if ?b then _ else _] => destruct b
         | |- context [match ?o with Some _ => _ | None => _ end] => destruct o
         end; auto.

Lemma consistency_row_bit df r : consistency_row df r = 0 ∨ consistency_row df r = 1.
Proof.
  unfold consistency_row, currency_block, ipo_block, status_block, company_block.
  block_bit.
Qed.

Lemma validity_row_bit df r : validity_row df r = 0 ∨ validity_row df r = 1.
Proof.
  unfold validity_row, industry_block, fiscal_block, revenue_block, year_block.
  block_bit.
Qed.

Lemma count_true_bounds (mask : list bool) :
  0 ≤ count_true mask ≤ Z.of_nat (length mask).
Proof. unfold count_true. pose proof (length_filter (λ b, b = true) mask). lia. Qed.

Lemma sum_flags_bounds {A} (f : A → Z) (l : list A) :
  (∀ a, f a = 0 ∨ f a = 1) →
  0 ≤ sum_flags (f <$> l) ≤ Z.of_nat (length l).
Proof.
  intros Hbit. induction l as [|a l IH]; csimpl; [lia|].
  destruct (Hbit a) as [-> | ->]; lia.
Qed.
End bits.

(** ** One run of the four evaluators *)

Section run.
Implicit Types (df : DataFrame) (s : issues).

Lemma rows_after_completeness df :
  length (rows (after_completeness df)) = length (rows df).
Proof. apply length_with_flag. Qed.

Lemma rows_after_consistency df :
  length (rows (after_consistency df)) = length (rows df).
Proof. unfold after_consistency. by rewrite length_with_flag, rows_after_completeness. Qed.

Lemma rows_after_validity df :
  length (rows (after_validity df)) = length (rows df).
Proof. unfold after_validity. by rewrite length_with_flag, rows_after_consistency. Qed.

Lemma rows_after_uniqueness df :
  length (rows (after_uniqueness df)) = length (rows df).
Proof. unfold after_uniqueness. by rewrite length_with_flag, rows_after_validity. Qed.

Lemma nonempty_length {A} (l l' : list A) : length l' = length l → l ≠ [] → l' ≠ [].
Proof. destruct l, l'; done. Qed.

(** On a frame they pass, the four evaluators return, and each leaves a
    count between 0 and the number of records. *)
Lemma run_evaluators_eq df s :
  evaluators_pass df →
  ∃ mc mk mv mu,
    run_evaluators df s = Return (after_uniqueness df) (four_measures mc mk mv mu s) ∧
    Forall (λ m, 0 ≤ total_issues m ≤ Z.of_nat (length (rows df))) [mc; mk; mv; mu].
Proof.
  intros (Hne & Hok & Hcols). unfold run_evaluators.
  pose proof (nonempty_length _ _ (rows_after_completeness df) Hne) as Hne1.
  pose proof (nonempty_length _ _ (rows_after_consistency df) Hne) as Hne2.
  eexists _, _, _, _. split.
  - unfold mbind, method_bind, bind.
    rewrite check_completeness_eq.
    rewrite check_consistency_eq by exact Hne1.
    rewrite check_validity_eq by (exact Hne2 || exact Hok).
    rewrite check_uniqueness_eq by (right; exact Hcols). reflexivity.
  - repeat apply Forall_cons_2; simpl; [| | | |by apply Forall_nil].
    + pose proof (count_true_bounds (any_null (completeness_columns df) df)) as Hb.
      unfold any_null in Hb at 3. by rewrite length_fmap in Hb.
    + rewrite <- (rows_after_completeness df).
      apply sum_flags_bounds, consistency_row_bit.
    + rewrite <- (rows_after_consistency df).
      apply sum_flags_bounds, validity_row_bit.
    + rewrite <- (rows_after_validity df).
      pose proof (count_true_bounds
                    (key_repeated (uniqueness_columns (after_validity df))
                                (after_validity df))) as Hb.
      unfold key_repeated in Hb at 3. by rewrite length_fmap in Hb.
Qed.

Lemma run_evaluators_empty df s :
  rows df = [] → run_evaluators df s = Raise ZeroDivisionError.
Proof.
  intros He. unfold run_evaluators, mbind, method_bind, bind.
  rewrite check_completeness_eq.
  rewrite check_consistency_empty; [done|].
  simpl. by rewrite He.
Qed.

(** The four evaluators return on the frames they pass, and on no
    other. *)
Lemma run_evaluators_returns df s df' s' :
  run_evaluators df s = Return df' s' → evaluators_pass df.
Proof.
  intros Hrun. unfold run_evaluators, mbind, method_bind, bind in Hrun.
  rewrite check_completeness_eq in Hrun.
  destruct (decide (rows df = [])) as [He|Hne].
  { rewrite check_consistency_empty in Hrun; [done|]. simpl. by rewrite He. }
  pose proof (nonempty_length _ _ (rows_after_completeness df) Hne) as Hne1.
  pose proof (nonempty_length _ _ (rows_after_consistency df) Hne) as Hne2.
  pose proof (nonempty_length _ _ (rows_after_validity df) Hne) as Hne3.
  rewrite check_consistency_eq in Hrun by exact Hne1.
  fold (after_completeness df) in Hrun. fold (after_consistency df) in Hrun.
  destruct (existsb (validity_raises (after_consistency df))
              (rows (after_consistency df))) eqn:Hok.
  { by rewrite check_validity_overflow in Hrun. }
  rewrite check_validity_eq in Hrun by done.
  fold (after_validity df) in Hrun.
  split; [done|]. split; [done|]. intros Hcols.
  rewrite check_uniqueness_no_key in Hrun; [done | exact Hne3 | | exact Hcols].
  intros He.
  assert ("flag_validity" ∈ columns (after_validity df)) as Hin.
  { apply elem_of_columns_with_flag. by right. }
  rewrite He in Hin. by apply elem_of_nil in Hin.
Qed.

(** Whether the evaluators raise, and what, does not depend on the
    issues the checker holds. *)
Lemma run_evaluators_raise_any df s s0 e :
  run_evaluators df s = Raise e → run_evaluators df s0 = Raise e.
Proof.
  destruct (decide (rows df = [])) as [He|Hne].
  { by rewrite !run_evaluators_empty. }
  pose proof (nonempty_length _ _ (rows_after_completeness df) Hne) as Hne1.
  pose proof (nonempty_length _ _ (rows_after_consistency df) Hne) as Hne2.
  pose proof (nonempty_length _ _ (rows_after_validity df) Hne) as Hne3.
  unfold run_evaluators, mbind, method_bind, bind.
  rewrite !check_completeness_eq.
  rewrite !check_consistency_eq by exact Hne1.
  fold (after_completeness df). fold (after_consistency df).
  destruct (existsb (validity_raises (after_consistency df))
              (rows (after_consistency df))) eqn:Hok.
  { by rewrite !check_validity_overflow. }
  rewrite !check_validity_eq by done.
  fold (after_validity df).
  destruct (decide (uniqueness_columns (after_validity df) = [])) as [Hu|Hu].
  - assert (columns (after_validity df) ≠ []) as Hc.
    { intros He.
      assert ("flag_validity" ∈ columns (after_validity df)) as Hin.
      { apply elem_of_columns_with_flag. by right. }
      rewrite He in Hin. by apply elem_of_nil in Hin. }
    by rewrite !check_uniqueness_no_key.
  - by rewrite check_uniqueness_eq by by right.
Qed.

(** What a returning [run_all_checks] has done. *)
Lemma run_all_checks_inv df s df' s' :
  run_all_checks df s = Return df' s' →
  evaluators_pass df ∧
  ∃ mc mk mv mu overall,
    s' = four_measures mc mk mv mu s ∧
    Forall (λ m, 0 ≤ total_issues m ≤ Z.of_nat (length (rows df))) [mc; mk; mv; mu] ∧
    flag_max (after_uniqueness df) = Some overall ∧
    df' = set_column "flag_overall" overall (after_uniqueness df).
Proof.
  intros Hrun. unfold run_all_checks, mbind, method_bind, bind in Hrun.
  destruct (run_evaluators df s) as [e|df1 s1] eqn:Hev; [done|].
  pose proof (run_evaluators_returns _ _ _ _ Hev) as Hne.
  split; [done|].
  destruct (run_evaluators_eq df s Hne) as (mc & mk & mv & mu & Heq & Hb).
  rewrite Heq in Hev. injection Hev as <- <-.
  destruct (flag_max (after_uniqueness df)) as [overall|] eqn:Hmax; [|done].
  injection Hrun as <- <-. by exists mc, mk, mv, mu, overall.
Qed.

Lemma run_all_checks_length df s df' s' :
  run_all_checks df s = Return df' s' → length (rows df') = length (rows df).
Proof.
  intros (_ & mc & mk & mv & mu & overall & _ & _ & Hmax & ->)%run_all_checks_inv.
  simpl. apply length_mapM in Hmax.
  rewrite length_zip_with_l_eq by done. apply rows_after_uniqueness.
Qed.
End run.

(** ** The entries of [quality_issues] after a run *)

Section measures.
Implicit Types (s : issues) (mc mk mv mu : measure).

Lemma four_measures_canonical mc mk mv mu s :
  (∀ k, is_Some (s !! k) → k ∈ dimensions) →
  four_measures mc mk mv mu s = four_measures mc mk mv mu ∅.
Proof.
  intros Hdom. apply map_eq. intros k. unfold four_measures.
  destruct (decide (k ∈ dimensions)) as [Hin|Hout].
  - unfold dimensions in Hin.
    repeat (apply elem_of_cons in Hin as [-> | Hin]; [by simplify_map_eq|]).
    by apply elem_of_nil in Hin.
  - assert (s !! k = None) as Hnone.
    { destruct (s !! k) eqn:E; [|done]. destruct Hout. apply Hdom. by rewrite E. }
    unfold dimensions in Hout.
    rewrite !lookup_insert_ne, Hnone, lookup_empty; [done|..];
      intros <-; apply Hout; set_solver.
Qed.

Lemma size_four_measures mc mk mv mu : size (four_measures mc mk mv mu ∅) = 4%nat.
Proof.
  unfold four_measures.
  rewrite !map_size_insert_None, map_size_empty; by simplify_map_eq.
Qed.

Lemma sum_four_measures mc mk mv mu :
  sum_total_issues (four_measures mc mk mv mu ∅) =
  total_issues mc + total_issues mk + total_issues mv + total_issues mu.
Proof.
  unfold sum_total_issues, four_measures.
  rewrite !map_fold_insert_L, map_fold_empty; try (by simplify_map_eq); try lia;
    intros; lia.
Qed.

Lemma lookup_four_measures mc mk mv mu s :
  four_measures mc mk mv mu s !! "completeness" = Some mc ∧
  four_measures mc mk mv mu s !! "consistency" = Some mk ∧
  four_measures mc mk mv mu s !! "validity" = Some mv ∧
  four_measures mc mk mv mu s !! "uniqueness" = Some mu.
Proof. unfold four_measures. by simplify_map_eq. Qed.
End measures.

(** ** Empty data sets (C2) *)

(** C2.  The specification asks that a data set with zero records makes
    every percentage and the score a defined value instead of a division
    error.  The summary builder guards its division, the evaluators do
    not: on every frame without records [check_consistency] divides by
    [len(df) = 0], so [run_all_checks] raises [ZeroDivisionError]
    whatever the columns and whatever the checker has recorded before. *)
Theorem run_all_checks_zero_records_raises (cols : list string) (s : issues) :
  check_consistency {| columns := cols; rows := [] |} s = Raise ZeroDivisionError ∧
  check_validity {| columns := cols; rows := [] |} s = Raise ZeroDivisionError ∧
  run_all_checks {| columns := cols; rows := [] |} s = Raise ZeroDivisionError.
Proof.
  split_and!.
  - by apply check_consistency_empty.
  - by apply check_validity_empty.
  - unfold run_all_checks, mbind, method_bind, bind.
    by rewrite run_evaluators_empty.
Qed.

(** The guarded sibling: the summary of a frame without records has
    score 0, and the numpy division of [check_completeness] yields
    [nan] rather than an exception. *)
Lemma generate_quality_summary_zero_records (cols : list string) (s : issues) :
  ∃ sm, generate_quality_summary {| columns := cols; rows := [] |} s = Return sm s ∧
        overall_quality_score sm = 0%Q.
Proof. eexists. split; [reflexivity|]. done. Qed.

Lemma check_completeness_zero_records (cols : list string) (s : issues) :
  ∃ df' s', check_completeness {| columns := cols; rows := [] |} s = Return df' s' ∧
            percentage <$> s' !! "completeness" = Some NaN.
Proof.
  rewrite check_completeness_eq. eexists _, _. split; [reflexivity|].
  by rewrite lookup_insert_eq.
Qed.

(** ** The quality score (C3) *)

Section score.
Local Open Scope Q_scope.

Lemma ratio_bounds (t p : Z) :
  (0 ≤ t ≤ p)%Z → (0 < p)%Z → 0 <= inject_Z t / inject_Z p <= 1.
Proof.
  intros [Ht1 Ht2] Hp.
  assert (inject_Z 0 < inject_Z p) as Hp' by (by rewrite <- Zlt_Qlt).
  assert (inject_Z 0 <= inject_Z t) as Ht1' by (by rewrite <- Zle_Qle).
  assert (inject_Z t <= inject_Z p) as Ht2' by (by rewrite <- Zle_Qle).
  split.
  - apply Qle_shift_div_l; [done|]. by rewrite Qmult_0_l.
  - apply Qle_shift_div_r; [done|]. by rewrite Qmult_1_l.
Qed.

Lemma max0_spec (x : Q) : max0 x == Qmax 0 x.
Proof.
  unfold max0, Num.Qltb.
  destruct (Qle_bool x 0) eqn:E; simpl.
  - apply Qle_bool_iff in E. symmetry. by apply Q.max_l.
  - assert (¬ x <= 0) as Hx by (rewrite <- Qle_bool_iff; congruence).
    symmetry. apply Q.max_r. lra.
Qed.

Lemma score_bounds (y : Q) :
  0 <= y <= 1 → 0 <= max0 (100 - y * 100) <= 100.
Proof.
  intros Hy. unfold max0, Num.Qltb.
  destruct (Qle_bool (100 - y * 100) 0); simpl; lra.
Qed.
End score.

(** C3.  After [run_all_checks] has returned on a data set, the summary
    reports [overall_quality_score = max(0, 100 - total / (records * 4) * 100)]
    where [total] adds up the [total_issues] of the four dimensions, and
    the score lies between 0 and 100.  The checker may have been used
    before: its dictionary holds entries of the four dimensions only. *)
Theorem overall_quality_score_formula (df df' : DataFrame) (s s' : issues) :
  (∀ k, is_Some (s !! k) → k ∈ dimensions) →
  run_all_checks df s = Return df' s' →
  ∃ mc mk mv mu sm,
    s' !! "completeness" = Some mc ∧ s' !! "consistency" = Some mk ∧
    s' !! "validity" = Some mv ∧ s' !! "uniqueness" = Some mu ∧
    generate_quality_summary df' s' = Return sm s' ∧
    (overall_quality_score sm ==
       Qmax 0 (100 - inject_Z (total_issues mc + total_issues mk +
                                total_issues mv + total_issues mu)
                     / inject_Z (Z.of_nat (length (rows df')) * 4) * 100))%Q ∧
    (0 <= overall_quality_score sm <= 100)%Q.
Proof.
  intros Hdom Hrun.
  pose proof (run_all_checks_length _ _ _ _ Hrun) as Hlen.
  destruct (run_all_checks_inv _ _ _ _ Hrun)
    as ((Hne & _ & _) & mc & mk & mv & mu & overall & -> & Hb & _ & _).
  destruct (lookup_four_measures mc mk mv mu s) as (Hc & Hk & Hv & Hu).
  exists mc, mk, mv, mu. eexists.
  do 4 (split; [done|]). split; [reflexivity|]. split.
  - simpl. rewrite four_measures_canonical by done.
    rewrite size_four_measures, sum_four_measures, Hlen.
    assert (0 < Z.of_nat (length (rows df)) * Z.of_nat 4) as Hpos.
    { destruct (rows df); [done | simpl; lia]. }
    destruct (Z.ltb_spec 0 (Z.of_nat (length (rows df)) * Z.of_nat 4)); [|lia].
    apply max0_spec.
  - simpl. rewrite four_measures_canonical by done.
    rewrite size_four_measures, sum_four_measures, Hlen.
    assert (0 < Z.of_nat (length (rows df)) * Z.of_nat 4) as Hpos.
    { destruct (rows df); [done | simpl; lia]. }
    destruct (Z.ltb_spec 0 (Z.of_nat (length (rows df)) * Z.of_nat 4)); [|lia].
    apply score_bounds, ratio_bounds; [|done].
    rewrite !Forall_cons in Hb. lia.
Qed.

Lemma overall_quality_score_formula_witness :
  ∃ mc mk mv mu sm,
    sample_issues !! "completeness" = Some mc ∧
    sample_issues !! "consistency" = Some mk ∧
    sample_issues !! "validity" = Some mv ∧
    sample_issues !! "uniqueness" = Some mu ∧
    generate_quality_summary sample_checked sample_issues = Return sm sample_issues ∧
    (overall_quality_score sm ==
       Qmax 0 (100 - inject_Z (total_issues mc + total_issues mk +
                                total_issues mv + total_issues mu)
                     / inject_Z (Z.of_nat (length (rows sample_checked)) * 4) * 100))%Q ∧
    (0 <= overall_quality_score sm <= 100)%Q.
Proof.
  apply (overall_quality_score_formula sample sample_checked ∅ sample_issues).
  - intros k [m Hm]. by rewrite lookup_empty in Hm.
  - vm_compute. reflexivity.
Defined.

(** ** Frame of the evaluators (C10) *)

Section frame.
Implicit Types (df : DataFrame) (s : issues).

Lemma with_flag_with_column flag (g : record → Z) df :
  with_flag flag g df = with_column flag (VInt ∘ g) df.
Proof. done. Qed.

Lemma evaluator_result E flag df s df' s' :
  (E, flag) ∈ evaluators →
  E df s = Return df' s' →
  ∃ g, df' = with_column flag g df.
Proof.
  unfold evaluators. intros Hin Hret.
  repeat (apply elem_of_cons in Hin as [[= -> ->] | Hin]).
  - rewrite check_completeness_eq in Hret. injection Hret as <- _.
    rewrite with_flag_with_column. eauto.
  - destruct (decide (rows df = [])) as [He|Hne].
    { by rewrite check_consistency_empty in Hret. }
    rewrite check_consistency_eq in Hret by done. injection Hret as <- _.
    rewrite with_flag_with_column. eauto.
  - destruct (check_validity_returns _ _ _ _ Hret) as [Hne Hok].
    rewrite check_validity_eq in Hret by done. injection Hret as <- _.
    rewrite with_flag_with_column. eauto.
  - destruct (check_uniqueness_returns _ _ _ _ Hret) as [He | [Hc | Hcols]].
    + rewrite check_uniqueness_eq in Hret by by left. injection Hret as <- _.
      rewrite with_flag_with_column. eauto.
    + rewrite check_uniqueness_no_columns in Hret by done. injection Hret as <- _.
      rewrite set_column_fmap. by exists (λ _, VNull).
    + rewrite check_uniqueness_eq in Hret by by right. injection Hret as <- _.
      rewrite with_flag_with_column. eauto.
  - by apply elem_of_nil in Hin.
Qed.

Lemma columns_with_flag_new flag g df :
  flag ∉ columns df → columns (with_flag flag g df) = columns df ++ [flag].
Proof. intros Hin. simpl. unfold has_column. by rewrite bool_decide_eq_false_2. Qed.

Lemma columns_with_flag_old flag g df :
  flag ∈ columns df → columns (with_flag flag g df) = columns df.
Proof. intros Hin. simpl. unfold has_column. by rewrite bool_decide_eq_true_2. Qed.

Lemma column_with_flag_ne flag g df c :
  c ≠ flag → column c (with_flag flag g df) = column c df.
Proof.
  intros Hne. unfold column. rewrite rows_with_flag, <- list_fmap_compose.
  apply list_fmap_ext. intros _ r _. simpl. by apply cell_insert_ne.
Qed.

Lemma columns_with_column_new flag (g : record → value) df :
  flag ∉ columns df → columns (with_column flag g df) = columns df ++ [flag].
Proof. intros Hin. simpl. unfold has_column. by rewrite bool_decide_eq_false_2. Qed.

Lemma columns_with_column_old flag (g : record → value) df :
  flag ∈ columns df → columns (with_column flag g df) = columns df.
Proof. intros Hin. simpl. unfold has_column. by rewrite bool_decide_eq_true_2. Qed.

Lemma column_with_column_ne flag (g : record → value) df c :
  c ≠ flag → column c (with_column flag g df) = column c df.
Proof.
  intros Hne. unfold column, with_column. cbn [rows]. rewrite <- list_fmap_compose.
  apply list_fmap_ext. intros _ r _. simpl. by apply cell_insert_ne.
Qed.
End frame.

(** C10, as the code has it.  Whenever one of the four evaluators
    returns, every column other than its own [flag_<dimension>] column
    keeps its name, its place and all its values, and the number of
    records is unchanged.  The flag column is appended after the last
    column when the data set has no column of that name; a column of that
    name which the data set already has is overwritten where it stands. *)
Theorem evaluator_frame (E : DataFrame → method DataFrame) (flag : string)
    (df df' : DataFrame) (s s' : issues) :
  (E, flag) ∈ evaluators →
  E df s = Return df' s' →
  (flag ∉ columns df → columns df' = columns df ++ [flag]) ∧
  (flag ∈ columns df → columns df' = columns df) ∧
  length (rows df') = length (rows df) ∧
  (∀ c, c ≠ flag → column c df' = column c df) ∧
  (∀ i r r', rows df !! i = Some r → rows df' !! i = Some r' →
             ∀ c, c ≠ flag → r' !! c = r !! c).
Proof.
  intros Hin Hret.
  destruct (evaluator_result _ _ _ _ _ _ Hin Hret) as [g ->].
  split_and!.
  - apply columns_with_column_new.
  - apply columns_with_column_old.
  - unfold with_column. cbn [rows]. apply length_fmap.
  - intros c Hc. by apply column_with_column_ne.
  - intros i r r' Hr Hr' c Hc.
    unfold with_column in Hr'. cbn [rows] in Hr'.
    rewrite list_lookup_fmap, Hr in Hr'. injection Hr' as <-.
    by rewrite lookup_insert_ne.
Qed.

Lemma evaluator_frame_witness :
  (("flag_validity" : string) ∉ columns sample →
   columns (outcome_frame (check_validity sample ∅)) = columns sample ++ ["flag_validity"]) ∧
  (("flag_validity" : string) ∈ columns sample →
   columns (outcome_frame (check_validity sample ∅)) = columns sample) ∧
  length (rows (outcome_frame (check_validity sample ∅))) = length (rows sample) ∧
  (∀ c, c ≠ "flag_validity" →
        column c (outcome_frame (check_validity sample ∅)) = column c sample) ∧
  (∀ i r r', rows sample !! i = Some r →
             rows (outcome_frame (check_validity sample ∅)) !! i = Some r' →
             ∀ c, c ≠ "flag_validity" → r' !! c = r !! c).
Proof.
  apply (evaluator_frame check_validity "flag_validity" sample
           (outcome_frame (check_validity sample ∅)) ∅
           (outcome_issues (check_validity sample ∅))).
  - unfold evaluators. do 2 right. left.
  - vm_compute. reflexivity.
Defined.

(** C10 as stated fails on a frame that already has the flag column:
    [check_completeness] overwrites the stale [flag_completeness] (1
    becomes 0) where it stands instead of appending a column. *)
Lemma evaluator_frame_counterexample :
  ∃ df' s',
    check_completeness stale_frame ∅ = Return df' s' ∧
    columns df' = ["timevalue"; "flag_completeness"; "REVENUE"] ∧
    column "flag_completeness" stale_frame = [VInt 1] ∧
    column "flag_completeness" df' = [VInt 0] ∧
    ¬ appends_only "flag_completeness" stale_frame df'.
Proof.
  eexists _, _. split; [vm_compute; reflexivity|].
  split_and!; try (vm_compute; reflexivity).
  intros [Hcols _]. vm_compute in Hcols. discriminate Hcols.
Qed.

(** ** Completeness (C4) *)

Section completeness.
Implicit Types (df : DataFrame) (r : record) (c : string).

Lemma isnull_true v : isnull v = true ↔ v = VNull.
Proof. by destruct v. Qed.

Lemma int_of_bool_1 b : int_of_bool b = 1 ↔ b = true.
Proof. by destruct b. Qed.

Lemma existsb_elem_of {A} (p : A → bool) (l : list A) :
  existsb p l = true ↔ ∃ x, x ∈ l ∧ p x = true.
Proof.
  rewrite existsb_exists. by setoid_rewrite list_elem_of_In.
Qed.

Lemma completeness_row_1 df r :
  completeness_row df r = 1 ↔
  ∃ c, c ∈ completeness_columns df ∧ cell r c = VNull.
Proof.
  unfold completeness_row. rewrite int_of_bool_1, existsb_elem_of.
  by setoid_rewrite isnull_true.
Qed.

Lemma completeness_columns_critical df :
  (∃ c, c ∈ critical_columns ∧ c ∈ columns df) →
  ∀ c, c ∈ completeness_columns df ↔ c ∈ critical_columns ∧ c ∈ columns df.
Proof.
  intros (c0 & Hc0 & Hin0) c. unfold completeness_columns.
  destruct (filter _ critical_columns) as [|x l] eqn:E.
  - assert (c0 ∈ filter (λ c, c ∈ columns df) critical_columns) as Hin.
    { by apply list_elem_of_filter. }
    rewrite E in Hin. by apply elem_of_nil in Hin.
  - rewrite <- E, list_elem_of_filter. tauto.
Qed.

Lemma completeness_columns_fallback df :
  (∀ c, c ∈ critical_columns → c ∉ columns df) →
  completeness_columns df = take (Nat.min 4 (length (columns df))) (columns df).
Proof.
  intros Hnone. unfold completeness_columns.
  destruct (filter _ critical_columns) as [|x l] eqn:E; [done|].
  assert (x ∈ filter (λ c, c ∈ columns df) critical_columns) as Hin.
  { rewrite E. by left. }
  apply list_elem_of_filter in Hin as [Hx1 Hx2]. by destruct (Hnone x).
Qed.
End completeness.

(** C4.  For every record, [check_completeness] sets [flag_completeness]
    to 1 exactly when some critical column that exists in the schema is
    missing in that record (and to 0 otherwise); when no critical column
    exists, the columns inspected are the first [min(4, column_count)]
    columns of the data set. *)
Theorem check_completeness_flag (df : DataFrame) (s : issues) (i : nat) (r : record) :
  rows df !! i = Some r →
  ∃ df' s' r',
    check_completeness df s = Return df' s' ∧
    rows df' !! i = Some r' ∧
    is_bit (cell r' "flag_completeness") ∧
    ((∃ c, c ∈ critical_columns ∧ c ∈ columns df) →
     (cell r' "flag_completeness" = VInt 1 ↔
      ∃ c, c ∈ critical_columns ∧ c ∈ columns df ∧ cell r c = VNull)) ∧
    ((∀ c, c ∈ critical_columns → c ∉ columns df) →
     (cell r' "flag_completeness" = VInt 1 ↔
      ∃ j c, (j < Nat.min 4 (length (columns df)))%nat ∧
             columns df !! j = Some c ∧ cell r c = VNull)).
Proof.
  intros Hr. rewrite check_completeness_eq.
  eexists _, _, _. split; [reflexivity|].
  split; [by rewrite rows_with_flag, list_lookup_fmap, Hr|].
  rewrite cell_insert_eq.
  assert (∀ z, VInt z = VInt 1 ↔ z = 1) as Hinj by (intros; split; congruence).
  split_and!.
  - unfold is_bit. destruct (completeness_row_bit df r) as [-> | ->]; auto.
  - intros Hex. rewrite Hinj, completeness_row_1.
    setoid_rewrite (completeness_columns_critical df Hex). naive_solver.
  - intros Hnone. rewrite Hinj, completeness_row_1.
    rewrite (completeness_columns_fallback df Hnone).
    setoid_rewrite elem_of_take. naive_solver.
Qed.

Lemma check_completeness_flag_witness :
  ∃ df' s' r',
    check_completeness sample ∅ = Return df' s' ∧
    rows df' !! 1%nat = Some r' ∧
    is_bit (cell r' "flag_completeness") ∧
    ((∃ c, c ∈ critical_columns ∧ c ∈ columns sample) →
     (cell r' "flag_completeness" = VInt 1 ↔
      ∃ c, c ∈ critical_columns ∧ c ∈ columns sample ∧
           cell (record_of [("timevalue", VInt 1850); ("providerkey", VInt 1);
                            ("unit_REVENUE", VStr "USD")]) c = VNull)) ∧
    ((∀ c, c ∈ critical_columns → c ∉ columns sample) →
     (cell r' "flag_completeness" = VInt 1 ↔
      ∃ j c, (j < Nat.min 4 (length (columns sample)))%nat ∧
             columns sample !! j = Some c ∧
             cell (record_of [("timevalue", VInt 1850); ("providerkey", VInt 1);
                              ("unit_REVENUE", VStr "USD")]) c = VNull)).
Proof.
  apply (check_completeness_flag sample ∅ 1%nat).
  reflexivity.
Defined.

(** ** Uniqueness (C5) *)

Section uniqueness.
Implicit Types (df : DataFrame) (r : record) (c : string).

Lemma value_eqb_refl v : value_eqb v v = true.
Proof.
  destruct v as [|t|z|f|n]; simpl; try done.
  - by apply bool_decide_eq_true_2.
  - apply Qeq_bool_iff. reflexivity.
  - apply Qeq_bool_iff. reflexivity.
  - by apply bool_decide_eq_true_2.
Qed.




Lemma key_eqb_same_key cols r1 r2 :
  key_eqb (key_of cols r1) (key_of cols r2) = true ↔ same_key cols r1 r2.
Proof.
  unfold same_key, key_of. induction cols as [|c cols IH]; csimpl.
  - split; [|done]. intros _ c Hc. by apply elem_of_nil in Hc.
  - rewrite andb_true_iff, IH. split.
    + intros [Hc Hcols] c' [-> | Hin]%elem_of_cons; auto.
    + intros Hall. split; [apply Hall; by left|].
      intros c' Hin. apply Hall. by right.
Qed.

Lemma filter_nonempty_lookup {A} (P : A → Prop) `{!∀ x, Decision (P x)} (l : list A) :
  (0 < length (filter P l))%nat ↔ ∃ j y, l !! j = Some y ∧ P y.
Proof.
  split.
  - destruct (filter P l) as [|y k] eqn:E; simpl; [lia|]. intros _.
    assert (y ∈ filter P l) as Hy by (rewrite E; by left).
    apply list_elem_of_filter in Hy as [HP [j Hj]%list_elem_of_lookup]. eauto.
  - intros (j & y & Hj & HP).
    assert (y ∈ filter P l) as Hy.
    { apply list_elem_of_filter. split; [done|]. apply list_elem_of_lookup. eauto. }
    destruct (filter P l); [by apply elem_of_nil in Hy | simpl; lia].
Qed.

(** An element satisfying [P] has company in [filter P l] exactly when
    another position of [l] satisfies [P] too. *)
Lemma filter_more_than_one {A} (P : A → Prop) `{!∀ x, Decision (P x)}
    (l : list A) (i : nat) (x : A) :
  l !! i = Some x → P x →
  (1 < length (filter P l))%nat ↔ ∃ j y, j ≠ i ∧ l !! j = Some y ∧ P y.
Proof.
  revert i. induction l as [|a l IH]; intros i Hi HP; [done|].
  rewrite filter_cons. destruct i as [|i]; simpl in Hi.
  - injection Hi as ->. rewrite decide_True by done. simpl.
    transitivity (0 < length (filter P l))%nat; [lia|].
    rewrite filter_nonempty_lookup. split.
    + intros (j & y & Hj & Hy). exists (S j), y. done.
    + intros (j & y & Hne & Hj & Hy). destruct j as [|j]; [done|]. eauto.
  - destruct (decide (P a)) as [Ha|Ha]; simpl.
    + split.
      * intros _. exists 0%nat, a. done.
      * intros _.
        assert (0 < length (filter P l))%nat; [|lia].
        apply filter_nonempty_lookup. eauto.
    + rewrite (IH i Hi HP). split.
      * intros (j & y & Hne & Hj & Hy). exists (S j), y. split; [lia|done].
      * intros (j & y & Hne & Hj & Hy). destruct j as [|j].
        { simpl in Hj. injection Hj as ->. done. }
        exists j, y. split; [lia|done].
Qed.

Lemma uniqueness_row_1 df r i :
  rows df !! i = Some r →
  uniqueness_row df r = 1 ↔
  ∃ j r2, j ≠ i ∧ rows df !! j = Some r2 ∧ same_key (uniqueness_columns df) r r2.
Proof.
  intros Hr. unfold uniqueness_row.
  rewrite int_of_bool_1, bool_decide_eq_true.
  rewrite (filter_more_than_one _ _ i r Hr).
  - by setoid_rewrite key_eqb_same_key.
  - apply key_eqb_same_key. intros c _. apply value_eqb_refl.
Qed.


End uniqueness.



(** C5 as stated fails on a data set with records whose columns all
    start with [flag_]: the key-column set is empty, the two records
    below carry the same (empty) key, and [check_uniqueness] flags
    neither of them but raises [ValueError]. *)
Lemma check_uniqueness_flag_counterexample :
  uniqueness_columns flags_only_frame = [] ∧
  (∃ r, rows flags_only_frame = [r; r]) ∧
  check_uniqueness flags_only_frame ∅ = Raise ValueError.
Proof.
  split; [vm_compute; reflexivity|]. split; [|vm_compute; reflexivity].
  eexists. reflexivity.
Qed.

(** ** Texts *)

Section strings.
Implicit Types (s : string) (c : ascii).

Lemma append_nil_l s : "" +:+ s = s.
Proof. reflexivity. Qed.

Lemma append_cons c s1 s2 : String c s1 +:+ s2 = String c (s1 +:+ s2).
Proof. reflexivity. Qed.

Lemma append_nil_r s : s +:+ "" = s.
Proof. induction s as [|c s IH]; [done | by rewrite append_cons, IH]. Qed.

Lemma append_assoc s1 s2 s3 : (s1 +:+ s2) +:+ s3 = s1 +:+ (s2 +:+ s3).
Proof. induction s1 as [|c s1 IH]; [done | by rewrite !append_cons, IH]. Qed.

Lemma append_eq_nil s1 s2 : s1 +:+ s2 = "" → s1 = "" ∧ s2 = "".
Proof. destruct s1; [done | rewrite append_cons; discriminate]. Qed.
End strings.

(** ** What [int] converts *)

Section int_of_text.
Import Num.
Implicit Types (s t u : string) (c : ascii) (n acc : N) (z : Z).




Lemma digit_not_blank c : Text.is_digit c = true → is_blank c = false.
Proof. destruct c as [[] [] [] [] [] [] [] []]; vm_compute; congruence. Qed.

Lemma digit_no_sign c s : Text.is_digit c = true → sign (String c s) = (false, String c s).
Proof. destruct c as [[] [] [] [] [] [] [] []]; vm_compute; congruence. Qed.

Lemma digit_not_underscore c : Text.is_digit c = true → c ≠ "_"%char.
Proof. intros H ->. by vm_compute in H. Qed.


(** *** Stripping *)





Lemma rstrip_last u c : is_blank c = false → rstrip (u +:+ String c "") = u +:+ String c "".
Proof.
  intros Hc. induction u as [|a u IH].
  - rewrite append_nil_l. simpl. by rewrite Hc.
  - rewrite append_cons. simpl. rewrite IH. by destruct u.
Qed.



(** *** Digits *)






(** *** [int] of a text *)




End int_of_text.

(** ** Validity of the year (C7) *)

Section year.
Implicit Types (df : DataFrame) (r : record).

Lemma has_column_true df c : c ∈ columns df → has_column df c = true.
Proof. intros. unfold has_column. by apply bool_decide_eq_true_2. Qed.

Lemma has_column_false df c : c ∉ columns df → has_column df c = false.
Proof. intros. unfold has_column. by apply bool_decide_eq_false_2. Qed.

Lemma notna_true v : v ≠ VNull → notna v = true.
Proof. by destruct v. Qed.

(** The records on which [check_validity] raises are those whose
    conversions overflow. *)
Lemma validity_raises_overflows df r : validity_raises df r = true ↔ overflows df r.
Proof.
  unfold validity_raises, year_raises, revenue_raises, overflows, has_column.
  rewrite orb_true_iff, !andb_true_iff, !bool_decide_eq_true. split.
  - intros [[[Hc _] Hv] | [[Hc _] Hv]].
    + left. split; [done|]. destruct (cell r "timevalue"); try done. eauto.
    + right. split; [done|]. destruct (cell r "REVENUE") as [| |z| |]; try done.
      exists z. split; [done|]. by apply Z.leb_le in Hv.
  - intros [[Hc [neg Hv]] | [Hc (z & Hv & Hz)]]; rewrite Hv; [left | right].
    + done.
    + split_and!; try done. by apply Z.leb_le.
Qed.


Lemma overflow_raises df :
  (∃ r, r ∈ rows df ∧ overflows df r) →
  existsb (validity_raises df) (rows df) = true.
Proof.
  intros (r & Hin & Hr). apply existsb_exists. exists r.
  split; [by apply list_elem_of_In | by apply validity_raises_overflows].
Qed.

Lemma year_block_present df r flag :
  "timevalue" ∈ columns df → cell r "timevalue" ≠ VNull →
  year_block df r flag =
  match py_int (cell r "timevalue") with
  | Some year => if negb ((1900 <=? year) && (year <=? 2030)) then 1 else flag
  | None => 1
  end.
Proof.
  intros Hc Hv. unfold year_block.
  by rewrite has_column_true, notna_true.
Qed.





End year.



(** C7 as stated fails: an infinite year is there, is not missing and
    does not parse as an integer, yet no record is flagged, because
    [int] overflows on it and [check_validity] does not catch that. *)
Lemma check_validity_year_counterexample :
  rows (year_frame (VInf false)) = [record_of [("timevalue", VInf false)]] ∧
  "timevalue" ∈ columns (year_frame (VInf false)) ∧
  cell (record_of [("timevalue", VInf false)]) "timevalue" = VInf false ∧
  notna (VInf false) = true ∧
  year_invalid (VInf false) ∧
  check_validity (year_frame (VInf false)) ∅ = Raise OverflowError.
Proof.
  split_and!; try reflexivity.
  - apply list_elem_of_here.
  - left. intros y Hy. inversion Hy.
Qed.

(** The two years of the specification, texts, a float and years that
    do not parse, through [check_validity] itself. *)
Example check_validity_year_examples :
  column "flag_validity" (outcome_frame (check_validity (year_frame (VInt 2019)) ∅))
    = [VInt 0] ∧
  column "flag_validity" (outcome_frame (check_validity (year_frame (VInt 1850)) ∅))
    = [VInt 1] ∧
  column "flag_validity" (outcome_frame (check_validity (year_frame (VInt 1900)) ∅))
    = [VInt 0] ∧
  column "flag_validity" (outcome_frame (check_validity (year_frame (VInt 2031)) ∅))
    = [VInt 1] ∧
  column "flag_validity" (outcome_frame (check_validity (year_frame (VStr "2019")) ∅))
    = [VInt 0] ∧
  column "flag_validity" (outcome_frame (check_validity (year_frame (VStr "20x9")) ∅))
    = [VInt 1] ∧
  column "flag_validity"
    (outcome_frame (check_validity (year_frame (VStr (String "028" "2019"))) ∅))
    = [VInt 1] ∧
  column "flag_validity"
    (outcome_frame (check_validity (year_frame (VFloat (Float64 (4061 # 2) "2030.5"))) ∅))
    = [VInt 0].
Proof. vm_compute. done. Qed.

(** ** The currency unit (C6) *)

Section regex_facts.
Import Re.
Implicit Types (r : regex) (s : string) (p : ascii → bool).










End regex_facts.

Section currency.
Implicit Types (df : DataFrame) (r : record).

End currency.




(** ** The annotated frame *)

Section annotated.
Implicit Types (df : DataFrame) (r : record) (c : string).

Lemma rows_after_uniqueness_eq df :
  rows (after_uniqueness df) = annotate_row df <$> rows df.
Proof.
  unfold after_uniqueness, after_validity, after_consistency, after_completeness.
  rewrite !rows_with_flag, <- !list_fmap_compose. done.
Qed.

Lemma elem_of_columns_after_uniqueness df c :
  c ∈ columns (after_uniqueness df) ↔ c ∈ columns df ∨ c ∈ dimension_flags.
Proof.
  unfold after_uniqueness, after_validity, after_consistency, after_completeness.
  rewrite !elem_of_columns_with_flag. unfold dimension_flags.
  rewrite !elem_of_cons, elem_of_nil. tauto.
Qed.

Lemma annotate_row_flags df r :
  ∃ a b c d : Z,
    annotate_row df r !! "flag_completeness" = Some (VInt a) ∧
    annotate_row df r !! "flag_consistency" = Some (VInt b) ∧
    annotate_row df r !! "flag_validity" = Some (VInt c) ∧
    annotate_row df r !! "flag_uniqueness" = Some (VInt d) ∧
    (a = 0 ∨ a = 1) ∧ (b = 0 ∨ b = 1) ∧ (c = 0 ∨ c = 1) ∧ (d = 0 ∨ d = 1).
Proof.
  unfold annotate_row, annotate3, annotate2, annotate1. eexists _, _, _, _.
  split_and!; [by simplify_map_eq..| | | |].
  - apply completeness_row_bit.
  - apply consistency_row_bit.
  - apply validity_row_bit.
  - apply uniqueness_row_bit.
Qed.

Lemma annotate_row_other df r c :
  c ∉ dimension_flags → annotate_row df r !! c = r !! c.
Proof.
  unfold dimension_flags. rewrite !not_elem_of_cons. intros (? & ? & ? & ? & _).
  unfold annotate_row, annotate3, annotate2, annotate1.
  by rewrite !lookup_insert_ne.
Qed.

Lemma dimension_flags_are_flags c : c ∈ dimension_flags → is_flag_column c = true.
Proof.
  unfold dimension_flags. rewrite !elem_of_cons, elem_of_nil.
  intros [-> | [-> | [-> | [-> | []]]]]; done.
Qed.

Lemma flag_overall_not_dimension : "flag_overall" ∉ dimension_flags.
Proof. unfold dimension_flags. rewrite !not_elem_of_cons. split_and!; try done. apply not_elem_of_nil. Qed.

(** The record of a returning [run_all_checks]: the annotated record
    with the row maximum of its flag columns as [flag_overall]. *)
Lemma run_all_checks_row df s df' s' i r' :
  run_all_checks df s = Return df' s' →
  rows df' !! i = Some r' →
  ∃ r o,
    rows df !! i = Some r ∧
    row_max (cell (annotate_row df r) <$>
             filter (λ c, is_flag_column c = true) (columns (after_uniqueness df)))
      = Some o ∧
    r' = <["flag_overall" := o]> (annotate_row df r).
Proof.
  intros (_ & mc & mk & mv & mu & overall & _ & _ & Hmax & ->)%run_all_checks_inv Hr'.
  unfold set_column in Hr'. cbn [rows] in Hr'.
  apply lookup_zip_with_Some in Hr' as (r4 & o & -> & Hr4 & Ho).
  rewrite rows_after_uniqueness_eq, list_lookup_fmap in Hr4.
  destruct (rows df !! i) as [r|] eqn:Hr; [|done]. injection Hr4 as <-.
  exists r, o. split; [done|]. split; [|done].
  unfold flag_max in Hmax. apply mapM_Some in Hmax.
  rewrite rows_after_uniqueness_eq in Hmax.
  eapply Forall2_lookup_lr in Hmax; [exact Hmax | | exact Ho].
  by rewrite list_lookup_fmap, Hr.
Qed.
End annotated.

(** ** Row maxima *)

Section row_max.
Lemma Qle_bool_inject_Z (x y : Z) : Qle_bool (inject_Z x) (inject_Z y) = (x <=? y).
Proof. unfold Qle_bool. simpl. by rewrite !Z.mul_1_r. Qed.

Lemma max_cell_ints (x y : Z) : max_cell (VInt x) (VInt y) = Some (VInt (Z.max x y)).
Proof.
  simpl. rewrite Qle_bool_inject_Z. f_equal.
  destruct (Z.leb_spec x y); f_equal; lia.
Qed.

(** The maximum of a non-empty row of integers is one of them and
    bounds them all. *)
Lemma row_max_ints (vs : list value) :
  vs ≠ [] →
  (∀ v, v ∈ vs → ∃ z, v = VInt z) →
  ∃ m, row_max vs = Some (VInt m) ∧ VInt m ∈ vs ∧ ∀ z, VInt z ∈ vs → z ≤ m.
Proof.
  induction vs as [|v vs IH]; [done|]. intros _ Hall.
  destruct (Hall v) as [x ->]; [by left|].
  destruct vs as [|w vs].
  - exists x. split; [done|]. split; [by left|].
    intros z [[= ->] | Hin%elem_of_nil]%elem_of_cons; [lia | done].
  - destruct IH as (m & Hm & Hin & Hle); [done | |].
    { intros v Hv. apply Hall. by right. }
    exists (Z.max x m). split_and!.
    + change (row_max (VInt x :: w :: vs)) with (row_max (w :: vs) ≫= max_cell (VInt x)).
      rewrite Hm. simpl. apply max_cell_ints.
    + destruct (Z.max_spec x m) as [[_ ->] | [_ ->]]; [by right | by left].
    + intros z [[= ->] | Hz]%elem_of_cons; [lia|].
      specialize (Hle z Hz). lia.
Qed.
End row_max.

(** ** The overall flag (C1, C9) *)

Section overall.
Implicit Types (df : DataFrame) (r : record).

Lemma dimension_flag_in_flag_columns df f :
  f ∈ dimension_flags → f ∈ flag_columns_of df.
Proof.
  intros Hf. apply list_elem_of_filter. split.
  - by apply dimension_flags_are_flags.
  - apply elem_of_columns_after_uniqueness. by right.
Qed.

Lemma flag_columns_of_cases df f :
  f ∈ flag_columns_of df →
  f ∈ dimension_flags ∨
  ((f ∉ dimension_flags) ∧ f ∈ columns df ∧ is_flag_column f = true).
Proof.
  intros [Hflag Hcol]%list_elem_of_filter.
  apply elem_of_columns_after_uniqueness in Hcol.
  destruct (decide (f ∈ dimension_flags)); [by left | right]. naive_solver.
Qed.

Lemma cell_lookup r f v : r !! f = Some v → cell r f = v.
Proof. intros H. unfold cell. by rewrite H. Qed.

Lemma cell_annotate_row_other df r f :
  f ∉ dimension_flags → cell (annotate_row df r) f = cell r f.
Proof. intros H. unfold cell. by rewrite annotate_row_other. Qed.
End overall.

(** C9, as the code has it.  After [run_all_checks] has returned there
    is one record per input record, and in each of them the four
    dimension flags hold 0 or 1.  [flag_overall] holds 0 or 1 as well
    provided every other column of the input whose name starts with
    [flag_] holds 0 or 1 in every record, which is the case in particular
    when the input has no such column. *)
Theorem flag_columns_are_bits (df df' : DataFrame) (s s' : issues) :
  run_all_checks df s = Return df' s' →
  length (rows df') = length (rows df) ∧
  (∀ i r' f, rows df' !! i = Some r' → f ∈ dimension_flags →
             ∃ v, r' !! f = Some v ∧ is_bit v) ∧
  ((∀ r f, r ∈ rows df → f ∈ columns df → is_flag_column f = true →
           f ∉ dimension_flags → is_bit (cell r f)) →
   ∀ i r', rows df' !! i = Some r' → ∃ v, r' !! "flag_overall" = Some v ∧ is_bit v).
Proof.
  intros Hrun. split; [by eapply run_all_checks_length|]. split.
  - intros i r' f Hr' Hf.
    destruct (run_all_checks_row _ _ _ _ _ _ Hrun Hr') as (r & o & Hr & Ho & ->).
    assert (f ≠ "flag_overall") as Hne.
    { intros ->. by apply flag_overall_not_dimension. }
    rewrite lookup_insert_ne by done.
    destruct (annotate_row_flags df r) as (a & b & c & d & Ha & Hb & Hc & Hd & Hbits).
    unfold dimension_flags in Hf. rewrite !elem_of_cons, elem_of_nil in Hf.
    unfold is_bit.
    destruct Hf as [-> | [-> | [-> | [-> | []]]]]; eexists; (split; [eassumption|]);
      naive_solver.
  - intros Hother i r' Hr'.
    destruct (run_all_checks_row _ _ _ _ _ _ Hrun Hr') as (r & o & Hr & Ho & ->).
    rewrite lookup_insert_eq. exists o. split; [done|].
    fold (flag_columns_of df) in Ho.
    assert (∀ v, v ∈ cell (annotate_row df r) <$> flag_columns_of df → is_bit v) as Hbits.
    { intros v (f & -> & Hf)%list_elem_of_fmap.
      destruct (flag_columns_of_cases df f Hf) as [Hdim | (Hnd & Hcol & Hflag)].
      - destruct (annotate_row_flags df r) as (a & b & c & d & Ha & Hb & Hc & Hd & Hab).
        unfold dimension_flags in Hdim. rewrite !elem_of_cons, elem_of_nil in Hdim.
        unfold is_bit.
        destruct Hdim as [-> | [-> | [-> | [-> | []]]]];
          erewrite cell_lookup by eassumption; naive_solver.
      - rewrite cell_annotate_row_other by done.
        apply Hother; try done. apply list_elem_of_lookup. eauto. }
    destruct (row_max_ints (cell (annotate_row df r) <$> flag_columns_of df))
      as (m & Hm & Hin & _).
    + intros Hnil. apply fmap_nil_inv in Hnil.
      pose proof (dimension_flag_in_flag_columns df "flag_completeness") as Hc.
      rewrite Hnil in Hc. eapply not_elem_of_nil, Hc. unfold dimension_flags. by left.
    + intros v Hv. destruct (Hbits v Hv) as [-> | ->]; eauto.
    + rewrite Hm in Ho. injection Ho as <-. by apply Hbits.
Qed.

Lemma flag_columns_are_bits_witness :
  length (rows sample_checked) = length (rows sample) ∧
  (∀ i r' f, rows sample_checked !! i = Some r' → f ∈ dimension_flags →
             ∃ v, r' !! f = Some v ∧ is_bit v) ∧
  ((∀ r f, r ∈ rows sample → f ∈ columns sample → is_flag_column f = true →
           f ∉ dimension_flags → is_bit (cell r f)) →
   ∀ i r', rows sample_checked !! i = Some r' →
           ∃ v, r' !! "flag_overall" = Some v ∧ is_bit v).
Proof.
  apply (flag_columns_are_bits sample sample_checked ∅ sample_issues).
  vm_compute. reflexivity.
Defined.

(** C9 as stated fails on a data set that brings a column of its own
    named [flag_...]: the maximum over all flag columns copies its 3
    into [flag_overall]. *)
Lemma flag_columns_are_bits_counterexample :
  ∃ df' s',
    run_all_checks priority_frame ∅ = Return df' s' ∧
    column "flag_overall" df' = [VInt 3] ∧
    ¬ is_bit (VInt 3).
Proof.
  eexists _, _. split; [vm_compute; reflexivity|].
  split; [vm_compute; reflexivity|].
  intros [? | ?]; discriminate.
Qed.

(** C1, as the code has it.  [flag_overall] is the maximum over every
    column whose name starts with [flag_]; on a data set that has no such
    column besides the four dimension flags it is therefore the maximum
    of [flag_completeness], [flag_consistency], [flag_validity] and
    [flag_uniqueness] of the record. *)
Theorem flag_overall_is_max (df df' : DataFrame) (s s' : issues) (i : nat) (r' : record) :
  (∀ f, f ∈ columns df → is_flag_column f = true → f ∈ dimension_flags) →
  run_all_checks df s = Return df' s' →
  rows df' !! i = Some r' →
  ∃ a b c d : Z,
    r' !! "flag_completeness" = Some (VInt a) ∧
    r' !! "flag_consistency" = Some (VInt b) ∧
    r' !! "flag_validity" = Some (VInt c) ∧
    r' !! "flag_uniqueness" = Some (VInt d) ∧
    r' !! "flag_overall" = Some (VInt (Z.max a (Z.max b (Z.max c d)))).
Proof.
  intros Honly Hrun Hr'.
  destruct (run_all_checks_row _ _ _ _ _ _ Hrun Hr') as (r & o & Hr & Ho & ->).
  destruct (annotate_row_flags df r) as (a & b & c & d & Ha & Hb & Hc & Hd & _).
  exists a, b, c, d. rewrite !lookup_insert_ne by done.
  do 4 (split; [done|]). rewrite lookup_insert_eq. f_equal.
  fold (flag_columns_of df) in Ho.
  assert (∀ v, v ∈ cell (annotate_row df r) <$> flag_columns_of df →
               v ∈ [VInt a; VInt b; VInt c; VInt d]) as Hfour.
  { intros v (f & -> & Hf)%list_elem_of_fmap.
    destruct (flag_columns_of_cases df f Hf) as [Hdim | (Hnd & Hcol & Hflag)].
    - unfold dimension_flags in Hdim. rewrite !elem_of_cons, elem_of_nil in Hdim.
      destruct Hdim as [-> | [-> | [-> | [-> | []]]]];
        erewrite cell_lookup by eassumption; set_solver.
    - destruct Hnd. by apply Honly. }
  assert (∀ f v, f ∈ dimension_flags → annotate_row df r !! f = Some v →
                 v ∈ cell (annotate_row df r) <$> flag_columns_of df) as Hpresent.
  { intros f v Hf Hv. apply list_elem_of_fmap. exists f.
    split; [by rewrite (cell_lookup _ _ _ Hv) | by apply dimension_flag_in_flag_columns]. }
  destruct (row_max_ints (cell (annotate_row df r) <$> flag_columns_of df))
    as (m & Hm & Hin & Hle).
  - intros Hnil. apply (Hpresent _ _ ltac:(unfold dimension_flags; by left)) in Ha.
    rewrite Hnil in Ha. by apply elem_of_nil in Ha.
  - intros v Hv. apply Hfour in Hv. set_solver.
  - rewrite Hm in Ho. injection Ho as <-. f_equal.
    assert (a ≤ m ∧ b ≤ m ∧ c ≤ m ∧ d ≤ m) as Hbound.
    { unfold dimension_flags in Hpresent.
      split_and!; apply Hle; eapply Hpresent; try eassumption; set_solver. }
    apply Hfour in Hin. rewrite !elem_of_cons, elem_of_nil in Hin.
    destruct Hin as [[= ->] | [[= ->] | [[= ->] | [[= ->] | []]]]]; lia.
Qed.

Lemma flag_overall_is_max_witness :
  ∃ a b c d : Z,
    sample_checked_row !! "flag_completeness" = Some (VInt a) ∧
    sample_checked_row !! "flag_consistency" = Some (VInt b) ∧
    sample_checked_row !! "flag_validity" = Some (VInt c) ∧
    sample_checked_row !! "flag_uniqueness" = Some (VInt d) ∧
    sample_checked_row !! "flag_overall" = Some (VInt (Z.max a (Z.max b (Z.max c d)))).
Proof.
  apply (flag_overall_is_max sample sample_checked ∅ sample_issues 1%nat
           sample_checked_row).
  - intros f Hf. unfold sample in Hf. cbn [columns] in Hf.
    rewrite !elem_of_cons, elem_of_nil in Hf.
    destruct Hf as [-> | [-> | [-> | [-> | []]]]]; vm_compute; discriminate.
  - vm_compute. reflexivity.
  - vm_compute. reflexivity.
Defined.

(** C1 as stated fails on a data set that still carries the
    [flag_overall] of an earlier run: the four dimension flags of the
    clean record are 0 and [flag_overall] stays 1. *)
Lemma flag_overall_is_max_counterexample :
  ∃ df' s',
    run_all_checks stale_overall_frame ∅ = Return df' s' ∧
    column "flag_completeness" df' = [VInt 0] ∧
    column "flag_consistency" df' = [VInt 0] ∧
    column "flag_validity" df' = [VInt 0] ∧
    column "flag_uniqueness" df' = [VInt 0] ∧
    column "flag_overall" df' = [VInt 1].
Proof. eexists _, _. vm_compute. done. Qed.

(** ** Running the evaluators twice (C8) *)

Section list_facts.
Context {A : Type}.
Implicit Types (l : list A).

Lemma filter_ext_in (P Q : A → Prop) `{!∀ x, Decision (P x)} `{!∀ x, Decision (Q x)} l :
  (∀ x, x ∈ l → P x ↔ Q x) → filter P l = filter Q l.
Proof.
  induction l as [|a l IH]; intros Heq; [done|].
  rewrite !filter_cons, IH by (intros x Hx; apply Heq; by right).
  destruct (decide (P a)) as [Ha|Ha], (decide (Q a)) as [Hb|Hb]; try done.
  - destruct Hb. apply Heq; [by left | done].
  - destruct Ha. apply Heq; [by left | done].
Qed.

Lemma length_filter_fmap (P Q : A → Prop) `{!∀ x, Decision (P x)} `{!∀ x, Decision (Q x)}
    (g : A → A) l :
  (∀ x, P (g x) ↔ Q x) →
  length (filter P (g <$> l)) = length (filter Q l).
Proof.
  intros Heq. induction l as [|a l IH]; [done|].
  rewrite fmap_cons, !filter_cons.
  destruct (decide (P (g a))) as [Ha|Ha], (decide (Q a)) as [Hb|Hb]; simpl;
    rewrite ?IH; try done.
  - destruct Hb. by apply Heq.
  - destruct Ha. by apply Heq.
Qed.

Lemma existsb_ext_in (f g : A → bool) l :
  (∀ x, x ∈ l → f x = g x) → existsb f l = existsb g l.
Proof.
  induction l as [|a l IH]; intros Heq; simpl; [done|].
  rewrite IH by (intros x Hx; apply Heq; by right).
  by rewrite (Heq a) by by left.
Qed.

Lemma existsb_fmap {B} (f : B → bool) (g : A → B) l :
  existsb f (g <$> l) = existsb (f ∘ g) l.
Proof. induction l as [|a l IH]; simpl; [done | by rewrite <- IH]. Qed.

Lemma existsb_all_false (f : A → bool) l :
  (∀ x, x ∈ l → f x = false) → existsb f l = false.
Proof.
  induction l as [|a l IH]; intros Hf; simpl; [done|].
  rewrite IH by (intros x Hx; apply Hf; by right).
  by rewrite (Hf a) by by left.
Qed.

Lemma take_min_length (k : nat) l : take (Nat.min k (length l)) l = take k l.
Proof.
  destruct (Nat.le_ge_cases k (length l)) as [Hle|Hge].
  - by rewrite Nat.min_l.
  - rewrite Nat.min_r by done. by rewrite !take_ge by lia.
Qed.

Lemma fmap_id_in (g : A → A) l : (∀ x, x ∈ l → g x = x) → g <$> l = l.
Proof.
  induction l as [|a l IH]; intros Hg; csimpl; [done|].
  rewrite Hg by by left. f_equal. apply IH. intros x Hx. apply Hg. by right.
Qed.
End list_facts.

Section idempotence.
Implicit Types (df : DataFrame) (r : record) (c f : string).

Lemma with_flag_id f (g : record → Z) df :
  f ∈ columns df →
  (∀ r, r ∈ rows df → r !! f = Some (VInt (g r))) →
  with_flag f g df = df.
Proof.
  intros Hcol Hrows. destruct df as [cols rs]. unfold with_flag. simpl in *.
  rewrite has_column_true by done. f_equal.
  apply fmap_id_in. intros r Hr. by apply insert_id, Hrows.
Qed.

Lemma not_flag_not_dimension c : is_flag_column c = false → c ∉ dimension_flags.
Proof. intros Hc Hd%dimension_flags_are_flags. congruence. Qed.

Lemma critical_not_flag c : c ∈ critical_columns → is_flag_column c = false.
Proof.
  unfold critical_columns. rewrite !elem_of_cons, elem_of_nil.
  intros H. destruct_or!; subst; done.
Qed.

Lemma key_not_flag c : c ∈ key_columns → is_flag_column c = false.
Proof.
  unfold key_columns. rewrite !elem_of_cons, elem_of_nil.
  intros H. destruct_or!; subst; done.
Qed.

(** *** Columns and cells outside the dimension flags *)

Lemma same_raw_columns_with_flag f g df :
  f ∈ dimension_flags → same_raw_columns (with_flag f g df) df.
Proof. intros Hf c Hc. apply has_column_with_flag. by intros ->. Qed.

Lemma same_raw_cells_insert f v r :
  f ∈ dimension_flags → same_raw_cells (<[f := v]> r) r.
Proof. intros Hf c Hc. apply cell_insert_ne. by intros ->. Qed.

Lemma same_raw_columns_trans df1 df2 df3 :
  same_raw_columns df1 df2 → same_raw_columns df2 df3 → same_raw_columns df1 df3.
Proof. intros H1 H2 c Hc. by rewrite H1, H2. Qed.

Lemma same_raw_cells_trans r1 r2 r3 :
  same_raw_cells r1 r2 → same_raw_cells r2 r3 → same_raw_cells r1 r3.
Proof. intros H1 H2 c Hc. by rewrite H1, H2. Qed.

Ltac dimension_flag := unfold dimension_flags; set_solver.

Lemma same_raw_after_completeness df : same_raw_columns (after_completeness df) df.
Proof. apply same_raw_columns_with_flag. dimension_flag. Qed.

Lemma same_raw_after_consistency df : same_raw_columns (after_consistency df) df.
Proof.
  eapply same_raw_columns_trans; [|apply same_raw_after_completeness].
  apply same_raw_columns_with_flag. dimension_flag.
Qed.

Lemma same_raw_after_validity df : same_raw_columns (after_validity df) df.
Proof.
  eapply same_raw_columns_trans; [|apply same_raw_after_consistency].
  apply same_raw_columns_with_flag. dimension_flag.
Qed.

Lemma same_raw_after_uniqueness df : same_raw_columns (after_uniqueness df) df.
Proof.
  eapply same_raw_columns_trans; [|apply same_raw_after_validity].
  apply same_raw_columns_with_flag. dimension_flag.
Qed.

Lemma same_raw_annotate1 df r : same_raw_cells (annotate1 df r) r.
Proof. apply same_raw_cells_insert. dimension_flag. Qed.

Lemma same_raw_annotate2 df r : same_raw_cells (annotate2 df r) r.
Proof.
  eapply same_raw_cells_trans; [|apply same_raw_annotate1].
  apply same_raw_cells_insert. dimension_flag.
Qed.

Lemma same_raw_annotate3 df r : same_raw_cells (annotate3 df r) r.
Proof.
  eapply same_raw_cells_trans; [|apply same_raw_annotate2].
  apply same_raw_cells_insert. dimension_flag.
Qed.

Lemma same_raw_annotate_row df r : same_raw_cells (annotate_row df r) r.
Proof.
  eapply same_raw_cells_trans; [|apply same_raw_annotate3].
  apply same_raw_cells_insert. dimension_flag.
Qed.

(** *** The row checks read raw columns only *)

Lemma consistency_row_ext df df' r r' :
  same_raw_columns df df' → same_raw_cells r r' →
  consistency_row df r = consistency_row df' r'.
Proof.
  intros Hcols Hcells.
  unfold consistency_row, currency_block, ipo_block, status_block, company_block.
  rewrite !(Hcols "companynameofficial"), !(Hcols "operationstatustype"),
    !(Hcols "ipostatustype"), !(Hcols "unit_REVENUE") by dimension_flag.
  rewrite !(Hcells "companynameofficial"), !(Hcells "operationstatustype"),
    !(Hcells "ipostatustype"), !(Hcells "unit_REVENUE") by dimension_flag.
  done.
Qed.

Lemma validity_row_ext df df' r r' :
  same_raw_columns df df' → same_raw_cells r r' →
  validity_row df r = validity_row df' r'.
Proof.
  intros Hcols Hcells.
  unfold validity_row, industry_block, fiscal_block, revenue_block, year_block.
  rewrite !(Hcols "timevalue"), !(Hcols "REVENUE"),
    !(Hcols "fiscalperiodend"), !(Hcols "industrycode") by dimension_flag.
  rewrite !(Hcells "timevalue"), !(Hcells "REVENUE"),
    !(Hcells "fiscalperiodend"), !(Hcells "industrycode") by dimension_flag.
  done.
Qed.

(** *** Completeness on the annotated frame *)

Lemma same_raw_elem_of df df' c :
  same_raw_columns df df' → c ∉ dimension_flags →
  c ∈ columns df ↔ c ∈ columns df'.
Proof.
  intros Hcols Hc. specialize (Hcols c Hc). unfold has_column in Hcols.
  rewrite <- (bool_decide_eq_true (c ∈ columns df)).
  rewrite <- (bool_decide_eq_true (c ∈ columns df')).
  by rewrite Hcols.
Qed.

Lemma existing_critical_same_raw df df' :
  same_raw_columns df df' →
  filter (λ c, c ∈ columns df) critical_columns =
  filter (λ c, c ∈ columns df') critical_columns.
Proof.
  intros Hcols. apply filter_ext_in. intros c Hc.
  by apply same_raw_elem_of, not_flag_not_dimension, critical_not_flag.
Qed.

Lemma columns_after_uniqueness_fresh df :
  (∀ f, f ∈ dimension_flags → f ∉ columns df) →
  columns (after_uniqueness df) = columns df ++ dimension_flags.
Proof.
  intros Hfresh.
  unfold after_uniqueness, after_validity, after_consistency, after_completeness.
  assert ("flag_completeness" ∉ columns df) by (apply Hfresh; dimension_flag).
  assert ("flag_consistency" ∉ columns df) by (apply Hfresh; dimension_flag).
  assert ("flag_validity" ∉ columns df) by (apply Hfresh; dimension_flag).
  assert ("flag_uniqueness" ∉ columns df) by (apply Hfresh; dimension_flag).
  rewrite columns_with_flag_new; rewrite columns_with_flag_new;
    rewrite columns_with_flag_new; rewrite columns_with_flag_new;
    rewrite ?not_elem_of_app, ?not_elem_of_cons; try done;
    [by rewrite <- !app_assoc | split_and!; try done; apply not_elem_of_nil ..].
Qed.

Lemma isnull_annotate_flag df r f :
  f ∈ dimension_flags → isnull (cell (annotate_row df r) f) = false.
Proof.
  intros Hf.
  destruct (annotate_row_flags df r) as (a & b & c' & d & Ha & Hb & Hc & Hd & _).
  unfold dimension_flags in Hf. rewrite !elem_of_cons, elem_of_nil in Hf.
  destruct_or!; subst; try done; by erewrite cell_lookup by eassumption.
Qed.

Lemma completeness_row_annotated df r :
  (∃ c, c ∈ critical_columns ∧ c ∈ columns df) ∨
  (∀ f, f ∈ dimension_flags → f ∉ columns df) →
  completeness_row (after_uniqueness df) (annotate_row df r) = completeness_row df r.
Proof.
  intros Hraw. unfold completeness_row. f_equal.
  pose proof (same_raw_annotate_row df r) as Hcells.
  unfold completeness_columns.
  rewrite (existing_critical_same_raw _ _ (same_raw_after_uniqueness df)).
  destruct (filter (λ c, c ∈ columns df) critical_columns) as [|x l] eqn:E.
  - destruct Hraw as [(c0 & Hc0 & Hin0) | Hfresh].
    { assert (c0 ∈ filter (λ c, c ∈ columns df) critical_columns) as Hin
        by by apply list_elem_of_filter.
      rewrite E in Hin. by apply elem_of_nil in Hin. }
    rewrite !take_min_length, columns_after_uniqueness_fresh by done.
    rewrite take_app, existsb_app.
    rewrite (existsb_all_false _ (take _ dimension_flags)), orb_false_r.
    + apply existsb_ext_in. intros c (j & Hj & _)%elem_of_take.
      rewrite Hcells; [done|]. intros Hd. eapply Hfresh; [exact Hd|].
      apply list_elem_of_lookup. eauto.
    + intros f (j & Hj & _)%elem_of_take. apply isnull_annotate_flag.
      apply list_elem_of_lookup. eauto.
  - apply existsb_ext_in. intros c Hc. rewrite Hcells; [done|].
    rewrite <- E in Hc. apply list_elem_of_filter in Hc as [_ Hc].
    by apply not_flag_not_dimension, critical_not_flag.
Qed.

(** *** Uniqueness on a frame that already has its flag *)

Lemma uniqueness_columns_not_flag df c :
  c ∈ uniqueness_columns df → is_flag_column c = false.
Proof.
  unfold uniqueness_columns.
  destruct (filter (λ c, c ∈ columns df) key_columns) as [|x l] eqn:E.
  - by intros [? _]%list_elem_of_filter.
  - rewrite <- E. intros [_ Hc]%list_elem_of_filter. by apply key_not_flag.
Qed.

Lemma uniqueness_columns_with_flag f g df :
  is_flag_column f = true →
  uniqueness_columns (with_flag f g df) = uniqueness_columns df.
Proof.
  intros Hf. unfold uniqueness_columns.
  assert (filter (λ c, c ∈ columns (with_flag f g df)) key_columns =
          filter (λ c, c ∈ columns df) key_columns) as ->.
  { apply filter_ext_in. intros c Hc. rewrite elem_of_columns_with_flag.
    apply key_not_flag in Hc. split; [intros [?| ->]; [done|congruence] | by left]. }
  destruct (filter (λ c, c ∈ columns df) key_columns); [|done].
  simpl. unfold has_column. case_bool_decide; [done|].
  rewrite filter_app, filter_cons, decide_False, filter_nil by congruence.
  by rewrite app_nil_r.
Qed.

Lemma key_of_insert cols f v r :
  f ∉ cols → key_of cols (<[f := v]> r) = key_of cols r.
Proof.
  intros Hf. unfold key_of. apply list_fmap_ext. intros _ c Hc%list_elem_of_lookup_2.
  apply cell_insert_ne. by intros ->.
Qed.

Lemma uniqueness_row_with_flag f g df v r :
  is_flag_column f = true →
  uniqueness_row (with_flag f g df) (<[f := v]> r) = uniqueness_row df r.
Proof.
  intros Hf. unfold uniqueness_row.
  rewrite uniqueness_columns_with_flag, rows_with_flag by done.
  assert (f ∉ uniqueness_columns df) as Hnot.
  { intros Hin%uniqueness_columns_not_flag. congruence. }
  rewrite key_of_insert by done.
  f_equal. apply bool_decide_ext.
  rewrite (length_filter_fmap _
             (λ r', key_eqb (key_of (uniqueness_columns df) r)
                            (key_of (uniqueness_columns df) r') = true)); [done|].
  intros r'. by rewrite key_of_insert.
Qed.

(** *** The annotated frame is a fixed point of the four evaluators *)

Lemma elem_of_rows_after_uniqueness df r4 :
  r4 ∈ rows (after_uniqueness df) → ∃ r, r4 = annotate_row df r ∧ r ∈ rows df.
Proof. rewrite rows_after_uniqueness_eq. apply list_elem_of_fmap. Qed.

Lemma after_uniqueness_fixed_point df :
  (∃ c, c ∈ critical_columns ∧ c ∈ columns df) ∨
  (∀ f, f ∈ dimension_flags → f ∉ columns df) →
  after_uniqueness (after_uniqueness df) = after_uniqueness df.
Proof.
  intros Hraw. set (df1 := after_uniqueness df).
  assert (∀ f, f ∈ dimension_flags → f ∈ columns df1) as Hcols.
  { intros f Hf. apply elem_of_columns_after_uniqueness. by right. }
  assert (after_completeness df1 = df1) as H1.
  { apply with_flag_id; [apply Hcols; dimension_flag|].
    intros r4 (r & -> & _)%elem_of_rows_after_uniqueness.
    unfold df1. rewrite completeness_row_annotated by done.
    unfold annotate_row, annotate3, annotate2, annotate1. by simplify_map_eq. }
  assert (after_consistency df1 = df1) as H2.
  { unfold after_consistency. rewrite H1.
    apply with_flag_id; [apply Hcols; dimension_flag|].
    intros r4 (r & -> & _)%elem_of_rows_after_uniqueness.
    rewrite (consistency_row_ext df1 (after_completeness df) _ (annotate1 df r)).
    - unfold annotate_row, annotate3, annotate2. by simplify_map_eq.
    - intros c Hc. unfold df1.
      by rewrite same_raw_after_uniqueness, same_raw_after_completeness.
    - intros c Hc. by rewrite same_raw_annotate_row, same_raw_annotate1. }
  assert (after_validity df1 = df1) as H3.
  { unfold after_validity. rewrite H2.
    apply with_flag_id; [apply Hcols; dimension_flag|].
    intros r4 (r & -> & _)%elem_of_rows_after_uniqueness.
    rewrite (validity_row_ext df1 (after_consistency df) _ (annotate2 df r)).
    - unfold annotate_row, annotate3. by simplify_map_eq.
    - intros c Hc. unfold df1.
      by rewrite same_raw_after_uniqueness, same_raw_after_consistency.
    - intros c Hc. by rewrite same_raw_annotate_row, same_raw_annotate2. }
  unfold after_uniqueness at 1. fold df1. rewrite H3.
  apply with_flag_id; [apply Hcols; dimension_flag|].
  intros r4 (r & -> & _)%elem_of_rows_after_uniqueness.
  unfold df1 at 1. unfold after_uniqueness, annotate_row.
  rewrite uniqueness_row_with_flag by done.
  by rewrite lookup_insert_eq.
Qed.

(** *** What a run needs of the raw data *)

Lemma validity_raises_ext df df' r r' :
  same_raw_columns df df' → same_raw_cells r r' →
  validity_raises df r = validity_raises df' r'.
Proof.
  intros Hcols Hcells. unfold validity_raises, year_raises, revenue_raises.
  rewrite !(Hcols "timevalue"), !(Hcols "REVENUE") by dimension_flag.
  rewrite !(Hcells "timevalue"), !(Hcells "REVENUE") by dimension_flag.
  done.
Qed.

Lemma raises_after_consistency df :
  existsb (validity_raises (after_consistency df)) (rows (after_consistency df))
  = existsb (validity_raises df) (rows df).
Proof.
  unfold after_consistency at 2, after_completeness.
  rewrite !rows_with_flag, <- list_fmap_compose, existsb_fmap.
  apply existsb_ext_in. intros r _. simpl.
  apply validity_raises_ext; [apply same_raw_after_consistency|].
  apply (same_raw_annotate2 df r).
Qed.

Lemma raises_after_uniqueness df :
  existsb (validity_raises (after_uniqueness df)) (rows (after_uniqueness df))
  = existsb (validity_raises df) (rows df).
Proof.
  rewrite rows_after_uniqueness_eq, existsb_fmap.
  apply existsb_ext_in. intros r _. simpl.
  apply validity_raises_ext; [apply same_raw_after_uniqueness|].
  apply same_raw_annotate_row.
Qed.

Lemma uniqueness_columns_after_validity df :
  uniqueness_columns (after_validity df) = uniqueness_columns df.
Proof.
  unfold after_validity, after_consistency, after_completeness.
  by rewrite !uniqueness_columns_with_flag.
Qed.

Lemma uniqueness_columns_after_uniqueness df :
  uniqueness_columns (after_uniqueness df) = uniqueness_columns df.
Proof.
  unfold after_uniqueness.
  by rewrite uniqueness_columns_with_flag, uniqueness_columns_after_validity.
Qed.

(** The run goes through when the raw data has a record, no record
    that overflows, and a column to compare. *)
Lemma evaluators_pass_raw df :
  evaluators_pass df ↔
  rows df ≠ [] ∧ existsb (validity_raises df) (rows df) = false ∧
  uniqueness_columns df ≠ [].
Proof.
  unfold evaluators_pass.
  by rewrite raises_after_consistency, uniqueness_columns_after_validity.
Qed.

Lemma evaluators_pass_after_uniqueness df :
  evaluators_pass df → evaluators_pass (after_uniqueness df).
Proof.
  rewrite !evaluators_pass_raw. intros (Hne & Hok & Hcols).
  rewrite raises_after_uniqueness, uniqueness_columns_after_uniqueness.
  split_and!; try done. eapply nonempty_length; [apply rows_after_uniqueness | done].
Qed.
End idempotence.

(** C8, as the code has it.  When the raw data set has at least one of
    the critical columns, or no column named like one of the four
    dimension flags, running the four evaluators on the frame a first run
    has annotated returns that very frame: the same columns and, in every
    record, the same values, so every flag column is unchanged. *)
Theorem run_evaluators_twice (df df1 : DataFrame) (s s1 : issues) :
  (∃ c, c ∈ critical_columns ∧ c ∈ columns df) ∨
  (∀ f, f ∈ dimension_flags → f ∉ columns df) →
  run_evaluators df s = Return df1 s1 →
  ∃ df2 s2,
    run_evaluators df1 s1 = Return df2 s2 ∧
    df2 = df1 ∧
    ∀ f, f ∈ dimension_flags → column f df2 = column f df1.
Proof.
  intros Hraw Hrun.
  pose proof (run_evaluators_returns _ _ _ _ Hrun) as Hpass.
  destruct (run_evaluators_eq df s Hpass) as (mc & mk & mv & mu & Heq & _).
  rewrite Heq in Hrun. injection Hrun as <- <-.
  destruct (run_evaluators_eq (after_uniqueness df) (four_measures mc mk mv mu s)
              (evaluators_pass_after_uniqueness _ Hpass))
    as (mc' & mk' & mv' & mu' & Heq' & _).
  rewrite after_uniqueness_fixed_point in Heq' by done.
  eexists _, _. split; [exact Heq'|]. done.
Qed.

Lemma run_evaluators_twice_witness :
  ∃ df2 s2,
    run_evaluators (outcome_frame (run_evaluators sample ∅))
                   (outcome_issues (run_evaluators sample ∅)) = Return df2 s2 ∧
    df2 = outcome_frame (run_evaluators sample ∅) ∧
    ∀ f, f ∈ dimension_flags →
         column f df2 = column f (outcome_frame (run_evaluators sample ∅)).
Proof.
  apply (run_evaluators_twice sample (outcome_frame (run_evaluators sample ∅)) ∅
           (outcome_issues (run_evaluators sample ∅))).
  - left. exists "timevalue". split; [unfold critical_columns | unfold sample; simpl];
      by left.
  - vm_compute. reflexivity.
Defined.

(** C8 as stated fails on a data set without critical columns whose
    [flag_completeness] column is still blank: the first run inspects
    the blank column and sets the flag, the second run finds it filled in
    and clears the flag. *)
Lemma run_evaluators_twice_counterexample :
  ∃ df1 s1 df2 s2,
    run_evaluators blank_flag_frame ∅ = Return df1 s1 ∧
    run_evaluators df1 s1 = Return df2 s2 ∧
    column "flag_completeness" df1 = [VInt 1] ∧
    column "flag_completeness" df2 = [VInt 0].
Proof.
  eexists _, _, _, _. split; [vm_compute; reflexivity|].
  split; [vm_compute; reflexivity|]. vm_compute. done.
Qed.

(** * Further properties of the code *)

(** ** The flags and the measures of one run (X1 to X3) *)

Section run_explicit.
Implicit Types (df : DataFrame) (s : issues) (r : record).

Lemma run_evaluators_measures df s :
  evaluators_pass df →
  run_evaluators df s = Return (after_uniqueness df) (run_measures df s).
Proof.
  intros (Hne & Hok & Hcols). unfold run_evaluators.
  pose proof (nonempty_length _ _ (rows_after_completeness df) Hne) as Hne1.
  pose proof (nonempty_length _ _ (rows_after_consistency df) Hne) as Hne2.
  unfold mbind, method_bind, bind.
  rewrite check_completeness_eq.
  rewrite check_consistency_eq by exact Hne1.
  rewrite check_validity_eq by (exact Hne2 || exact Hok).
  rewrite check_uniqueness_eq by (right; exact Hcols). reflexivity.
Qed.

Lemma run_evaluators_pass df s df' s' :
  run_evaluators df s = Return df' s' →
  evaluators_pass df ∧ df' = after_uniqueness df ∧ s' = run_measures df s.
Proof.
  intros Hrun. pose proof (run_evaluators_returns _ _ _ _ Hrun) as Hpass.
  rewrite run_evaluators_measures in Hrun by done. by injection Hrun as <- <-.
Qed.

Lemma run_all_checks_pass df s df' s' :
  run_all_checks df s = Return df' s' → evaluators_pass df.
Proof.
  intros Hrun. unfold run_all_checks, mbind, method_bind, bind in Hrun.
  destruct (run_evaluators df s) as [e|df1 s1] eqn:Hev; [done|].
  by apply run_evaluators_returns in Hev.
Qed.

Lemma run_all_checks_measures df s df' s' :
  run_all_checks df s = Return df' s' →
  rows df ≠ [] ∧ s' = run_measures df s ∧
  ∃ overall, length overall = length (rows df) ∧
             df' = set_column "flag_overall" overall (after_uniqueness df).
Proof.
  intros Hrun. pose proof (run_all_checks_pass _ _ _ _ Hrun) as Hpass.
  unfold run_all_checks, mbind, method_bind, bind in Hrun.
  rewrite run_evaluators_measures in Hrun by done.
  destruct (flag_max (after_uniqueness df)) as [overall|] eqn:Hmax; [|done].
  injection Hrun as <- <-. split; [by destruct Hpass|]. split; [done|].
  exists overall. split; [|done].
  apply length_mapM in Hmax. by rewrite <- Hmax, rows_after_uniqueness.
Qed.

Lemma fmap_zip_with_ignore_r {A B C D} (g : C → D) (g' : A → D) (h : A → B → C)
    (l : list A) (k : list B) :
  length k = length l → (∀ a b, g (h a b) = g' a) →
  g <$> zip_with h l k = g' <$> l.
Proof.
  intros Hlen Hh. revert k Hlen. induction l as [|a l IH]; intros [|b k] Hlen;
    simplify_eq/=; [done|]. by rewrite Hh, IH.
Qed.

Lemma column_set_column_ne name vals df f :
  f ≠ name → length vals = length (rows df) →
  column f (set_column name vals df) = column f df.
Proof.
  intros Hne Hlen. unfold column, set_column. cbn [rows].
  apply fmap_zip_with_ignore_r; [done|]. intros r v. by apply cell_insert_ne.
Qed.

Lemma column_after_uniqueness df f :
  column f (after_uniqueness df) = (λ r, cell (annotate_row df r) f) <$> rows df.
Proof. unfold column. by rewrite rows_after_uniqueness_eq, <- list_fmap_compose. Qed.

Lemma column_with_flag_eq f g df :
  column f (with_flag f g df) = (λ r, VInt (g r)) <$> rows df.
Proof.
  unfold column. rewrite rows_with_flag, <- list_fmap_compose.
  apply list_fmap_ext. intros _ r _. simpl. apply cell_insert_eq.
Qed.

(** The flags of the annotated record, in terms of the raw frame. *)
Lemma annotate_row_raw df r :
  annotate_row df r !! "flag_completeness" = Some (VInt (completeness_row df r)) ∧
  annotate_row df r !! "flag_consistency" = Some (VInt (consistency_row df r)) ∧
  annotate_row df r !! "flag_validity" = Some (VInt (validity_row df r)) ∧
  annotate_row df r !! "flag_uniqueness" = Some (VInt (uniqueness_row df r)).
Proof.
  assert (consistency_row (after_completeness df) (annotate1 df r) = consistency_row df r)
    as Hk.
  { apply consistency_row_ext;
      [apply same_raw_after_completeness | apply same_raw_annotate1]. }
  assert (validity_row (after_consistency df) (annotate2 df r) = validity_row df r)
    as Hv.
  { apply validity_row_ext;
      [apply same_raw_after_consistency | apply same_raw_annotate2]. }
  assert (uniqueness_row (after_validity df) (annotate3 df r) = uniqueness_row df r)
    as Hu.
  { unfold after_validity, after_consistency, after_completeness,
      annotate3, annotate2, annotate1.
    by rewrite !uniqueness_row_with_flag. }
  unfold annotate_row. rewrite Hu. unfold annotate3 at 1 2 3. rewrite Hv.
  unfold annotate2 at 1 2. rewrite Hk. unfold annotate1.
  split_and!; by simplify_map_eq.
Qed.

Lemma column_dimension_flag df :
  column "flag_completeness" (after_uniqueness df)
    = (λ r, VInt (completeness_row df r)) <$> rows df ∧
  column "flag_consistency" (after_uniqueness df)
    = (λ r, VInt (consistency_row df r)) <$> rows df ∧
  column "flag_validity" (after_uniqueness df)
    = (λ r, VInt (validity_row df r)) <$> rows df ∧
  column "flag_uniqueness" (after_uniqueness df)
    = (λ r, VInt (uniqueness_row df r)) <$> rows df.
Proof.
  rewrite !column_after_uniqueness.
  split_and!; apply list_fmap_ext; intros _ r _;
    destruct (annotate_row_raw df r) as (Hc & Hk & Hv & Hu); by apply cell_lookup.
Qed.
End run_explicit.

(** X1.  Each of the four flag columns, after the evaluators of one run,
    holds what its evaluator writes when it is called alone on the data
    set as it was given: the flags written earlier in the run change no
    later flag. *)
Theorem flags_depend_on_raw_data (E : DataFrame → method DataFrame) (f : string)
    (df df' dfE : DataFrame) (s s' s0 sE : issues) :
  (E, f) ∈ evaluators →
  run_evaluators df s = Return df' s' →
  E df s0 = Return dfE sE →
  column f df' = column f dfE.
Proof.
  intros Hin Hrun HE.
  apply run_evaluators_pass in Hrun as (Hpass & -> & _).
  apply evaluators_pass_raw in Hpass as (Hne & Hok & Hcols).
  destruct (column_dimension_flag df) as (Hc & Hk & Hv & Hu).
  unfold evaluators in Hin.
  repeat (apply elem_of_cons in Hin as [[= -> ->] | Hin]).
  - rewrite check_completeness_eq in HE. injection HE as <- _.
    by rewrite Hc, column_with_flag_eq.
  - rewrite check_consistency_eq in HE by done. injection HE as <- _.
    by rewrite Hk, column_with_flag_eq.
  - rewrite check_validity_eq in HE by done. injection HE as <- _.
    by rewrite Hv, column_with_flag_eq.
  - rewrite check_uniqueness_eq in HE by by right. injection HE as <- _.
    by rewrite Hu, column_with_flag_eq.
  - by apply elem_of_nil in Hin.
Qed.

Lemma flags_depend_on_raw_data_witness :
  column "flag_uniqueness" (outcome_frame (run_evaluators sample ∅))
  = column "flag_uniqueness" (outcome_frame (check_uniqueness sample ∅)).
Proof.
  apply (flags_depend_on_raw_data check_uniqueness "flag_uniqueness" sample
           (outcome_frame (run_evaluators sample ∅))
           (outcome_frame (check_uniqueness sample ∅))
           ∅ (outcome_issues (run_evaluators sample ∅))
           ∅ (outcome_issues (check_uniqueness sample ∅))).
  - unfold evaluators. do 3 right. left.
  - vm_compute. reflexivity.
  - vm_compute. reflexivity.
Defined.

Section counts.
Implicit Types (df : DataFrame) (s : issues) (r : record).

Lemma count_true_cons (b : bool) (l : list bool) :
  count_true (b :: l) = int_of_bool b + count_true l.
Proof.
  unfold count_true. rewrite filter_cons.
  destruct b; [rewrite decide_True by done | rewrite decide_False by done];
    simpl; lia.
Qed.

Lemma sum_flags_count {A} (g : A → Z) (l : list A) :
  (∀ a, g a = 0 ∨ g a = 1) →
  sum_flags (g <$> l) = count_true ((λ a, is_flagged (VInt (g a))) <$> l).
Proof.
  intros Hbit. induction l as [|a l IH]; [done|].
  rewrite !fmap_cons, count_true_cons. cbn [sum_flags foldr].
  fold (sum_flags (g <$> l)). rewrite IH.
  by destruct (Hbit a) as [-> | ->].
Qed.

Lemma is_flagged_int_of_bool b : is_flagged (VInt (int_of_bool b)) = b.
Proof. by destruct b. Qed.

Lemma completeness_total df :
  total_issues (completeness_measure df)
  = count_true ((λ r, is_flagged (VInt (completeness_row df r))) <$> rows df).
Proof.
  simpl. unfold any_null. f_equal. apply list_fmap_ext. intros _ r _.
  unfold completeness_row. by destruct (existsb _ _).
Qed.

Lemma consistency_total df :
  total_issues (consistency_measure (after_completeness df))
  = count_true ((λ r, is_flagged (VInt (consistency_row df r))) <$> rows df).
Proof.
  simpl. rewrite <- list_fmap_compose.
  rewrite <- (sum_flags_count (consistency_row df)) by apply consistency_row_bit.
  f_equal. apply list_fmap_ext. intros _ r _. simpl.
  apply consistency_row_ext; [apply same_raw_after_completeness|].
  apply same_raw_annotate1.
Qed.

Lemma validity_total df :
  total_issues (validity_measure (after_consistency df))
  = count_true ((λ r, is_flagged (VInt (validity_row df r))) <$> rows df).
Proof.
  simpl. rewrite <- !list_fmap_compose.
  rewrite <- (sum_flags_count (validity_row df)) by apply validity_row_bit.
  f_equal. apply list_fmap_ext. intros _ r _. simpl.
  apply validity_row_ext; [apply same_raw_after_consistency|].
  apply (same_raw_annotate2 df r).
Qed.

Lemma key_repeated_uniqueness_row df :
  key_repeated (uniqueness_columns df) df
  = (λ r, is_flagged (VInt (uniqueness_row df r))) <$> rows df.
Proof.
  unfold key_repeated. apply list_fmap_ext. intros _ r _.
  unfold uniqueness_row. by destruct (bool_decide _).
Qed.

Lemma rows_after_validity_eq df :
  rows (after_validity df) = annotate3 df <$> rows df.
Proof.
  unfold after_validity, after_consistency, after_completeness.
  rewrite !rows_with_flag, <- !list_fmap_compose. done.
Qed.

Lemma uniqueness_total df :
  total_issues (uniqueness_measure (after_validity df))
  = count_true ((λ r, is_flagged (VInt (uniqueness_row df r))) <$> rows df).
Proof.
  cbn [total_issues uniqueness_measure].
  rewrite key_repeated_uniqueness_row, rows_after_validity_eq, <- list_fmap_compose.
  f_equal. apply list_fmap_ext. intros _ r _. simpl.
  destruct (annotate_row_raw df r) as (_ & _ & _ & Hu).
  unfold annotate_row in Hu. rewrite lookup_insert_eq in Hu. injection Hu as Hu.
  by rewrite Hu.
Qed.
End counts.

Lemma run_totals_flagged (df df' : DataFrame) (s s' : issues) :
  run_all_checks df s = Return df' s' →
  total_issues (completeness_measure df) = count_flagged "flag_completeness" df' ∧
  total_issues (consistency_measure (after_completeness df))
    = count_flagged "flag_consistency" df' ∧
  total_issues (validity_measure (after_consistency df))
    = count_flagged "flag_validity" df' ∧
  total_issues (uniqueness_measure (after_validity df))
    = count_flagged "flag_uniqueness" df'.
Proof.
  intros (Hne & -> & overall & Hlen & ->)%run_all_checks_measures.
  destruct (column_dimension_flag df) as (Hc & Hk & Hv & Hu).
  assert (∀ g, g ≠ "flag_overall" →
               count_flagged g (set_column "flag_overall" overall (after_uniqueness df))
               = count_true (is_flagged <$> column g (after_uniqueness df))) as Hcount.
  { intros g Hg. unfold count_flagged.
    rewrite column_set_column_ne; [done | done |].
    by rewrite rows_after_uniqueness. }
  rewrite !Hcount by done.
  rewrite Hc, Hk, Hv, Hu, <- !list_fmap_compose.
  rewrite completeness_total, consistency_total, validity_total, uniqueness_total.
  done.
Qed.

(** X2.  After [run_all_checks], the [total_issues] recorded for a
    dimension is the number of records whose flag column of that
    dimension holds 1. *)
Theorem total_issues_counts_flagged (df df' : DataFrame) (s s' : issues) (d f : string) :
  (d, f) ∈ dimension_table →
  run_all_checks df s = Return df' s' →
  ∃ m, s' !! d = Some m ∧ total_issues m = count_flagged f df'.
Proof.
  intros Hin Hrun.
  destruct (run_totals_flagged _ _ _ _ Hrun) as (Tc & Tk & Tv & Tu).
  destruct (run_all_checks_measures _ _ _ _ Hrun) as (_ & -> & _).
  destruct (lookup_four_measures (completeness_measure df)
              (consistency_measure (after_completeness df))
              (validity_measure (after_consistency df))
              (uniqueness_measure (after_validity df)) s) as (Lc & Lk & Lv & Lu).
  unfold dimension_table in Hin.
  repeat (apply elem_of_cons in Hin as [[= -> ->] | Hin]);
    [by eexists; split; [eassumption|] .. | by apply elem_of_nil in Hin].
Qed.

Lemma total_issues_counts_flagged_witness :
  ∃ m, sample_issues !! "uniqueness" = Some m ∧
       total_issues m = count_flagged "flag_uniqueness" sample_checked.
Proof.
  apply (total_issues_counts_flagged sample sample_checked ∅ sample_issues).
  - unfold dimension_table. do 3 right. left.
  - vm_compute. reflexivity.
Defined.

Section percentages.
Local Open Scope Q_scope.

Lemma fmul_np_divide (c n : Z) :
  n ≠ 0%Z → fmul (np_divide c n) 100 = Fin (inject_Z c / inject_Z n * 100).
Proof. intros Hn. unfold np_divide. by destruct (Z.eqb_spec n 0). Qed.

Lemma percent_bounds (c n : Z) :
  (0 ≤ c ≤ n)%Z → (0 < n)%Z → 0 <= inject_Z c / inject_Z n * 100 <= 100.
Proof. intros Hc Hn. pose proof (ratio_bounds c n Hc Hn). lra. Qed.
End percentages.

(** X3.  After [run_all_checks], the [percentage] of every dimension is
    a finite number: [total_issues] divided by the number of records,
    times 100, which lies between 0 and 100. *)
Theorem percentage_of_total (df df' : DataFrame) (s s' : issues) (d f : string) :
  (d, f) ∈ dimension_table →
  run_all_checks df s = Return df' s' →
  ∃ m q,
    s' !! d = Some m ∧ percentage m = Fin q ∧
    (q == inject_Z (total_issues m) / inject_Z (Z.of_nat (length (rows df'))) * 100)%Q ∧
    (0 <= q <= 100)%Q.
Proof.
  intros Hin Hrun.
  pose proof (run_all_checks_length _ _ _ _ Hrun) as Hlen'.
  destruct (run_all_checks_measures _ _ _ _ Hrun) as (Hne & -> & _).
  rewrite Hlen'.
  destruct (lookup_four_measures (completeness_measure df)
              (consistency_measure (after_completeness df))
              (validity_measure (after_consistency df))
              (uniqueness_measure (after_validity df)) s) as (Lc & Lk & Lv & Lu).
  pose proof (run_all_checks_pass _ _ _ _ Hrun) as Hpass.
  destruct (run_evaluators_eq df s Hpass) as (mc & mk & mv & mu & Heq & Hb).
  rewrite run_evaluators_measures in Heq by done. injection Heq as Heq.
  unfold run_measures in Heq. rewrite Heq in Lc, Lk, Lv, Lu.
  destruct (lookup_four_measures mc mk mv mu s) as (Lc' & Lk' & Lv' & Lu').
  rewrite Lc' in Lc. rewrite Lk' in Lk. rewrite Lv' in Lv. rewrite Lu' in Lu.
  injection Lc as ->. injection Lk as ->. injection Lv as ->. injection Lu as ->.
  rewrite !Forall_cons in Hb. destruct Hb as (Bc & Bk & Bv & Bu & _).
  assert (0 < Z.of_nat (length (rows df))) as Hpos.
  { destruct (rows df); [done | simpl; lia]. }
  unfold dimension_table in Hin. unfold run_measures.
  repeat (apply elem_of_cons in Hin as [[= -> ->] | Hin]).
  - eexists _, _. split; [exact Lc'|]. split; [apply fmul_np_divide; lia|].
    split; [reflexivity | by apply percent_bounds].
  - eexists _, _. split; [exact Lk'|]. split; [reflexivity|].
    cbn [total_issues consistency_measure] in *. rewrite rows_after_completeness.
    split; [reflexivity | by apply percent_bounds].
  - eexists _, _. split; [exact Lv'|]. split; [reflexivity|].
    cbn [total_issues validity_measure] in *. rewrite rows_after_consistency.
    split; [reflexivity | by apply percent_bounds].
  - eexists _, _. split; [exact Lu'|]. split.
    { cbn [percentage uniqueness_measure]. rewrite rows_after_validity.
      apply fmul_np_divide; lia. }
    cbn [total_issues uniqueness_measure] in *.
    split; [reflexivity | by apply percent_bounds].
  - by apply elem_of_nil in Hin.
Qed.

Lemma percentage_of_total_witness :
  ∃ m q,
    sample_issues !! "validity" = Some m ∧ percentage m = Fin q ∧
    (q == inject_Z (total_issues m)
          / inject_Z (Z.of_nat (length (rows sample_checked))) * 100)%Q ∧
    (0 <= q <= 100)%Q.
Proof.
  apply (percentage_of_total sample sample_checked ∅ sample_issues "validity"
           "flag_validity").
  - unfold dimension_table. do 2 right. left.
  - vm_compute. reflexivity.
Defined.

(** ** The checks behind the consistency and validity flags (X4 to X6) *)

Section row_flags.
Implicit Types (df : DataFrame) (s : issues) (r : record).

Lemma check_consistency_cell df s df' s' i r :
  check_consistency df s = Return df' s' →
  rows df !! i = Some r →
  ∃ r', rows df' !! i = Some r' ∧ cell r' "flag_consistency" = VInt (consistency_row df r).
Proof.
  intros Hret Hr.
  assert (rows df ≠ []) as Hne by (intros He; by rewrite He in Hr).
  rewrite check_consistency_eq in Hret by done. injection Hret as <- _.
  eexists. split; [by rewrite rows_with_flag, list_lookup_fmap, Hr|].
  apply cell_insert_eq.
Qed.

Lemma check_validity_cell df s df' s' i r :
  check_validity df s = Return df' s' →
  rows df !! i = Some r →
  ∃ r', rows df' !! i = Some r' ∧ cell r' "flag_validity" = VInt (validity_row df r).
Proof.
  intros Hret Hr.
  destruct (check_validity_returns _ _ _ _ Hret) as [Hne Hok].
  rewrite check_validity_eq in Hret by done. injection Hret as <- _.
  eexists. split; [by rewrite rows_with_flag, list_lookup_fmap, Hr|].
  apply cell_insert_eq.
Qed.

Ltac block_cases :=
  repeat match goal with
         | |- context [if ?b then _ else _] => destruct b
         | |- context [match ?o with Some _ => _ | None => _ end] => destruct o
         end; try done.

(** Each block either raises the flag or hands it on. *)
Lemma company_block_or df r flag :
  company_block df r flag = if decide (company_block df r 0 = 1) then 1 else flag.
Proof. unfold company_block. block_cases. Qed.
Lemma status_block_or df r flag :
  status_block df r flag = if decide (status_block df r 0 = 1) then 1 else flag.
Proof. unfold status_block. block_cases. Qed.
Lemma ipo_block_or df r flag :
  ipo_block df r flag = if decide (ipo_block df r 0 = 1) then 1 else flag.
Proof. unfold ipo_block. block_cases. Qed.
Lemma currency_block_or df r flag :
  currency_block df r flag = if decide (currency_block df r 0 = 1) then 1 else flag.
Proof. unfold currency_block. block_cases. Qed.
Lemma year_block_or df r flag :
  year_block df r flag = if decide (year_block df r 0 = 1) then 1 else flag.
Proof. unfold year_block. block_cases. Qed.
Lemma revenue_block_or df r flag :
  revenue_block df r flag = if decide (revenue_block df r 0 = 1) then 1 else flag.
Proof. unfold revenue_block. block_cases. Qed.
Lemma fiscal_block_or df r flag :
  fiscal_block df r flag = if decide (fiscal_block df r 0 = 1) then 1 else flag.
Proof. unfold fiscal_block. block_cases. Qed.
Lemma industry_block_or df r flag :
  industry_block df r flag = if decide (industry_block df r 0 = 1) then 1 else flag.
Proof. unfold industry_block. block_cases. Qed.

Lemma consistency_row_or df r :
  consistency_row df r = 1 ↔
  company_block df r 0 = 1 ∨ status_block df r 0 = 1 ∨
  ipo_block df r 0 = 1 ∨ currency_block df r 0 = 1.
Proof.
  unfold consistency_row.
  rewrite currency_block_or, ipo_block_or, status_block_or.
  repeat case_decide; naive_solver.
Qed.

Lemma validity_row_or df r :
  validity_row df r = 1 ↔
  year_block df r 0 = 1 ∨ revenue_block df r 0 = 1 ∨
  fiscal_block df r 0 = 1 ∨ industry_block df r 0 = 1.
Proof.
  unfold validity_row.
  rewrite industry_block_or, fiscal_block_or, revenue_block_or.
  repeat case_decide; naive_solver.
Qed.
End row_flags.

(** X4.  [check_consistency] gives every record the flag 0 or 1, and 1
    exactly when at least one of its four checks (company name,
    operation status, IPO status, currency unit), taken on its own from
    a flag of 0, raises the flag. *)
Theorem check_consistency_any (df df' : DataFrame) (s s' : issues) (i : nat) (r : record) :
  check_consistency df s = Return df' s' →
  rows df !! i = Some r →
  ∃ r', rows df' !! i = Some r' ∧
        is_bit (cell r' "flag_consistency") ∧
        (cell r' "flag_consistency" = VInt 1 ↔
         company_block df r 0 = 1 ∨ status_block df r 0 = 1 ∨
         ipo_block df r 0 = 1 ∨ currency_block df r 0 = 1).
Proof.
  intros Hret Hr.
  destruct (check_consistency_cell _ _ _ _ _ _ Hret Hr) as (r' & Hr' & Hcell).
  exists r'. split; [done|]. rewrite Hcell. split.
  - unfold is_bit. destruct (consistency_row_bit df r) as [-> | ->]; auto.
  - rewrite <- consistency_row_or. split; congruence.
Qed.

Lemma check_consistency_any_witness :
  ∃ r', rows (outcome_frame (check_consistency lowercase_frame ∅)) !! 0%nat = Some r' ∧
        is_bit (cell r' "flag_consistency") ∧
        (cell r' "flag_consistency" = VInt 1 ↔
         company_block lowercase_frame (record_of [("unit_REVENUE", VStr "usd")]) 0 = 1 ∨
         status_block lowercase_frame (record_of [("unit_REVENUE", VStr "usd")]) 0 = 1 ∨
         ipo_block lowercase_frame (record_of [("unit_REVENUE", VStr "usd")]) 0 = 1 ∨
         currency_block lowercase_frame (record_of [("unit_REVENUE", VStr "usd")]) 0 = 1).
Proof.
  apply (check_consistency_any lowercase_frame
           (outcome_frame (check_consistency lowercase_frame ∅)) ∅
           (outcome_issues (check_consistency lowercase_frame ∅))).
  - vm_compute. reflexivity.
  - reflexivity.
Defined.

(** X5.  [check_validity] gives every record the flag 0 or 1, and 1
    exactly when at least one of its four checks (year, revenue, fiscal
    period end, industry code), taken on its own from a flag of 0,
    raises the flag. *)
Theorem check_validity_any (df df' : DataFrame) (s s' : issues) (i : nat) (r : record) :
  check_validity df s = Return df' s' →
  rows df !! i = Some r →
  ∃ r', rows df' !! i = Some r' ∧
        is_bit (cell r' "flag_validity") ∧
        (cell r' "flag_validity" = VInt 1 ↔
         year_block df r 0 = 1 ∨ revenue_block df r 0 = 1 ∨
         fiscal_block df r 0 = 1 ∨ industry_block df r 0 = 1).
Proof.
  intros Hret Hr.
  destruct (check_validity_cell _ _ _ _ _ _ Hret Hr) as (r' & Hr' & Hcell).
  exists r'. split; [done|]. rewrite Hcell. split.
  - unfold is_bit. destruct (validity_row_bit df r) as [-> | ->]; auto.
  - rewrite <- validity_row_or. split; congruence.
Qed.

Lemma check_validity_any_witness :
  ∃ r', rows (outcome_frame (check_validity (year_frame (VInt 1850)) ∅)) !! 0%nat = Some r' ∧
        is_bit (cell r' "flag_validity") ∧
        (cell r' "flag_validity" = VInt 1 ↔
         year_block (year_frame (VInt 1850)) (record_of [("timevalue", VInt 1850)]) 0 = 1 ∨
         revenue_block (year_frame (VInt 1850)) (record_of [("timevalue", VInt 1850)]) 0 = 1 ∨
         fiscal_block (year_frame (VInt 1850)) (record_of [("timevalue", VInt 1850)]) 0 = 1 ∨
         industry_block (year_frame (VInt 1850)) (record_of [("timevalue", VInt 1850)]) 0 = 1).
Proof.
  apply (check_validity_any (year_frame (VInt 1850))
           (outcome_frame (check_validity (year_frame (VInt 1850)) ∅)) ∅
           (outcome_issues (check_validity (year_frame (VInt 1850)) ∅))).
  - vm_compute. reflexivity.
  - reflexivity.
Defined.

Lemma unavailable_rows (df : DataFrame) (r : record) :
  ((∀ c, c ∈ consistency_inputs → unavailable df r c) → consistency_row df r = 0) ∧
  ((∀ c, c ∈ validity_inputs → unavailable df r c) → validity_row df r = 0).
Proof.
  assert (∀ c, unavailable df r c → has_column df c && notna (cell r c) = false) as Hoff.
  { intros c [Hc | Hc].
    - by rewrite has_column_false.
    - rewrite Hc. apply andb_false_r. }
  split; intros Hall.
  - unfold consistency_row, currency_block, ipo_block, status_block, company_block.
    rewrite !Hoff; [done | apply Hall; unfold consistency_inputs; set_solver ..].
  - unfold validity_row, industry_block, fiscal_block, revenue_block, year_block.
    rewrite !Hoff; [done | apply Hall; unfold validity_inputs; set_solver ..].
Qed.

(** X6.  A record in which every cell the consistency checks read is
    unavailable (the column does not exist, or the value is missing)
    gets [flag_consistency] 0 in a run, and a record in which every
    cell the validity checks read is unavailable gets [flag_validity]
    0. *)
Theorem unavailable_cells_are_not_flagged (df df' : DataFrame) (s s' : issues)
    (i : nat) (r : record) :
  run_evaluators df s = Return df' s' →
  rows df !! i = Some r →
  ∃ r', rows df' !! i = Some r' ∧
        ((∀ c, c ∈ consistency_inputs → unavailable df r c) →
         cell r' "flag_consistency" = VInt 0) ∧
        ((∀ c, c ∈ validity_inputs → unavailable df r c) →
         cell r' "flag_validity" = VInt 0).
Proof.
  intros Hrun Hr.
  apply run_evaluators_pass in Hrun as (_ & -> & _).
  exists (annotate_row df r).
  split; [by rewrite rows_after_uniqueness_eq, list_lookup_fmap, Hr|].
  destruct (annotate_row_raw df r) as (_ & Hk & Hv & _).
  destruct (unavailable_rows df r) as [Hk0 Hv0].
  split; intros Hall.
  - rewrite (cell_lookup _ _ _ Hk). by rewrite Hk0.
  - rewrite (cell_lookup _ _ _ Hv). by rewrite Hv0.
Qed.

Lemma unavailable_cells_are_not_flagged_witness :
  ∃ r', rows (outcome_frame (run_evaluators blank_flag_frame ∅)) !! 0%nat = Some r' ∧
        ((∀ c, c ∈ consistency_inputs →
               unavailable blank_flag_frame
                 (record_of [("note", VStr "x"); ("flag_completeness", VNull)]) c) →
         cell r' "flag_consistency" = VInt 0) ∧
        ((∀ c, c ∈ validity_inputs →
               unavailable blank_flag_frame
                 (record_of [("note", VStr "x"); ("flag_completeness", VNull)]) c) →
         cell r' "flag_validity" = VInt 0).
Proof.
  apply (unavailable_cells_are_not_flagged blank_flag_frame
           (outcome_frame (run_evaluators blank_flag_frame ∅)) ∅
           (outcome_issues (run_evaluators blank_flag_frame ∅))).
  - vm_compute. reflexivity.
  - reflexivity.
Defined.

(** ** Duplicates, the layout of the result, and when the run returns (X7 to X10) *)

Section duplicates.
Implicit Types (df : DataFrame) (s : issues) (r : record).

Lemma value_eqb_sym a b : value_eqb a b = value_eqb b a.
Proof.
  destruct a as [|t|z|f|n], b as [|t'|z'|f'|n']; simpl; try done;
    try (apply bool_decide_ext; split; congruence);
    apply eq_true_iff_eq; rewrite !Qeq_bool_iff; split; intros H; by symmetry.
Qed.

Lemma same_key_sym cols r1 r2 : same_key cols r1 r2 → same_key cols r2 r1.
Proof. intros H c Hc. rewrite value_eqb_sym. by apply H. Qed.

Lemma count_true_two (mask : list bool) (i j : nat) :
  i ≠ j → mask !! i = Some true → mask !! j = Some true → 2 ≤ count_true mask.
Proof.
  intros Hne Hi Hj. unfold count_true.
  assert (1 < length (filter (λ b, b = true) mask))%nat; [|lia].
  apply (filter_more_than_one (λ b, b = true) mask i true Hi eq_refl). eauto.
Qed.

Lemma count_true_pos (mask : list bool) :
  count_true mask ≠ 0 → ∃ i, mask !! i = Some true.
Proof.
  intros Hpos. unfold count_true in Hpos.
  destruct (proj1 (filter_nonempty_lookup (λ b, b = true) mask)) as (i & b & Hi & ->).
  - lia.
  - eauto.
Qed.
End duplicates.

(** X7.  [check_uniqueness] never flags one record alone: a record
    flagged as a duplicate comes with another flagged record, and the
    [total_issues] recorded for uniqueness is never 1. *)
Theorem duplicates_come_in_groups (df df' : DataFrame) (s s' : issues) :
  check_uniqueness df s = Return df' s' →
  (∀ i r', rows df' !! i = Some r' → cell r' "flag_uniqueness" = VInt 1 →
           ∃ j r'', j ≠ i ∧ rows df' !! j = Some r'' ∧
                    cell r'' "flag_uniqueness" = VInt 1) ∧
  ∃ m, s' !! "uniqueness" = Some m ∧ total_issues m ≠ 1.
Proof.
  intros Hret.
  destruct (decide (columns df = [])) as [Hc0|Hc0].
  { rewrite check_uniqueness_no_columns in Hret by done. injection Hret as <- <-.
    split.
    - intros i r' Hr' Hcell. exfalso.
      unfold set_column in Hr'. cbn [rows] in Hr'.
      apply lookup_zip_with_Some in Hr' as (r & v & -> & Hr & Hv).
      rewrite list_lookup_fmap, Hr in Hv. injection Hv as <-.
      by rewrite cell_insert_eq in Hcell.
    - eexists. split; [apply lookup_insert_eq | done]. }
  assert (rows df = [] ∨ uniqueness_columns df ≠ []) as Hok.
  { destruct (check_uniqueness_returns _ _ _ _ Hret) as [?|[?|?]]; by auto. }
  revert Hret. rewrite check_uniqueness_eq by done. intros [= <- <-].
  assert (∀ i r, rows df !! i = Some r → uniqueness_row df r = 1 →
                 ∃ j r2, j ≠ i ∧ rows df !! j = Some r2 ∧ uniqueness_row df r2 = 1)
    as Hgroup.
  { intros i r Hr Hflag.
    apply (uniqueness_row_1 df r i Hr) in Hflag as (j & r2 & Hne & Hr2 & Hkey).
    exists j, r2. split; [done|]. split; [done|].
    apply (uniqueness_row_1 df r2 j Hr2). exists i, r.
    split; [done|]. split; [done|]. by apply same_key_sym. }
  split.
  - intros i r' Hr' Hcell.
    rewrite rows_with_flag, list_lookup_fmap in Hr'.
    destruct (rows df !! i) as [r|] eqn:Hr; [|done]. injection Hr' as <-.
    rewrite cell_insert_eq in Hcell. injection Hcell as Hflag.
    destruct (Hgroup i r Hr Hflag) as (j & r2 & Hne & Hr2 & Hflag2).
    eexists j, _. split; [done|].
    split; [by rewrite rows_with_flag, list_lookup_fmap, Hr2|].
    by rewrite cell_insert_eq, Hflag2.
  - eexists. split; [apply lookup_insert_eq|]. cbn [total_issues].
    rewrite key_repeated_uniqueness_row.
    set (mask := (λ r, is_flagged (VInt (uniqueness_row df r))) <$> rows df).
    assert (∀ i, mask !! i = Some true →
                 ∃ r, rows df !! i = Some r ∧ uniqueness_row df r = 1) as Hmask.
    { intros i Hi. unfold mask in Hi. rewrite list_lookup_fmap in Hi.
      destruct (rows df !! i) as [r|]; [|done]. exists r. split; [done|].
      injection Hi as Hi. destruct (uniqueness_row_bit df r) as [H0 | H1]; [|done].
      by rewrite H0 in Hi. }
    assert (∀ i r, rows df !! i = Some r → uniqueness_row df r = 1 →
                   mask !! i = Some true) as Hmask'.
    { intros i r Hr Hflag. unfold mask. rewrite list_lookup_fmap, Hr. simpl.
      by rewrite Hflag. }
    destruct (decide (count_true mask = 0)) as [-> | Hpos]; [done|].
    destruct (count_true_pos mask Hpos) as [i Hi].
    destruct (Hmask i Hi) as (r & Hr & Hflag).
    destruct (Hgroup i r Hr Hflag) as (j & r2 & Hne & Hr2 & Hflag2).
    pose proof (count_true_two mask i j (not_eq_sym Hne) Hi (Hmask' j r2 Hr2 Hflag2)).
    lia.
Qed.

Lemma duplicates_come_in_groups_witness :
  (∀ i r', rows (outcome_frame (check_uniqueness sample ∅)) !! i = Some r' →
           cell r' "flag_uniqueness" = VInt 1 →
           ∃ j r'', j ≠ i ∧
                    rows (outcome_frame (check_uniqueness sample ∅)) !! j = Some r'' ∧
                    cell r'' "flag_uniqueness" = VInt 1) ∧
  ∃ m, outcome_issues (check_uniqueness sample ∅) !! "uniqueness" = Some m ∧
       total_issues m ≠ 1.
Proof.
  apply (duplicates_come_in_groups sample (outcome_frame (check_uniqueness sample ∅)) ∅
           (outcome_issues (check_uniqueness sample ∅))).
  vm_compute. reflexivity.
Defined.

(** X8.  [run_all_checks] keeps the number of records, leaves every
    cell outside the five columns it writes as it was, and, on a data
    set that has none of these five columns, appends them to the
    existing columns in the order completeness, consistency, validity,
    uniqueness, overall. *)
Theorem run_all_checks_layout (df df' : DataFrame) (s s' : issues) :
  run_all_checks df s = Return df' s' →
  length (rows df') = length (rows df) ∧
  (∀ i r r', rows df !! i = Some r → rows df' !! i = Some r' →
             ∀ c, c ∉ written_flags → r' !! c = r !! c) ∧
  ((∀ f, f ∈ written_flags → f ∉ columns df) →
   columns df' = columns df ++ written_flags).
Proof.
  intros Hrun. split; [by eapply run_all_checks_length|]. split.
  - intros i r r' Hr Hr' c Hc.
    destruct (run_all_checks_row _ _ _ _ _ _ Hrun Hr') as (r0 & o & Hr0 & _ & ->).
    rewrite Hr in Hr0. injection Hr0 as <-.
    unfold written_flags in Hc. rewrite not_elem_of_app, not_elem_of_cons in Hc.
    destruct Hc as (Hdim & Hov & _).
    rewrite lookup_insert_ne by done. by apply annotate_row_other.
  - intros Hfresh.
    destruct (run_all_checks_measures _ _ _ _ Hrun) as (_ & _ & overall & _ & ->).
    assert (∀ f, f ∈ dimension_flags → f ∉ columns df) as Hdim.
    { intros f Hf. apply Hfresh. unfold written_flags. rewrite elem_of_app. by left. }
    assert ("flag_overall" ∉ columns df) as Hov.
    { apply Hfresh. unfold written_flags. rewrite elem_of_app. right. by left. }
    unfold set_column. cbn [columns].
    rewrite has_column_false.
    + rewrite columns_after_uniqueness_fresh by done. by rewrite <- app_assoc.
    + rewrite elem_of_columns_after_uniqueness.
      intros [? | ?]; [done | by apply flag_overall_not_dimension].
Qed.

Lemma run_all_checks_layout_witness :
  length (rows sample_checked) = length (rows sample) ∧
  (∀ i r r', rows sample !! i = Some r → rows sample_checked !! i = Some r' →
             ∀ c, c ∉ written_flags → r' !! c = r !! c) ∧
  ((∀ f, f ∈ written_flags → f ∉ columns sample) →
   columns sample_checked = columns sample ++ written_flags).
Proof.
  apply (run_all_checks_layout sample sample_checked ∅ sample_issues).
  vm_compute. reflexivity.
Defined.

Section returns.
Implicit Types (df : DataFrame) (s : issues) (r : record).

End returns.



(** X10.  What earlier runs left in [quality_issues] does not show: a
    checker that holds entries of the four dimensions only behaves in
    [run_all_checks] as a fresh checker does, in the data set it returns
    and in the issues it holds afterwards. *)
Theorem reused_checker_reports_like_fresh (df : DataFrame) (s : issues) :
  (∀ k, is_Some (s !! k) → k ∈ dimensions) →
  run_all_checks df s = run_all_checks df ∅.
Proof.
  intros Hdom. unfold run_all_checks, mbind, method_bind, bind.
  destruct (run_evaluators df ∅) as [e|df1 s1] eqn:Hev.
  { by rewrite (run_evaluators_raise_any df ∅ s e Hev). }
  apply run_evaluators_pass in Hev as (Hpass & -> & ->).
  rewrite run_evaluators_measures by done. unfold run_measures.
  by rewrite four_measures_canonical.
Qed.

Lemma reused_checker_reports_like_fresh_witness :
  run_all_checks sample
    {["validity" := {| total_issues := 7; percentage := NaN; descr := InvalidData |}]}
  = run_all_checks sample ∅.
Proof.
  apply (reused_checker_reports_like_fresh sample).
  intros k [m Hm]. apply lookup_singleton_Some in Hm as [<- _].
  unfold dimensions. do 2 right. left.
Defined.

(** ** The overall quality score (X12) *)

Section summary_facts.
Implicit Types (df : DataFrame) (s : issues).

Lemma run_total_bounds df s :
  rows df ≠ [] →
  0 ≤ total_issues (completeness_measure df) ≤ Z.of_nat (length (rows df)) ∧
  0 ≤ total_issues (consistency_measure (after_completeness df))
    ≤ Z.of_nat (length (rows df)) ∧
  0 ≤ total_issues (validity_measure (after_consistency df))
    ≤ Z.of_nat (length (rows df)) ∧
  0 ≤ total_issues (uniqueness_measure (after_validity df))
    ≤ Z.of_nat (length (rows df)).
Proof.
  intros _.
  cbn [total_issues completeness_measure consistency_measure validity_measure
       uniqueness_measure].
  split; [|split; [|split]].
  - pose proof (count_true_bounds (any_null (completeness_columns df) df)) as Hb.
    unfold any_null in Hb at 3. by rewrite length_fmap in Hb.
  - rewrite <- (rows_after_completeness df).
    apply sum_flags_bounds, consistency_row_bit.
  - rewrite <- (rows_after_consistency df).
    apply sum_flags_bounds, validity_row_bit.
  - rewrite <- (rows_after_validity df).
    pose proof (count_true_bounds
                  (key_repeated (uniqueness_columns (after_validity df))
                              (after_validity df))) as Hb.
    unfold key_repeated in Hb at 3. by rewrite length_fmap in Hb.
Qed.

Lemma summary_after_run df df' s s' :
  (∀ k, is_Some (s !! k) → k ∈ dimensions) →
  run_all_checks df s = Return df' s' →
  ∃ sm, generate_quality_summary df' s' = Return sm s' ∧
        overall_quality_score sm
        = max0 (100 - inject_Z (run_total df)
                      / inject_Z (Z.of_nat (length (rows df)) * Z.of_nat 4) * 100)%Q.
Proof.
  intros Hdom Hrun.
  pose proof (run_all_checks_length _ _ _ _ Hrun) as Hlen.
  destruct (run_all_checks_measures _ _ _ _ Hrun) as (Hne & -> & _).
  eexists. split; [reflexivity|]. simpl.
  unfold run_measures. rewrite four_measures_canonical by done.
  rewrite size_four_measures, sum_four_measures, Hlen.
  assert (0 < Z.of_nat (length (rows df)) * Z.of_nat 4) as Hpos.
  { destruct (rows df); [done | simpl; lia]. }
  by destruct (Z.ltb_spec 0 (Z.of_nat (length (rows df)) * Z.of_nat 4)); [|lia].
Qed.

Lemma max0_nonneg (x : Q) : (0 <= x)%Q → (max0 x == x)%Q.
Proof. intros Hx. rewrite max0_spec. by apply Q.max_r. Qed.

Lemma inject_Z_eq_0 (z : Z) : (inject_Z z == 0)%Q ↔ z = 0.
Proof. unfold Qeq. simpl. lia. Qed.
End summary_facts.

(** X12.  After [run_all_checks], the overall quality score is 100
    exactly when no record is flagged in any of the four dimensions. *)
Theorem score_100_iff_no_flag (df df' : DataFrame) (s s' : issues) :
  (∀ k, is_Some (s !! k) → k ∈ dimensions) →
  run_all_checks df s = Return df' s' →
  ∃ sm, generate_quality_summary df' s' = Return sm s' ∧
        ((overall_quality_score sm == 100)%Q ↔
         ∀ f, f ∈ dimension_flags → count_flagged f df' = 0).
Proof.
  intros Hdom Hrun.
  destruct (summary_after_run _ _ _ _ Hdom Hrun) as (sm & Hsm & Hscore).
  destruct (run_totals_flagged _ _ _ _ Hrun) as (Tc & Tk & Tv & Tu).
  destruct (run_all_checks_measures _ _ _ _ Hrun) as (Hne & _ & _).
  destruct (run_total_bounds df s Hne) as (Bc & Bk & Bv & Bu).
  assert (0 < Z.of_nat (length (rows df))) as Hpos.
  { destruct (rows df); [done | simpl; lia]. }
  exists sm. split; [done|]. rewrite Hscore.
  set (n := Z.of_nat (length (rows df))) in *.
  assert (0 <= inject_Z (run_total df) / inject_Z (n * Z.of_nat 4) <= 1)%Q as Hy.
  { apply ratio_bounds; unfold run_total; lia. }
  rewrite max0_nonneg by lra.
  assert (¬ inject_Z (n * Z.of_nat 4) == 0)%Q as Hn by (rewrite inject_Z_eq_0; lia).
  assert ((100 - inject_Z (run_total df) / inject_Z (n * Z.of_nat 4) * 100 == 100)%Q
          ↔ run_total df = 0) as ->.
  { rewrite <- inject_Z_eq_0. split; intros H.
    - assert (inject_Z (run_total df) / inject_Z (n * Z.of_nat 4) == 0)%Q as H0 by lra.
      rewrite <- (Qmult_div_r (inject_Z (run_total df)) (inject_Z (n * Z.of_nat 4)))
        by done.
      rewrite H0. ring.
    - rewrite H. field. done. }
  unfold run_total. rewrite Tc, Tk, Tv, Tu in *.
  unfold dimension_flags. split.
  - intros Hsum f Hf. rewrite !elem_of_cons, elem_of_nil in Hf.
    destruct_or!; subst; try done; lia.
  - intros Hall. rewrite !Hall by set_solver. done.
Qed.

Lemma score_100_iff_no_flag_witness :
  ∃ sm, generate_quality_summary sample_checked sample_issues = Return sm sample_issues ∧
        ((overall_quality_score sm == 100)%Q ↔
         ∀ f, f ∈ dimension_flags → count_flagged f sample_checked = 0).
Proof.
  apply (score_100_iff_no_flag sample sample_checked ∅ sample_issues).
  - intros k [m Hm]. by rewrite lookup_empty in Hm.
  - vm_compute. reflexivity.
Defined.

(** ** The language of the patterns, and the company name (X13) *)

Section regex_semantics.
Import Re.
Implicit Types (r : regex) (s : string) (c : ascii).

Lemma nullable_matches r : nullable r = true ↔ matches r "".
Proof.
  induction r as [| |p|r1 IH1 r2 IH2|r1 IH1 r2 IH2|r IH]; simpl.
  - split; [done | inversion 1].
  - split; [constructor | done].
  - split; [done | inversion 1].
  - rewrite andb_true_iff, IH1, IH2. split.
    + intros [H1 H2]. by apply (matches_cat _ _ "" "").
    + inversion 1 as [| |? ? s1 s2 H1 H2 Heq| | | |]; subst.
      match goal with H : _ +:+ _ = "" |- _ => apply append_eq_nil in H as [-> ->] end.
      done.
  - rewrite orb_true_iff, IH1, IH2. split.
    + intros [H|H]; [by apply matches_alt_l | by apply matches_alt_r].
    + inversion 1; subst; auto.
  - split; [constructor | done].
Qed.

Lemma matches_star_cons_inv r c s :
  matches (Star r) (String c s) →
  ∃ s1 s2, s = s1 +:+ s2 ∧ matches r (String c s1) ∧ matches (Star r) s2.
Proof.
  intros H. remember (Star r) as rs eqn:Hrs. remember (String c s) as t eqn:Ht.
  revert s Ht. induction H as [| | | | | |r' s1 s2 H1 _ H2 IH2]; intros u Ht;
    try discriminate.
  injection Hrs as ->. destruct s1 as [|c1 s1]; rewrite ?append_cons, ?append_nil_l in Ht.
  - by apply IH2.
  - injection Ht as -> <-. eauto.
Qed.

Lemma deriv_matches r c s : matches (deriv c r) s ↔ matches r (String c s).
Proof.
  revert s. induction r as [| |p|r1 IH1 r2 IH2|r1 IH1 r2 IH2|r IH]; intros s; simpl.
  - split; inversion 1.
  - split; inversion 1.
  - destruct (p c) eqn:Hp.
    + split.
      * inversion 1; subst. by constructor.
      * inversion 1; subst. constructor.
    + split; [inversion 1|]. inversion 1; subst. congruence.
  - assert (matches (Cat (deriv c r1) r2) s ↔
            ∃ s1 s2, s = s1 +:+ s2 ∧ matches r1 (String c s1) ∧ matches r2 s2) as Hcat.
    { split.
      - inversion 1; subst. eexists _, _. split; [done|]. by rewrite <- IH1.
      - intros (s1 & s2 & -> & H1 & H2). apply matches_cat; [by apply IH1 | done]. }
    assert (matches (Cat r1 r2) (String c s) ↔
            (∃ s1 s2, s = s1 +:+ s2 ∧ matches r1 (String c s1) ∧ matches r2 s2) ∨
            (matches r1 "" ∧ matches r2 (String c s))) as Hinv.
    { split.
      - inversion 1 as [| |? ? s1 s2 H1 H2 Heq| | | |]; subst.
        destruct s1 as [|c1 s1]; rewrite ?append_cons, ?append_nil_l in *.
        + right. match goal with H : _ = String c s |- _ => rewrite H in * end. done.
        + match goal with H : String _ _ = String c s |- _ => injection H as -> <- end.
          left. eauto.
      - intros [(s1 & s2 & -> & H1 & H2) | [H1 H2]].
        + by apply (matches_cat _ _ (String c s1) s2).
        + by apply (matches_cat _ _ "" (String c s)). }
    rewrite Hinv. destruct (nullable r1) eqn:Hn.
    + apply nullable_matches in Hn. split.
      * inversion 1; subst; [left; by apply Hcat | right; split; [done | by apply IH2]].
      * intros [H | [_ H]]; [apply matches_alt_l; by apply Hcat
                            | apply matches_alt_r; by apply IH2].
    + rewrite Hcat. split; [by left|]. intros [H | [H _]]; [done|].
      apply nullable_matches in H. congruence.
  - split.
    + inversion 1; subst; [apply matches_alt_l; by apply IH1
                          | apply matches_alt_r; by apply IH2].
    + inversion 1; subst; [apply matches_alt_l; by apply IH1
                          | apply matches_alt_r; by apply IH2].
  - split.
    + inversion 1 as [| |? ? s1 s2 H1 H2 Heq| | | |]; subst.
      apply (matches_star_cons _ (String c s1) s2); [by apply IH | done].
    + intros (s1 & s2 & -> & H1 & H2)%matches_star_cons_inv.
      apply matches_cat; [by apply IH | done].
Qed.

Lemma full_matches r s : full r s = true ↔ matches r s.
Proof.
  revert r. induction s as [|c s IH]; intros r; simpl.
  - apply nullable_matches.
  - by rewrite IH, deriv_matches.
Qed.

Lemma prefix_matches r s :
  prefix r s = true ↔ ∃ s1 s2, s = s1 +:+ s2 ∧ matches r s1.
Proof.
  revert r. induction s as [|c s IH]; intros r; simpl.
  - rewrite orb_false_r, nullable_matches. split.
    + intros H. exists "", "". done.
    + intros (s1 & s2 & [-> ->]%eq_sym%append_eq_nil & H). done.
  - rewrite orb_true_iff, nullable_matches, IH. split.
    + intros [H | (s1 & s2 & -> & H)].
      * exists "", (String c s). done.
      * exists (String c s1), s2. split; [done|]. by apply deriv_matches.
    + intros ([|c1 s1] & s2 & Heq & H); rewrite ?append_cons, ?append_nil_l in Heq.
      * by left.
      * injection Heq as <- ->. right. exists s1, s2. split; [done|].
        by apply deriv_matches.
Qed.

Lemma to_end_matches r s :
  to_end r s = true ↔ matches r s ∨ ∃ w, s = w +:+ String "010" "" ∧ matches r w.
Proof.
  revert r. induction s as [|c s IH]; intros r; simpl.
  - rewrite nullable_matches. split; [by left|].
    intros [H | (w & Heq & _)]; [done|]. by destruct w.
  - rewrite orb_true_iff, !andb_true_iff, !bool_decide_eq_true, nullable_matches, IH.
    rewrite deriv_matches. split.
    + intros [[[H ->] ->] | [H | (w & -> & H)]].
      * right. exists "". done.
      * by left.
      * right. exists (String c w). split; [done|]. by apply deriv_matches.
    + intros [H | ([|c1 w] & Heq & H)];
        try rewrite ?append_cons, ?append_nil_l in Heq.
      * right. by left.
      * injection Heq as -> ->. by left.
      * injection Heq as <- ->. right. right. exists w. split; [done|].
        by apply deriv_matches.
Qed.
End regex_semantics.

Section pattern_facts.
Import Re.
Implicit Types (r : regex) (s : string) (c : ascii) (p q : ascii → bool).

Lemma existsb_char_app q s1 s2 :
  Text.existsb_char q (s1 +:+ s2) = Text.existsb_char q s1 || Text.existsb_char q s2.
Proof.
  induction s1 as [|c s1 IH]; [done|].
  rewrite append_cons. simpl. by rewrite IH, orb_assoc.
Qed.

Lemma matches_cls_inv p s : matches (Cls p) s → ∃ c, s = String c "" ∧ p c = true.
Proof. inversion 1; subst; eauto. Qed.

Lemma matches_cat_inv r1 r2 s :
  matches (Cat r1 r2) s → ∃ s1 s2, s = s1 +:+ s2 ∧ matches r1 s1 ∧ matches r2 s2.
Proof. inversion 1; subst; eauto. Qed.

Lemma matches_star_cls p q s :
  (∀ c, p c = true → q c = false) →
  matches (Star (Cls p)) s → Text.existsb_char q s = false.
Proof.
  intros Hpq H. remember (Star (Cls p)) as r eqn:Hr.
  induction H as [| | | | | |r' s1 s2 H1 _ H2 IH2]; try discriminate; [done|].
  injection Hr as ->. apply matches_cls_inv in H1 as (c & -> & Hc).
  rewrite append_cons, append_nil_l. simpl. by rewrite (Hpq c Hc), IH2.
Qed.

Lemma company_tail_not_lower c :
  Pattern.company_tail c = true → Text.is_lower c = false.
Proof. destruct c as [[] [] [] [] [] [] [] []]; vm_compute; congruence. Qed.

Lemma upper_not_lower c : Text.is_upper c = true → Text.is_lower c = false.
Proof. destruct c as [[] [] [] [] [] [] [] []]; vm_compute; congruence. Qed.

Lemma matches_company_isupper s : matches Pattern.company s → Text.isupper s = true.
Proof.
  intros (s1 & s2 & -> & (c & -> & Hc)%matches_cls_inv & H2)%matches_cat_inv.
  rewrite append_cons, append_nil_l. unfold Text.isupper. simpl.
  rewrite Hc, (upper_not_lower c Hc).
  by rewrite (matches_star_cls _ Text.is_lower _ company_tail_not_lower H2).
Qed.

Lemma company_isupper s : to_end Pattern.company s = true → Text.isupper s = true.
Proof.
  rewrite to_end_matches. intros [H | (w & -> & H)].
  - by apply matches_company_isupper.
  - apply matches_company_isupper in H. revert H. unfold Text.isupper.
    rewrite !existsb_char_app, !andb_true_iff, !negb_true_iff. simpl.
    intros [-> ->]. done.
Qed.
End pattern_facts.

(** X13.  The pattern of the company-name check never decides: every
    text it accepts is upper-case for [str.isupper] already, so a company
    name that is present raises the flag exactly when it is neither
    upper-case nor title-case. *)
Theorem company_pattern_never_decides (df : DataFrame) (row : record) (flag : Z) :
  (∀ t, Re.to_end Pattern.company t = true → Text.isupper t = true) ∧
  company_block df row flag =
  if has_column df "companynameofficial" && notna (cell row "companynameofficial")
  then if Text.isupper (py_str (cell row "companynameofficial"))
          || Text.istitle (py_str (cell row "companynameofficial"))
       then flag else 1
  else flag.
Proof.
  split; [apply company_isupper|].
  unfold company_block.
  destruct (has_column df "companynameofficial" && notna (cell row "companynameofficial"));
    [|done].
  destruct (Text.isupper (py_str (cell row "companynameofficial"))) eqn:Hu; [done|].
  destruct (Text.istitle (py_str (cell row "companynameofficial"))); [done|]. simpl.
  destruct (Re.to_end Pattern.company (py_str (cell row "companynameofficial"))) eqn:Hm;
    [|done].
  apply company_isupper in Hm. congruence.
Qed.

(** ** The fiscal period end (X14) *)

Section fiscal.
Import Re.
Implicit Types (r : regex) (s w : string) (c : ascii).

Lemma matches_eps_inv s : matches Eps s → s = "".
Proof. by inversion 1. Qed.

Lemma matches_alt_inv r1 r2 s : matches (Alt r1 r2) s → matches r1 s ∨ matches r2 s.
Proof. inversion 1; subst; auto. Qed.

Lemma matches_chr_inv c s : matches (chr c) s → s = String c "".
Proof. intros (c' & -> & Hc)%matches_cls_inv. by apply bool_decide_eq_true in Hc as ->. Qed.

Lemma matches_chr c : matches (chr c) (String c "").
Proof. apply matches_cls. by apply bool_decide_eq_true. Qed.

Lemma matches_lit_inv w s : matches (lit w) s → s = w.
Proof.
  revert s. induction w as [|a w IH]; intros s; simpl.
  - apply matches_eps_inv.
  - intros (s1 & s2 & -> & ->%matches_chr_inv & ->%IH)%matches_cat_inv. done.
Qed.

Lemma matches_lit w : matches (lit w) w.
Proof.
  induction w as [|a w IH]; simpl; [constructor|].
  apply (matches_cat _ _ (String a "") w); [apply matches_chr | done].
Qed.

Lemma matches_alts_inv (rs : list regex) s :
  matches (alts rs) s → ∃ r, r ∈ rs ∧ matches r s.
Proof.
  induction rs as [|r rs IH]; simpl; [inversion 1|].
  intros [H | (r' & Hr' & H)%IH]%matches_alt_inv.
  - exists r. split; [left | done].
  - exists r'. split; [by right | done].
Qed.

Lemma matches_alts (rs : list regex) r s : r ∈ rs → matches r s → matches (alts rs) s.
Proof.
  intros Hr H. induction rs as [|r' rs IH]; [by apply elem_of_nil in Hr|].
  simpl. apply elem_of_cons in Hr as [-> | Hr].
  - by apply matches_alt_l.
  - apply matches_alt_r. by apply IH.
Qed.

Lemma matches_fiscal_period s :
  matches Pattern.fiscal_period s ↔
  ∃ day month, day_digits day ∧ month ∈ Pattern.months ∧ s = day +:+ "-" +:+ month.
Proof.
  unfold Pattern.fiscal_period. split.
  - intros (s1 & s2 & -> & (a & -> & Ha)%matches_cls_inv & H)%matches_cat_inv.
    apply matches_cat_inv in H as (s3 & s4 & -> & Hopt & H).
    apply matches_cat_inv in H as (s5 & s6 & -> & ->%matches_chr_inv & H).
    apply matches_alts_inv in H as (r & Hr & H).
    apply list_elem_of_fmap in Hr as (month & -> & Hmonth).
    apply matches_lit_inv in H as ->.
    apply matches_alt_inv in Hopt as [(b & -> & Hb)%matches_cls_inv | ->%matches_eps_inv].
    + exists (String a (String b "")), month. split; [|done].
      exists a. split; [done|]. right. eauto.
    + exists (String a ""), month. split; [|done].
      exists a. split; [done|]. by left.
  - intros (day & month & (a & Ha & Hday) & Hmonth & ->).
    assert (matches (alts (lit <$> Pattern.months)) month) as Hm.
    { apply (matches_alts _ (lit month)); [|apply matches_lit].
      apply list_elem_of_fmap. eauto. }
    assert (matches (Cat (chr "-") (alts (lit <$> Pattern.months))) ("-" +:+ month)) as Hd.
    { apply (matches_cat _ _ "-" month); [apply matches_chr | done]. }
    destruct Hday as [-> | (b & Hb & ->)].
    + apply (matches_cat _ _ (String a "") ("-" +:+ month)); [by apply matches_cls|].
      apply (matches_cat _ _ "" ("-" +:+ month)); [|done].
      apply matches_alt_r. constructor.
    + apply (matches_cat _ _ (String a "") (String b "" +:+ "-" +:+ month));
        [by apply matches_cls|].
      apply (matches_cat _ _ (String b "") ("-" +:+ month)); [|done].
      apply matches_alt_l. by apply matches_cls.
Qed.

Lemma fiscal_period_text s : to_end Pattern.fiscal_period s = true ↔ fiscal_text s.
Proof.
  rewrite to_end_matches. unfold fiscal_text. split.
  - intros [H | (w & -> & H)].
    + apply matches_fiscal_period in H as (day & month & ? & ? & ->). eauto 6.
    + apply matches_fiscal_period in H as (day & month & ? & ? & ->).
      exists day, month. split; [done|]. split; [done|]. right.
      by rewrite !append_assoc.
  - intros (day & month & Hd & Hm & [-> | ->]).
    + left. apply matches_fiscal_period. eauto.
    + right. exists (day +:+ "-" +:+ month). split; [by rewrite !append_assoc|].
      apply matches_fiscal_period. eauto.
Qed.
End fiscal.

(** X14.  The fiscal-period check leaves the flag of a present value
    alone exactly when its text is a day of one or two digits, a hyphen
    and one of the twelve month abbreviations, possibly followed by one
    line feed; the day is not compared with the month. *)
Theorem fiscal_block_accepts (df : DataFrame) (row : record) :
  "fiscalperiodend" ∈ columns df →
  cell row "fiscalperiodend" ≠ VNull →
  fiscal_block df row 0 = 0 ↔ fiscal_text (py_str (cell row "fiscalperiodend")).
Proof.
  intros Hc Hv. unfold fiscal_block.
  rewrite has_column_true, notna_true by done. simpl.
  rewrite <- fiscal_period_text.
  by destruct (Re.to_end Pattern.fiscal_period (py_str (cell row "fiscalperiodend"))).
Qed.

Lemma fiscal_block_accepts_witness :
  fiscal_block {| columns := ["fiscalperiodend"]; rows := [] |}
    (record_of [("fiscalperiodend", VStr "30-Jun")]) 0 = 0 ↔
  fiscal_text (py_str (cell (record_of [("fiscalperiodend", VStr "30-Jun")])
                            "fiscalperiodend")).
Proof.
  apply (fiscal_block_accepts {| columns := ["fiscalperiodend"]; rows := [] |}
           (record_of [("fiscalperiodend", VStr "30-Jun")])).
  - cbn [columns]. apply list_elem_of_here.
  - vm_compute. discriminate.
Defined.

(** ** Years held as floats and as texts (X15, X16) *)

Section year_values.
Implicit Types (df : DataFrame) (r : record) (s : string) (c : ascii).

Lemma quot_in_range (n : Z) (d : positive) (lo hi : Z) :
  0 < lo →
  lo ≤ Z.quot n (Z.pos d) ≤ hi ↔ lo * Z.pos d ≤ n ∧ n < (hi + 1) * Z.pos d.
Proof.
  intros Hlo. destruct (Z.le_gt_cases 0 n) as [Hn | Hn].
  - rewrite Z.quot_div_nonneg by lia.
    pose proof (Z.div_mod n (Z.pos d) ltac:(lia)) as Hdm.
    pose proof (Z.mod_pos_bound n (Z.pos d) ltac:(lia)) as Hm.
    set (q := n `div` Z.pos d) in *. set (m := n `mod` Z.pos d) in *. nia.
  - assert (Z.quot n (Z.pos d) ≤ 0) as Hq.
    { rewrite <- (Z.opp_involutive n), Z.quot_opp_l by lia.
      assert (0 ≤ Z.quot (- n) (Z.pos d)) by (apply Z.quot_pos; lia). lia. }
    split; [lia | nia].
Qed.

Lemma pretty_N_char_digit (x : N) :
  (x < 10)%N →
  Text.is_digit (pretty_N_char x) = true ∧ Num.digit_val (pretty_N_char x) = x.
Proof.
  intros Hx.
  assert (x = 0 ∨ x = 1 ∨ x = 2 ∨ x = 3 ∨ x = 4 ∨ x = 5 ∨ x = 6 ∨ x = 7 ∨ x = 8
          ∨ x = 9)%N as Hc by lia.
  destruct_or!; subst; by vm_compute.
Qed.

(** [str.rstrip] leaves a text without white space as it is. *)
Lemma rstrip_no_blank s :
  Text.existsb_char Num.is_blank s = false → Num.rstrip s = s.
Proof.
  induction s as [|c s IH]; [done|]. simpl.
  intros [Hc Hs]%orb_false_elim. rewrite (IH Hs), Hc. by destruct s.
Qed.

(** The digits [pretty_N_go] puts in front of its accumulator, read back
    by [digits_tail]. *)
Lemma pretty_N_go_read (x : N) :
  ∃ pre (m : N),
    (∀ s, pretty_N_go x s = pre +:+ s) ∧
    Text.existsb_char Num.is_blank pre = false ∧
    ((0 < x)%N → ∃ c pre', pre = String c pre' ∧ Text.is_digit c = true) ∧
    ∀ acc cnt rest, ∃ cnt',
      Num.digits_tail (pre +:+ rest) acc cnt = Num.digits_tail rest (acc * m + x)%N cnt'.
Proof.
  induction (N.lt_wf_0 x) as [x _ IH].
  destruct (decide (x = 0)%N) as [-> | Hx].
  { exists "", 1%N. split; [done|]. split; [done|]. split; [lia|].
    intros acc cnt rest. exists cnt. rewrite append_nil_l. f_equal. lia. }
  assert (0 < x)%N as Hpos by lia.
  destruct (IH (x `div` 10)%N) as (pre & m & Hgo & Hsp & Hhead & Hread).
  { by apply N.div_lt. }
  destruct (pretty_N_char_digit (x `mod` 10)%N) as [Hd Hv].
  { by apply N.mod_lt. }
  set (d := pretty_N_char (x `mod` 10)) in *.
  exists (pre +:+ String d ""), (m * 10)%N. split_and!.
  - intros s. rewrite pretty_N_go_step, Hgo, append_assoc by done. done.
  - rewrite existsb_char_app, Hsp. simpl. by rewrite (digit_not_blank d Hd).
  - intros _. destruct pre as [|c pre'].
    + exists d, "". done.
    + destruct (N.eq_0_gt_0_cases (x `div` 10)) as [H0 | Hq].
      * specialize (Hgo ""). rewrite H0, pretty_N_go_0 in Hgo. discriminate.
      * destruct (Hhead Hq) as (c' & pre'' & [= -> ->] & Hc). rewrite append_cons. eauto.
  - intros acc cnt rest. rewrite append_assoc, append_cons, append_nil_l.
    destruct (Hread acc cnt (String d rest)) as (cnt1 & ->).
    simpl. rewrite Hd, Hv. eexists. f_equal.
    pose proof (N.div_mod x 10 ltac:(lia)). lia.
Qed.

Lemma digitpart_pretty (p : positive) :
  ∃ c pre' cnt, pretty (N.pos p) = String c pre' ∧ Text.is_digit c = true ∧
    Text.existsb_char Num.is_blank (String c pre') = false ∧
    Num.digitpart (String c pre') = Some (N.pos p, cnt, "").
Proof.
  destruct (pretty_N_go_read (N.pos p)) as (pre & m & Hgo & Hsp & Hhead & Hread).
  destruct Hhead as (c & pre' & -> & Hc); [lia|].
  destruct (Hread 0%N 0%nat "") as (cnt & Hrd).
  exists c, pre', cnt. split_and!; try done.
  - unfold pretty, pretty_N. rewrite decide_False by done.
    by rewrite Hgo, append_nil_r.
  - rewrite append_nil_r in Hrd. simpl in Hrd. rewrite Hc in Hrd.
    simpl. rewrite Hc. f_equal. etrans; [|exact Hrd]. done.
Qed.

Lemma int_of_text_pretty (z : Z) : Num.int_of_text (pretty z) = Some z.
Proof.
  destruct z as [|p|p]; [done| |].
  - destruct (digitpart_pretty p) as (c & pre' & cnt & Hp & Hc & Hsp & Hdp).
    change (pretty (Z.pos p)) with (pretty (N.pos p)). rewrite Hp.
    unfold Num.int_of_text, Num.strip.
    assert (Num.lstrip (String c pre') = String c pre') as ->.
    { simpl. by rewrite (digit_not_blank c Hc). }
    rewrite rstrip_no_blank, digit_no_sign, Hdp by done. done.
  - destruct (digitpart_pretty p) as (c & pre' & cnt & Hp & Hc & Hsp & Hdp).
    change (pretty (Z.neg p)) with ("-" +:+ pretty (N.pos p)). rewrite Hp.
    rewrite append_cons, append_nil_l.
    unfold Num.int_of_text, Num.strip.
    assert (Num.lstrip (String "-" (String c pre')) = String "-" (String c pre')) as ->
      by done.
    rewrite rstrip_no_blank by (simpl in *; done).
    change (Num.sign (String "-" (String c pre'))) with (true, String c pre').
    cbv beta iota. rewrite Hdp. done.
Qed.
End year_values.

(** X15.  A year held as a float is truncated before it is compared: the
    year check accepts it exactly when its value is at least 1900 and
    below 2031. *)
Theorem year_float_truncated (df : DataFrame) (row : record) (f : float64) :
  "timevalue" ∈ columns df →
  cell row "timevalue" = VFloat f →
  year_block df row 0 = 0 ↔ (1900 <= fl_val f)%Q ∧ (fl_val f < 2031)%Q.
Proof.
  intros Hc Hv. rewrite year_block_present by (done || by rewrite Hv).
  rewrite Hv. cbn [py_int]. destruct (fl_val f) as [n d]. cbn [Qnum Qden].
  pose proof (quot_in_range n d 1900 2030 ltac:(lia)) as Hq.
  unfold Qle, Qlt. cbn [Qnum Qden].
  destruct (Z.leb_spec 1900 (Z.quot n (Z.pos d))),
           (Z.leb_spec (Z.quot n (Z.pos d)) 2030); simpl; split; intros; try done; lia.
Qed.

Lemma year_float_truncated_witness :
  year_block (year_frame (VFloat (Float64 (4061 # 2) "2030.5")))
    (record_of [("timevalue", VFloat (Float64 (4061 # 2) "2030.5"))]) 0 = 0 ↔
  (1900 <= 4061 # 2)%Q ∧ (4061 # 2 < 2031)%Q.
Proof.
  apply (year_float_truncated (year_frame (VFloat (Float64 (4061 # 2) "2030.5")))
           (record_of [("timevalue", VFloat (Float64 (4061 # 2) "2030.5"))])
           (Float64 (4061 # 2) "2030.5")).
  - cbn [year_frame columns]. apply list_elem_of_here.
  - reflexivity.
Defined.

(** X16.  A year held as the decimal text of an integer is read back as
    that integer, and the year check treats it as it treats the
    number. *)
Theorem year_text_like_number (df : DataFrame) (row row' : record) (z flag : Z) :
  cell row "timevalue" = VInt z →
  cell row' "timevalue" = VStr (py_str (VInt z)) →
  py_int (cell row' "timevalue") = Some z ∧
  year_block df row' flag = year_block df row flag.
Proof.
  intros Hv Hv'. rewrite Hv'. cbn [py_int py_str].
  split; [apply int_of_text_pretty|].
  unfold year_block. rewrite Hv, Hv'. cbn [py_int py_str notna].
  by rewrite int_of_text_pretty.
Qed.

Lemma year_text_like_number_witness :
  py_int (cell (record_of [("timevalue", VStr "1850")]) "timevalue") = Some 1850 ∧
  year_block (year_frame (VInt 1850)) (record_of [("timevalue", VStr "1850")]) 0 =
  year_block (year_frame (VInt 1850)) (record_of [("timevalue", VInt 1850)]) 0.
Proof.
  apply (year_text_like_number (year_frame (VInt 1850))
           (record_of [("timevalue", VInt 1850)])
           (record_of [("timevalue", VStr "1850")]) 1850 0).
  - reflexivity.
  - reflexivity.
Defined.

(** ** The industry code (X17) *)

Section industry.
Import Re.
Implicit Types (r : regex) (s w : string) (c : ascii) (p : ascii → bool).

Lemma matches_star_all p s :
  Text.existsb_char (λ c, negb (p c)) s = false → matches (Star (Cls p)) s.
Proof.
  induction s as [|c s IH]; simpl; [constructor|].
  intros [Hc Hs]%orb_false_elim. apply negb_false_iff in Hc.
  apply (matches_star_cons _ (String c "") s); [by apply matches_cls | by apply IH].
Qed.

Lemma space_star_spaces s :
  matches (Star space) s → Text.existsb_char not_space s = false.
Proof.
  apply matches_star_cls. intros c Hc. unfold not_space. by rewrite Hc.
Qed.

(** The first character that is not a line feed comes after line feeds
    only, which are white space. *)
Lemma first_not_line_feed s :
  Text.existsb_char not_line_feed s = true →
  ∃ lfs e tail, s = lfs +:+ String e tail ∧ not_line_feed e = true ∧
                Text.existsb_char not_space lfs = false.
Proof.
  induction s as [|c s IH]; simpl; [done|].
  destruct (not_line_feed c) eqn:Hc; simpl.
  - intros _. exists "", c, s. done.
  - intros (lfs & e & tail & -> & He & Hl)%IH.
    exists (String c lfs), e, tail. split; [done|]. split; [done|]. simpl.
    rewrite Hl, orb_false_r. unfold not_line_feed in Hc.
    apply negb_false_iff, bool_decide_eq_true in Hc as ->. done.
Qed.

Lemma industry_text_prefix s : prefix Pattern.industry s = true ↔ industry_text s.
Proof.
  rewrite prefix_matches. unfold Pattern.industry, industry_text, plus, dot. split.
  - intros (s1 & s2 & -> & H).
    apply matches_cat_inv in H as (? & t1 & -> & (a & -> & Ha)%matches_cls_inv & H).
    apply matches_cat_inv in H as (? & t2 & -> & (b & -> & Hb)%matches_cls_inv & H).
    apply matches_cat_inv in H as (? & t3 & -> & (c & -> & Hc)%matches_cls_inv & H).
    apply matches_cat_inv in H as (? & t4 & -> & (d & -> & Hd)%matches_cls_inv & H).
    apply matches_cat_inv in H as (w1 & t5 & -> & Hw1%space_star_spaces & H).
    apply matches_cat_inv in H as (? & t6 & -> & ->%matches_chr_inv & H).
    apply matches_cat_inv in H as (w2 & t7 & -> & Hw2 & H).
    apply matches_cat_inv in H as (? & w3 & -> & (e & -> & He)%matches_cls_inv & Hw3).
    exists a, b, c, d, w1, (w2 +:+ String e (w3 +:+ s2)).
    do 5 (split; [done|]). split.
    + rewrite existsb_char_app. simpl. unfold not_line_feed. rewrite He.
      by rewrite orb_true_r.
    + by repeat first [rewrite append_cons | rewrite append_nil_l | rewrite append_assoc].
  - intros (a & b & c & d & ws & rest & Ha & Hb & Hc & Hd & Hws & Hrest & ->).
    apply first_not_line_feed in Hrest as (lfs & e & tail & -> & He & Hl).
    exists (String a "" +:+ String b "" +:+ String c "" +:+ String d "" +:+ ws +:+
            "-" +:+ lfs +:+ String e "" +:+ ""), tail.
    split.
    { by repeat first [rewrite append_cons | rewrite append_nil_l | rewrite append_nil_r
                      | rewrite append_assoc]. }
    repeat (apply matches_cat; [by apply matches_cls|]).
    apply matches_cat; [by apply (matches_star_all Text.is_space)|].
    apply matches_cat; [apply matches_chr|].
    apply matches_cat; [by apply (matches_star_all Text.is_space)|].
    apply matches_cat; [by apply matches_cls | constructor].
Qed.
End industry.

(** X17.  The industry-code check leaves the flag of a present value
    alone exactly when its text starts with four digits, any white
    space and a hyphen, and goes on with at least one character that is
    not a line feed: a description of white space is enough, and
    anything may follow. *)
Theorem industry_block_accepts (df : DataFrame) (row : record) :
  "industrycode" ∈ columns df →
  cell row "industrycode" ≠ VNull →
  industry_block df row 0 = 0 ↔ industry_text (py_str (cell row "industrycode")).
Proof.
  intros Hc Hv. unfold industry_block.
  rewrite has_column_true, notna_true by done. simpl.
  rewrite <- industry_text_prefix.
  by destruct (Re.prefix Pattern.industry (py_str (cell row "industrycode"))).
Qed.

Lemma industry_block_accepts_witness :
  industry_block {| columns := ["industrycode"]; rows := [] |}
    (record_of [("industrycode", VStr "7010 - Head offices")]) 0 = 0 ↔
  industry_text (py_str (cell (record_of [("industrycode", VStr "7010 - Head offices")])
                              "industrycode")).
Proof.
  apply (industry_block_accepts {| columns := ["industrycode"]; rows := [] |}
           (record_of [("industrycode", VStr "7010 - Head offices")])).
  - cbn [columns]. apply list_elem_of_here.
  - vm_compute. discriminate.
Defined.
